(** * BananaFits: the orchestration layer of the virtual try-on application

    A shallow embedding of [services/geminiService.ts] (the remote generation
    client), [components/TryOnPanel.tsx] (the outfit composition state) and
    [App.tsx] (edit history and workflow handlers), with the handlers of the
    scene panel, the anime panel and the refinement dialog that call them,
    followed by the properties of the specification that concern them and by
    further properties of the code.

    Conventions.
    - JavaScript strings are [string]s holding the UTF-8 bytes of the text.
    - JavaScript numbers that take part in arithmetic are IEEE 754 binary64
      values, [float]; list positions are [nat]; the history cursor is a [Z]
      because the source stores -1 in it.
    - A thrown value is [Thrown]; a computation that may throw is a [result].
    - What the browser, the JavaScript engine and the remote model do is taken
      from a [Runtime] record of functions. *)

From Stdlib Require Import ZArith Floats Uint63 Ascii.
From stdpp Require Import base option list strings pretty.

Local Open Scope Z_scope.
Set Warnings "-register-all".

(** ** The JavaScript values and built-ins the code relies on *)

Module Js.

(** The double quote character, for the template literals that contain one. *)
Definition dquote : string := String (ascii_of_nat 34) EmptyString.

(** The line feed of a multi-line template literal. *)
Definition nl : string := String (ascii_of_nat 10) EmptyString.

(** Truthiness of a string: every string but the empty one. *)
Definition truthy_string (s : string) : bool :=
  match s with
  | EmptyString => false
  | String _ _ => true
  end.

(** Truthiness of a value that may be [null] or [undefined]. *)
Definition truthy_opt_string (o : option string) : bool :=
  match o with
  | Some s => truthy_string s
  | None => false
  end.

(** [${v}] for a string that may be [undefined]. *)
Definition show_opt_string (o : option string) : string :=
  match o with
  | Some s => s
  | None => "undefined"
  end.

(** [a || b] on strings. *)
Definition or_string (o : option string) (d : string) : string :=
  match o with
  | Some s => if truthy_string s then s else d
  | None => d
  end.

(** *** White space, as [String.prototype.trim] sees it

    ECMAScript strips WhiteSpace and LineTerminator code points. On the UTF-8
    bytes of a string these are the one-byte 09 0A 0B 0C 0D 20, the two-byte
    C2 A0 (U+00A0) and the three-byte E1 9A 80 (U+1680), E2 80 80..8A
    (U+2000..U+200A), E2 80 A8, E2 80 A9 (U+2028, U+2029), E2 80 AF (U+202F),
    E2 81 9F (U+205F), E3 80 80 (U+3000) and EF BB BF (U+FEFF). *)

Definition ws1 (c : ascii) : bool :=
  let n := nat_of_ascii c in
  ((Nat.leb 9 n) && (Nat.leb n 13)) || Nat.eqb n 32.

Definition ws2 (c1 c2 : ascii) : bool :=
  Nat.eqb (nat_of_ascii c1) 194 && Nat.eqb (nat_of_ascii c2) 160.

Definition ws3 (c1 c2 c3 : ascii) : bool :=
  let a := nat_of_ascii c1 in
  let b := nat_of_ascii c2 in
  let c := nat_of_ascii c3 in
  (Nat.eqb a 225 && Nat.eqb b 154 && Nat.eqb c 128)
  || (Nat.eqb a 226 && Nat.eqb b 128
        && ((Nat.leb 128 c && Nat.leb c 138) || Nat.eqb c 168 || Nat.eqb c 169
            || Nat.eqb c 175))
  || (Nat.eqb a 226 && Nat.eqb b 129 && Nat.eqb c 159)
  || (Nat.eqb a 227 && Nat.eqb b 128 && Nat.eqb c 128)
  || (Nat.eqb a 239 && Nat.eqb b 187 && Nat.eqb c 191).

(** Leading white space removed, on a list of bytes. [rev3] tells whether the
    list is read backwards (for the trailing end), in which case a multi-byte
    sequence shows its last byte first. *)
Fixpoint strip_ws (rev3 : bool) (l : list ascii) : list ascii :=
  match l with
  | [] => []
  | c1 :: l1 =>
      if ws1 c1 then strip_ws rev3 l1
      else
        match l1 with
        | [] => l
        | c2 :: l2 =>
            if (if rev3 then ws2 c2 c1 else ws2 c1 c2) then strip_ws rev3 l2
            else
              match l2 with
              | [] => l
              | c3 :: l3 =>
                  if (if rev3 then ws3 c3 c2 c1 else ws3 c1 c2 c3)
                  then strip_ws rev3 l3
                  else l
              end
        end
  end.

Definition chars (s : string) : list ascii := String.list_ascii_of_string s.
Definition unchars (l : list ascii) : string := String.string_of_list_ascii l.

(** [s.trim()]. *)
Definition trim (s : string) : string :=
  unchars (rev (strip_ws true (rev (strip_ws false (chars s))))).

(** *** Arrays *)

(** [a.slice(0, e)]: a negative [e] counts from the end, and both ends are
    clamped to the array. *)
Definition slice0 {A} (a : list A) (e : Z) : list A :=
  let len := Z.of_nat (length a) in
  let k := if e <? 0 then Z.max (len + e) 0 else Z.min e len in
  take (Z.to_nat k) a.

(** [a[i]] for a cursor that may be negative: [undefined] out of range. *)
Definition index {A} (a : list A) (i : Z) : option A :=
  if i <? 0 then None else a !! Z.to_nat i.

(** [b = [...a]; b[i] = v] on an array whose slots may be empty: inside the
    array the slot is overwritten, past its end the array grows to [i + 1]
    slots and the slots in between stay empty. *)
Definition assign {A} (a : list (option A)) (i : nat) (v : A) : list (option A) :=
  if Nat.ltb i (length a) then <[i := Some v]> a
  else a ++ replicate (i - length a)%nat None ++ [Some v].

(** *** Files *)

(** The [type] of the file made by [new File(bits, name, {type: t})]: the
    empty text when [t] holds a character outside U+0020..U+007E, and
    otherwise [t] with its letters in ASCII lower case. On the UTF-8 bytes
    of [t] a character outside that range shows as a byte outside it. *)
Definition printable (c : ascii) : bool :=
  let n := nat_of_ascii c in Nat.leb 32 n && Nat.leb n 126.

Definition lower (c : ascii) : ascii :=
  let n := nat_of_ascii c in
  if Nat.leb 65 n && Nat.leb n 90 then ascii_of_nat (n + 32) else c.

Definition File_type (t : string) : string :=
  if forallb printable (chars t) then unchars (lower <$> chars t) else EmptyString.

(** *** Numbers *)

(** [Math.round]: the integer nearest to [x], a tie going towards positive
    infinity; NaN, the infinities and the zeros are returned as they are, and
    a negative [x] that rounds to zero gives the negative zero. A finite
    double is [m * 2^e]; with [e >= 0] it is an integer already, and with
    [e < 0] the result [floor (x + 1/2)] is computed on integers. *)
Definition Math_round (x : float) : float :=
  match Prim2SF x with
  | S754_finite sgn m e =>
      if 0 <=? e then x
      else
        let d := 2 ^ (- e) in
        let n := if sgn then Z.neg m else Z.pos m in
        let r := (2 * n + d) / (2 * d) in
        if r =? 0 then (if sgn then (-0)%float else 0%float)
        else if r <? 0 then PrimFloat.opp (PrimFloat.of_uint63 (Uint63.of_Z (- r)))
        else PrimFloat.of_uint63 (Uint63.of_Z r)
  | _ => x
  end.

(** Truthiness of a number: every number but the zeros and NaN. *)
Definition truthy_number (x : float) : bool :=
  match Prim2SF x with
  | S754_zero _ | S754_nan => false
  | _ => true
  end.

End Js.

(** ** Thrown values and computations that may throw *)

(** The source throws plain [Error] objects. [ErrorKind] records which
    [throw] statement (or which collaborator) raised the error; the message
    is the one the source builds. *)
Inductive ErrorKind : Set :=
  | ConversionError        (* fileToPart: the conversion to PNG failed *)
  | EncodingError          (* fileToPart: the data URL is unusable *)
  | BlockedError           (* handleApiResponse, step 1 *)
  | GenerationStoppedError (* handleApiResponse, step 3 *)
  | NoImageReturnedError   (* handleApiResponse, step 4 *)
  | NoValidItemsError      (* generateLayeredOutfit *)
  | NoContextError         (* generateVariations *)
  | DataUrlError           (* dataURLtoFile *)
  | CaptionFormatError     (* generateCaptions, inside its try block *)
  | ExternalError.         (* raised by the browser or the remote client *)

(** A thrown value: an [Error] with its message, or a value that is not an
    instance of [Error] (a FileReader error event, for one). *)
Inductive Thrown : Set :=
  | JsError (kind : ErrorKind) (message : string)
  | NotAnError.

Inductive result (A : Type) : Type :=
  | Ok (a : A)
  | Throw (t : Thrown).
Arguments Ok {A} a.
Arguments Throw {A} t.

Global Instance result_ret : MRet result := λ A a, Ok a.
Global Instance result_bind : MBind result := λ A B k m,
  match m with
  | Ok a => k a
  | Throw t => Throw t
  end.

Definition is_Ok {A} (r : result A) : bool :=
  match r with
  | Ok _ => true
  | Throw _ => false
  end.

(** What a browser or remote call gives back: a value, or a rejection that
    carries the message of an [Error], or no message when the rejected value
    is not an [Error]. *)
Inductive outcome (A : Type) : Type :=
  | Fulfilled (a : A)
  | Rejected (message : option string).
Arguments Fulfilled {A} a.
Arguments Rejected {A} message.

Definition thrown_of (message : option string) : Thrown :=
  match message with
  | Some m => JsError ExternalError m
  | None => NotAnError
  end.

(** [await p] for a call into the browser or the remote client. *)
Definition await {A} (o : outcome A) : result A :=
  match o with
  | Fulfilled a => Ok a
  | Rejected m => Throw (thrown_of m)
  end.

(** [err instanceof Error ? err.message : fallback]. *)
Definition message_or (t : Thrown) (fallback : string) : string :=
  match t with
  | JsError _ m => m
  | NotAnError => fallback
  end.

(** ** Data exchanged with the remote model *)

Record File : Set := mkFile {
  file_name : string;
  file_type : string;
  file_bytes : string
}.

Record Blob : Set := mkBlob {
  mimeType : option string;
  data : option string
}.

Record Part : Set := mkPart {
  inlineData : option Blob;
  part_text : option string
}.

Record Content : Set := mkContent {
  parts : option (list Part)
}.

Record Candidate : Set := mkCandidate {
  content : option Content;
  finishReason : option string
}.

Record PromptFeedback : Set := mkPromptFeedback {
  blockReason : option string;
  blockReasonMessage : option string
}.

(** [response_text] is the [text] accessor of the client library. *)
Record GenerateContentResponse : Set := mkResponse {
  promptFeedback : option PromptFeedback;
  candidates : option (list Candidate);
  response_text : option string
}.

(** A request: a model name with parts, or, for captions, a model name with
    a plain prompt and the JSON response schema (one object with the array of
    strings [captions]). *)
Inductive Request : Set :=
  | PartsRequest (model : string) (req_parts : list Part)
  | JsonRequest (model : string) (prompt : string).

(** Values as [JSON.parse] builds them. *)
Inductive JsValue : Set :=
  | JNull
  | JBool (b : bool)
  | JNumber (x : float)
  | JString (s : string)
  | JArray (elements : list JsValue)
  | JObject (fields : list (string * JsValue)).

Module JsValues.

Definition truthy (v : JsValue) : bool :=
  match v with
  | JNull => false
  | JBool b => b
  | JNumber x => Js.truthy_number x
  | JString s => Js.truthy_string s
  | JArray _ | JObject _ => true
  end.

(** The own property [key] of an object built by [JSON.parse]. *)
Fixpoint field (key : string) (fields : list (string * JsValue)) : option JsValue :=
  match fields with
  | [] => None
  | (k, v) :: rest => if String.eqb k key then Some v else field key rest
  end.

End JsValues.

(** ** The environment *)

(** Everything the code obtains from outside itself. Each function stands
    for one call; a [Rejected] outcome is a rejected promise or a thrown
    exception.
    - [renderPNG]: the canvas round trip of [convertImageToPNG], giving the
      bytes of the PNG.
    - [readAsDataURL]: [FileReader.readAsDataURL].
    - [atob]: base64 decoding.
    - [generateContent]: [ai.models.generateContent]; the first argument is
      the position of the request among those of the running operation.
    - [firstRejected]: among the positions of the promises of a
      [Promise.all] that reject, the one that rejects first.
    - [JSON_parse]: [JSON.parse], [None] for a syntax error.
    - [Number_toString]: a number inside a template literal.
    - [generateMultiAngleViews]: the multi-angle operation of the service,
      which [App.tsx] imports and whose code is not part of the sources.
    - [TypeError_message]: the message of the [TypeError] that the engine
      throws when the property of the given name is read from
      [undefined]. *)
Record Runtime : Type := mkRuntime {
  renderPNG : File → outcome string;
  readAsDataURL : File → outcome string;
  atob : string → outcome string;
  generateContent : nat → Request → outcome GenerateContentResponse;
  firstRejected : list nat → nat;
  JSON_parse : string → option JsValue;
  Number_toString : float → string;
  generateMultiAngleViews : File → outcome (list string * list JsValue);
  TypeError_message : string → string
}.

(** ** Text helpers of the data URL code *)

Module Text.

(** [s.split(sep)] for a separator of one character. *)
Fixpoint split (sep : ascii) (s : string) : list string :=
  match s with
  | EmptyString => [EmptyString]
  | String c r =>
      if Ascii.eqb c sep then EmptyString :: split sep r
      else
        match split sep r with
        | h :: t => String c h :: t
        | [] => [String c EmptyString]
        end
  end.

(** [a.join(sep)]. *)
Fixpoint join (sep : string) (a : list string) : string :=
  match a with
  | [] => EmptyString
  | [s] => s
  | s :: rest => s +:+ sep +:+ join sep rest
  end.

(** Whether the bytes start with a line terminator, which the dot of a
    regular expression does not match: 0A, 0D, U+2028 or U+2029. *)
Definition at_line_terminator (l : list ascii) : bool :=
  match l with
  | c1 :: rest =>
      let a := nat_of_ascii c1 in
      Nat.eqb a 10 || Nat.eqb a 13
      || match rest with
         | c2 :: c3 :: _ =>
             Nat.eqb a 226 && Nat.eqb (nat_of_ascii c2) 128
             && (Nat.eqb (nat_of_ascii c3) 168 || Nat.eqb (nat_of_ascii c3) 169)
         | _ => false
         end
  | [] => false
  end.

(** The shortest run of characters, none a line terminator, up to the
    first semicolon. *)
Fixpoint until_semicolon (l : list ascii) : option (list ascii) :=
  match l with
  | [] => None
  | c :: rest =>
      if Ascii.eqb c ";" then Some []
      else if at_line_terminator l then None
      else cons c <$> until_semicolon rest
  end.

(** Group 1 of the leftmost match of [/:(.*?);/]. *)
Fixpoint match_colon (l : list ascii) : option (list ascii) :=
  match l with
  | [] => None
  | c :: rest =>
      if Ascii.eqb c ":" then
        match until_semicolon rest with
        | Some m => Some m
        | None => match_colon rest
        end
      else match_colon rest
  end.

Definition mime_match (s : string) : option string :=
  Js.unchars <$> match_colon (Js.chars s).

End Text.

(** ** Clothing items ([components/TryOnPanel.tsx]) *)

Inductive ClothingCategory : Set :=
  | Top | Outerwear | Bottoms | Shoes | Hat | Sunglasses.

Definition CLOTHING_CATEGORIES : list ClothingCategory :=
  [Top; Outerwear; Bottoms; Shoes; Hat; Sunglasses].

(** The string a category is in the source. *)
Definition category_name (c : ClothingCategory) : string :=
  match c with
  | Top => "Top"
  | Outerwear => "Outerwear"
  | Bottoms => "Bottoms"
  | Shoes => "Shoes"
  | Hat => "Hat"
  | Sunglasses => "Sunglasses"
  end.

(** ['upload' | 'prompt']. *)
Inductive ItemSource : Set :=
  | SourceUpload
  | SourcePrompt.

(** [File | string]; the [null] of the source is the [None] of the field. *)
Inductive ItemValue : Set :=
  | FileValue (f : File)
  | TextValue (s : string).

Record Point : Set := mkPoint {
  x : float;
  y : float
}.

Record ClothingItem : Set := mkItem {
  id : Z;
  type : ClothingCategory;
  source : ItemSource;
  value : option ItemValue;
  hotspot : option Point
}.

(** Truthiness of [item.value]: a file, or a string that is not empty. *)
Definition truthy_value (v : option ItemValue) : bool :=
  match v with
  | Some (FileValue _) => true
  | Some (TextValue s) => Js.truthy_string s
  | None => false
  end.

(** ** The remote generation client ([services/geminiService.ts]) *)

Module Service.

(** [convertImageToPNG]: the image is drawn on a canvas and read back as a
    PNG named after the file, its last extension replaced. *)
Definition convertImageToPNG (rt : Runtime) (file : File) : result File :=
  blob ← await (renderPNG rt file);
  let stem := Text.join "." (Js.slice0 (Text.split "." (file_name file)) (-1)) in
  let newFileName := (if Js.truthy_string stem then stem else file_name file) +:+ ".png" in
  Ok (mkFile newFileName "image/png" blob).

Definition SUPPORTED_MIME_TYPES : list string :=
  ["image/png"; "image/jpeg"; "image/webp"; "image/heic"; "image/heif"].

(** [SUPPORTED_MIME_TYPES.includes(t)]. *)
Definition includes (a : list string) (t : string) : bool :=
  existsb (String.eqb t) a.

(** [fileToPart]: a file as an inline part of a request. *)
Definition fileToPart (rt : Runtime) (file : File) : result Part :=
  processedFile ←
    (if includes SUPPORTED_MIME_TYPES (file_type file) then Ok file
     else
       match convertImageToPNG rt file with
       | Ok converted => Ok converted
       | Throw error =>
           let errorMessage :=
             message_or error "An unknown error occurred during conversion." in
           Throw (JsError ConversionError
                    ("The file format (" +:+ file_type file
                     +:+ ") is not supported and could not be converted. "
                     +:+ errorMessage))
       end);
  dataUrl ← await (readAsDataURL rt processedFile);
  match Text.split "," dataUrl with
  | arr0 :: arr1 :: _ =>
      match Text.mime_match arr0 with
      | Some mime =>
          if Js.truthy_string mime
          then Ok (mkPart (Some (mkBlob (Some mime) (Some arr1))) None)
          else Throw (JsError EncodingError "Could not parse MIME type from data URL")
      | None => Throw (JsError EncodingError "Could not parse MIME type from data URL")
      end
  | _ => Throw (JsError EncodingError "Invalid data URL")
  end.

(** [response.promptFeedback?.blockReason]. *)
Definition blockReasonOf (response : GenerateContentResponse) : option string :=
  promptFeedback response ≫= blockReason.

(** [response.candidates?.[0]]. *)
Definition firstCandidate (response : GenerateContentResponse) : option Candidate :=
  candidates response ≫= head.

(** [response.candidates?.[0]?.content?.parts?.find(part => part.inlineData)]. *)
Definition imagePartOf (response : GenerateContentResponse) : option Part :=
  ((firstCandidate response ≫= content) ≫= parts)
    ≫= List.find (λ part, bool_decide (is_Some (inlineData part))).

(** The inline data of that part, the image payload of the response. *)
Definition inlineImageOf (response : GenerateContentResponse) : option Blob :=
  imagePartOf response ≫= inlineData.

(** [response.candidates?.[0]?.finishReason]. *)
Definition finishReasonOf (response : GenerateContentResponse) : option string :=
  firstCandidate response ≫= finishReason.

(** [handleApiResponse]: the image of a response as a data URL, or the
    reason why there is none. *)
Definition handleApiResponse
    (response : GenerateContentResponse) (context : string) : result string :=
  if Js.truthy_opt_string (blockReasonOf response) then
    let errorMessage :=
      "Request was blocked. Reason: " +:+ Js.show_opt_string (blockReasonOf response)
      +:+ ". "
      +:+ Js.or_string (promptFeedback response ≫= blockReasonMessage) EmptyString in
    Throw (JsError BlockedError errorMessage)
  else
    match inlineImageOf response with
    | Some blob =>
        Ok ("data:" +:+ Js.show_opt_string (mimeType blob) +:+ ";base64,"
            +:+ Js.show_opt_string (data blob))
    | None =>
        let finishReason := finishReasonOf response in
        if Js.truthy_opt_string finishReason
           && negb (bool_decide (finishReason = Some "STOP"))
        then
          Throw (JsError GenerationStoppedError
                   ("Image generation for " +:+ context
                    +:+ " stopped unexpectedly. Reason: "
                    +:+ Js.show_opt_string finishReason
                    +:+ ". This often relates to safety settings."))
        else
          let textFeedback := Js.trim <$> response_text response in
          Throw (JsError NoImageReturnedError
                   ("The AI model did not return an image for the " +:+ context +:+ ". "
                    +:+ (if Js.truthy_opt_string textFeedback
                         then "The model responded with text: " +:+ Js.dquote
                              +:+ Js.show_opt_string textFeedback +:+ Js.dquote
                         else "This can happen due to safety filters or if the request is too complex. Please try rephrasing your prompt to be more direct.")))
    end.

(** *** Operations

    An operation gives the requests it sent to the model, in the order in
    which it sent them, and its result. *)

Definition Remote (A : Type) : Type := (list Request * result A)%type.

Definition lift {A} (r : result A) : Remote A := ([], r).

Global Instance Remote_ret : MRet Remote := λ A a, ([], Ok a).
Global Instance Remote_bind : MBind Remote := λ A B k m,
  match m with
  | (sent, Ok a) => let '(sent', r) := k a in (sent ++ sent', r)
  | (sent, Throw t) => (sent, Throw t)
  end.

(** [await ai.models.generateContent(request)], the request being the one
    at position [i] of the operation. *)
Definition send (rt : Runtime) (i : nat) (request : Request)
  : Remote GenerateContentResponse :=
  ([request], await (generateContent rt i request)).

Definition IMAGE_MODEL : string := "gemini-2.5-flash-image-preview".
Definition TEXT_MODEL : string := "gemini-2.5-flash".

Definition textPart (text : string) : Part := mkPart None (Some text).

(** The state of the loop of [generateLayeredOutfit]. *)
Record OutfitParts : Set := mkOutfitParts {
  garmentImageCounter : nat;
  garmentImageParts : list Part;
  promptInstructions : list string
}.

Definition placement (rt : Runtime) (h : Point) : string :=
  " should be placed on the person near coordinates (x: "
  +:+ Number_toString rt (x h) +:+ ", y: " +:+ Number_toString rt (y h) +:+ ").".

(** One turn of the loop over the items. *)
Definition outfitStep (rt : Runtime) (acc : OutfitParts) (item : ClothingItem)
  : result OutfitParts :=
  match hotspot item with
  | None => Ok acc
  | Some h =>
      match source item, value item with
      | SourceUpload, Some (FileValue f) =>
          let counter := S (garmentImageCounter acc) in
          part ← fileToPart rt f;
          Ok (mkOutfitParts counter
                (garmentImageParts acc ++ [part])
                (promptInstructions acc ++
                   ["- A " +:+ category_name (type item) +:+ " from garment image #"
                    +:+ pretty counter +:+ placement rt h]))
      | SourcePrompt, Some (TextValue t) =>
          if Js.truthy_string (Js.trim t) then
            Ok (mkOutfitParts (garmentImageCounter acc)
                  (garmentImageParts acc)
                  (promptInstructions acc ++
                     ["- A " +:+ category_name (type item) +:+ " described as "
                      +:+ Js.dquote +:+ t +:+ Js.dquote +:+ placement rt h]))
          else Ok acc
      | _, _ => Ok acc
      end
  end.

Fixpoint outfitLoop (rt : Runtime) (acc : OutfitParts) (items : list ClothingItem)
  : result OutfitParts :=
  match items with
  | [] => Ok acc
  | item :: rest => acc' ← outfitStep rt acc item; outfitLoop rt acc' rest
  end.

Definition NO_VALID_ITEMS : Thrown :=
  JsError NoValidItemsError "No valid clothing items were provided to generate an outfit.".

Definition outfitPrompt (promptInstructions : list string) : string :=
  Text.join Js.nl
    ["You are an expert virtual stylist AI. The first image provided is the person to dress. The subsequent images are garments to be placed on them.";
     EmptyString;
     "Instructions:";
     "1.  Your task is to dress the person in the first image with a complete outfit described below.";
     "2.  Accurately place each item onto the person based on its description and placement coordinates.";
     "3.  Render all items realistically, matching the person's pose, body shape, and the lighting of the original photo.";
     "4.  Crucially, you must layer the garments correctly and naturally (e.g., a jacket goes over a shirt).";
     "5.  The rest of the image (background, and parts of the person not covered by the new outfit) must remain identical to the original.";
     "6.  The new clothing should replace any existing clothing.";
     EmptyString;
     "Outfit Details:";
     Text.join Js.nl promptInstructions;
     EmptyString;
     "Output: Return ONLY the final, single edited image. Do not return text."].

(** [generateLayeredOutfit]. *)
Definition generateLayeredOutfit
    (rt : Runtime) (originalImage : File) (items : list ClothingItem)
  : Remote string :=
  originalImagePart ← lift (fileToPart rt originalImage);
  acc ← lift (outfitLoop rt (mkOutfitParts 0 [] []) items);
  if Nat.eqb (length (promptInstructions acc)) 0 then
    lift (Throw NO_VALID_ITEMS)
  else
    let allParts :=
      [originalImagePart] ++ garmentImageParts acc
        ++ [textPart (outfitPrompt (promptInstructions acc))] in
    response ← send rt 0 (PartsRequest IMAGE_MODEL allParts);
    lift (handleApiResponse response "layered-outfit").

(** The two deprecated entry points. *)
Definition generateTryOnImage
    (rt : Runtime) (originalImage garmentImage : File) (hotspot : Point)
  : Remote string :=
  generateLayeredOutfit rt originalImage
    [mkItem 1 Top SourceUpload (Some (FileValue garmentImage)) (Some hotspot)].

Definition generateClothingFromPrompt
    (rt : Runtime) (originalImage : File) (clothingPrompt : string) (hotspot : Point)
  : Remote string :=
  generateLayeredOutfit rt originalImage
    [mkItem 1 Top SourcePrompt (Some (TextValue clothingPrompt)) (Some hotspot)].

(** [Promise.all]: the values in the order of the promises when all are
    fulfilled, and otherwise the reason of the promise that rejects first. *)
Fixpoint fulfilledValues {A} (settled : list (result A)) : list A :=
  match settled with
  | [] => []
  | Ok a :: rest => a :: fulfilledValues rest
  | Throw _ :: rest => fulfilledValues rest
  end.

Fixpoint rejections {A} (i : nat) (settled : list (result A)) : list (nat * Thrown) :=
  match settled with
  | [] => []
  | Ok _ :: rest => rejections (S i) rest
  | Throw t :: rest => (i, t) :: rejections (S i) rest
  end.

Definition Promise_all {A} (rt : Runtime) (settled : list (result A)) : result (list A) :=
  match rejections 0 settled with
  | [] => Ok (fulfilledValues settled)
  | (i0, t0) :: later =>
      let winner := firstRejected rt (i0 :: (fst <$> later)) in
      match List.find (λ r, Nat.eqb (fst r) winner) ((i0, t0) :: later) with
      | Some (_, t) => Throw t
      | None => Throw t0
      end
  end.

Definition variationPrompt (context : string) : string :=
  Text.join Js.nl
    ["INSTRUCTIONS:";
     "1.  First, perfectly and cleanly isolate the main person from their original background. Remove all background elements.";
     "2.  Next, place this isolated person into a new, realistic scene described as: " +:+ Js.dquote +:+ context +:+ Js.dquote +:+ ".";
     "3.  Ensure the lighting on the person is adjusted to perfectly match the new environment.";
     "4.  Do not change the person, their pose, or their clothing in any way.";
     "5.  The final output must be a photorealistic image.";
     EmptyString;
     "OUTPUT: Return ONLY the final generated image."].

(** The body of the callback of [contexts.map] in [generateVariations]. *)
Definition variation (rt : Runtime) (sourceImagePart : Part) (i : nat) (context : string)
  : Remote string :=
  response ← send rt i (PartsRequest IMAGE_MODEL
                          [sourceImagePart; textPart (variationPrompt context)]);
  lift (handleApiResponse response ("variation: " +:+ context)).

Definition NO_CONTEXT : Thrown :=
  JsError NoContextError "generateVariations requires at least 1 context string.".

(** [generateVariations]. Every callback sends its request before any
    response is awaited. *)
Definition generateVariations
    (rt : Runtime) (sourceImage : File) (contexts : list string)
  : Remote (list string) :=
  if Nat.ltb (length contexts) 1 then
    lift (Throw NO_CONTEXT)
  else
    sourceImagePart ← lift (fileToPart rt sourceImage);
    let generationPromises := imap (variation rt sourceImagePart) contexts in
    (concat (fst <$> generationPromises),
     Promise_all rt (snd <$> generationPromises)).

Definition scenePrompt : string :=
  Text.join Js.nl
    ["You are an expert photo composition AI.";
     "INSTRUCTIONS:";
     "1.  The first image contains the subject (a person). Perfectly and cleanly isolate the main person from their original background.";
     "2.  The second image is the new background.";
     "3.  Place the isolated person realistically into the new background.";
     "4.  CRITICAL: Analyze the lighting, shadows, and color temperature of the new background image. You MUST adjust the lighting on the person to perfectly match the new environment, making it look as if they were originally photographed there.";
     "5.  Do not change the person's clothing or pose.";
     "OUTPUT: Return ONLY the final, photorealistic composite image."].

(** [generateSceneFromImage]. *)
Definition generateSceneFromImage
    (rt : Runtime) (personImage backgroundImage : File)
  : Remote (list string) :=
  personImagePart ← lift (fileToPart rt personImage);
  backgroundImagePart ← lift (fileToPart rt backgroundImage);
  response ← send rt 0 (PartsRequest IMAGE_MODEL
                          [personImagePart; backgroundImagePart; textPart scenePrompt]);
  resultUrl ← lift (handleApiResponse response "variation from image");
  mret [resultUrl].

Definition animePrompt (posePrompt : string) : string :=
  Text.join Js.nl
    ["YOU ARE AN EXPERT ANIME ARTIST AI.";
     "Your task is to transform a person from a selfie into an anime character and place them seamlessly into an anime panel scene.";
     EmptyString;
     "INSTRUCTIONS:";
     "1.  **Analyze Selfie (Image 1):** Identify the key facial features, hair style, and overall appearance of the person in the first image.";
     "2.  **Analyze Style Panel (Image 2):** Critically analyze the art style of the second image (the anime panel). Pay close attention to:";
     "    - Linework (thickness, style)";
     "    - Color palette and shading technique (cel-shading, soft gradients, etc.)";
     "    - Eye style and proportions.";
     "    - Overall texture and feel.";
     "3.  **Create Character:** Transform the person from the selfie into a new anime character. CRITICAL: The character's art style MUST EXACTLY MATCH the style of the anime panel. They should look like they were drawn by the same artist.";
     "4.  **Apply Pose:** Pose the newly created character according to this description: " +:+ Js.dquote +:+ posePrompt +:+ Js.dquote +:+ ".";
     "5.  **Integrate Scene:** Seamlessly integrate the posed character into the anime panel image. The character should look like they are naturally part of the scene, with correct lighting and composition.";
     EmptyString;
     "OUTPUT: Return ONLY the final, single, high-quality composite image. Do not return text."].

(** [generateAnimeTransformation]. *)
Definition generateAnimeTransformation
    (rt : Runtime) (personImage animePanelImage : File) (posePrompt : string)
  : Remote string :=
  personImagePart ← lift (fileToPart rt personImage);
  animePanelPart ← lift (fileToPart rt animePanelImage);
  response ← send rt 0 (PartsRequest IMAGE_MODEL
                          [personImagePart; animePanelPart;
                           textPart (animePrompt posePrompt)]);
  lift (handleApiResponse response "anime transformation").

(** The captions returned when the response cannot be used. *)
Definition FALLBACK_CAPTIONS : list JsValue :=
  [JString "Had a great time exploring these places!";
   JString "New outfit, new adventures! âœ¨";
   JString "Which look is your favorite? Let me know! ðŸ‘‡";
   JString "Making memories all over the world. #travel #style"].

Definition captionsPrompt (clothingPrompt : string) (contexts : list string) : string :=
  let clothingDescription :=
    if Js.truthy_string clothingPrompt
    then "The person is wearing: " +:+ Js.dquote +:+ clothingPrompt +:+ Js.dquote
    else "The person is wearing a new outfit." in
  Text.join Js.nl
    ["You are a witty social media expert. Generate 4-5 catchy Instagram captions for a photo series. " +:+ clothingDescription +:+ ". The photos show them in these settings: " +:+ Text.join ", " contexts +:+ ". The captions should be fun, engaging, and include relevant, popular hashtags and emojis."].

(** [result.captions] on a value of [JSON.parse]: reading a property of
    [null] throws, a primitive or an array has no such property. *)
Definition captionsProperty (parsed : JsValue) : result (option JsValue) :=
  match parsed with
  | JNull => Throw (JsError ExternalError "TypeError")
  | JObject fields => Ok (JsValues.field "captions" fields)
  | _ => Ok None
  end.

(** The [try] block of [generateCaptions]. What it throws is caught by
    [captionsOf], which reads none of the messages. *)
Definition readCaptions (rt : Runtime) (response : GenerateContentResponse)
  : result (list JsValue) :=
  match response_text response with
  | None => Throw (JsError ExternalError "TypeError")
  | Some text =>
      let jsonText := Js.trim text in
      match JSON_parse rt jsonText with
      | None => Throw (JsError ExternalError "SyntaxError")
      | Some parsed =>
          captions ← captionsProperty parsed;
          match captions with
          | Some (JArray elements) => Ok elements (* truthy, and an array *)
          | _ => Throw (JsError CaptionFormatError
                          "Invalid JSON structure in caption response.")
          end
      end
  end.

(** The [try] block with its [catch]. *)
Definition captionsOf (rt : Runtime) (response : GenerateContentResponse)
  : list JsValue :=
  match readCaptions rt response with
  | Ok captions => captions
  | Throw _ => FALLBACK_CAPTIONS
  end.

(** [generateCaptions]. *)
Definition generateCaptions
    (rt : Runtime) (clothingPrompt : string) (contexts : list string)
  : Remote (list JsValue) :=
  response ← send rt 0 (JsonRequest TEXT_MODEL (captionsPrompt clothingPrompt contexts));
  mret (captionsOf rt response).

Definition refinePrompt (refinementPrompt : string) : string :=
  Text.join Js.nl
    ["You are an expert photo editor. The user wants to refine the person in this image.";
     "User's instruction: " +:+ Js.dquote +:+ refinementPrompt +:+ Js.dquote;
     EmptyString;
     "Your task is to subtly adjust the person in the image to match the user's instruction. The change should be natural and realistic.";
     "IMPORTANT: Keep everything else in the image (clothing, background, lighting) exactly the same. Only modify the person as requested."].

(** [refineImage]. *)
Definition refineImage
    (rt : Runtime) (sourceImage : File) (refinementPrompt : string)
  : Remote string :=
  sourceImagePart ← lift (fileToPart rt sourceImage);
  response ← send rt 0 (PartsRequest IMAGE_MODEL
                          [sourceImagePart; textPart (refinePrompt refinementPrompt)]);
  lift (handleApiResponse response ("refinement: " +:+ refinementPrompt)).

End Service.

(** ** The application state ([App.tsx]) *)

(** The generated images, a slot being empty where an index past the end
    was assigned, and the captions as the service returned them. *)
Record VariationResults : Set := mkResults {
  images : list (option string);
  captions : list JsValue
}.

Record RefinementState : Set := mkRefinement {
  isOpen : bool;
  imageIndex : option nat;
  imageSrc : option string;
  caption : option JsValue
}.

(** One field for each [useState] of the component. *)
Record AppState : Set := mkApp {
  appStarted : bool;
  history : list File;
  historyIndex : Z;
  isLoading : bool;
  error : option string;
  displayHotspot : option Point;
  isComparing : bool;
  clothingItems : list ClothingItem;
  activeClothingItemId : option Z;
  variationResults : option VariationResults;
  loadingMessage : string;
  isOutfitApplied : bool;
  isRefining : bool;
  refinementState : RefinementState
}.

(** The state setters. A handler reads the state it was created in and
    calls setters; the state after the handler is the state it read with
    the calls applied. A handler that awaits the remote model is taken as
    one transition, from the state it started in to the state after its
    last setter: what the user does while a request is pending is not
    part of the model. *)

Definition setAppStarted (v : bool) (s : AppState) : AppState :=
  mkApp v (history s) (historyIndex s) (isLoading s) (error s) (displayHotspot s) (isComparing s) (clothingItems s) (activeClothingItemId s) (variationResults s) (loadingMessage s) (isOutfitApplied s) (isRefining s) (refinementState s).

Definition setHistory (v : list File) (s : AppState) : AppState :=
  mkApp (appStarted s) v (historyIndex s) (isLoading s) (error s) (displayHotspot s) (isComparing s) (clothingItems s) (activeClothingItemId s) (variationResults s) (loadingMessage s) (isOutfitApplied s) (isRefining s) (refinementState s).

Definition setHistoryIndex (v : Z) (s : AppState) : AppState :=
  mkApp (appStarted s) (history s) v (isLoading s) (error s) (displayHotspot s) (isComparing s) (clothingItems s) (activeClothingItemId s) (variationResults s) (loadingMessage s) (isOutfitApplied s) (isRefining s) (refinementState s).

Definition setIsLoading (v : bool) (s : AppState) : AppState :=
  mkApp (appStarted s) (history s) (historyIndex s) v (error s) (displayHotspot s) (isComparing s) (clothingItems s) (activeClothingItemId s) (variationResults s) (loadingMessage s) (isOutfitApplied s) (isRefining s) (refinementState s).

Definition setError (v : option string) (s : AppState) : AppState :=
  mkApp (appStarted s) (history s) (historyIndex s) (isLoading s) v (displayHotspot s) (isComparing s) (clothingItems s) (activeClothingItemId s) (variationResults s) (loadingMessage s) (isOutfitApplied s) (isRefining s) (refinementState s).

Definition setDisplayHotspot (v : option Point) (s : AppState) : AppState :=
  mkApp (appStarted s) (history s) (historyIndex s) (isLoading s) (error s) v (isComparing s) (clothingItems s) (activeClothingItemId s) (variationResults s) (loadingMessage s) (isOutfitApplied s) (isRefining s) (refinementState s).

Definition setIsComparing (v : bool) (s : AppState) : AppState :=
  mkApp (appStarted s) (history s) (historyIndex s) (isLoading s) (error s) (displayHotspot s) v (clothingItems s) (activeClothingItemId s) (variationResults s) (loadingMessage s) (isOutfitApplied s) (isRefining s) (refinementState s).

Definition setClothingItems (v : list ClothingItem) (s : AppState) : AppState :=
  mkApp (appStarted s) (history s) (historyIndex s) (isLoading s) (error s) (displayHotspot s) (isComparing s) v (activeClothingItemId s) (variationResults s) (loadingMessage s) (isOutfitApplied s) (isRefining s) (refinementState s).

Definition setActiveClothingItemId (v : option Z) (s : AppState) : AppState :=
  mkApp (appStarted s) (history s) (historyIndex s) (isLoading s) (error s) (displayHotspot s) (isComparing s) (clothingItems s) v (variationResults s) (loadingMessage s) (isOutfitApplied s) (isRefining s) (refinementState s).

Definition setVariationResults (v : option VariationResults) (s : AppState) : AppState :=
  mkApp (appStarted s) (history s) (historyIndex s) (isLoading s) (error s) (displayHotspot s) (isComparing s) (clothingItems s) (activeClothingItemId s) v (loadingMessage s) (isOutfitApplied s) (isRefining s) (refinementState s).

Definition setLoadingMessage (v : string) (s : AppState) : AppState :=
  mkApp (appStarted s) (history s) (historyIndex s) (isLoading s) (error s) (displayHotspot s) (isComparing s) (clothingItems s) (activeClothingItemId s) (variationResults s) v (isOutfitApplied s) (isRefining s) (refinementState s).

Definition setIsOutfitApplied (v : bool) (s : AppState) : AppState :=
  mkApp (appStarted s) (history s) (historyIndex s) (isLoading s) (error s) (displayHotspot s) (isComparing s) (clothingItems s) (activeClothingItemId s) (variationResults s) (loadingMessage s) v (isRefining s) (refinementState s).

Definition setIsRefining (v : bool) (s : AppState) : AppState :=
  mkApp (appStarted s) (history s) (historyIndex s) (isLoading s) (error s) (displayHotspot s) (isComparing s) (clothingItems s) (activeClothingItemId s) (variationResults s) (loadingMessage s) (isOutfitApplied s) v (refinementState s).

Definition setRefinementState (v : RefinementState) (s : AppState) : AppState :=
  mkApp (appStarted s) (history s) (historyIndex s) (isLoading s) (error s) (displayHotspot s) (isComparing s) (clothingItems s) (activeClothingItemId s) (variationResults s) (loadingMessage s) (isOutfitApplied s) (isRefining s) v.

Module App.

Definition DEFAULT_LOADING_MESSAGE : string := "AI is working its magic...".

Definition closedRefinement : RefinementState := mkRefinement false None None None.

(** The state of the first render. *)
Definition initial : AppState :=
  mkApp false [] (-1) false None None false [] None None
        DEFAULT_LOADING_MESSAGE false false closedRefinement.

(** [dataURLtoFile]. *)
Definition dataURLtoFile (rt : Runtime) (dataurl : string) (filename : string)
  : result File :=
  match Text.split "," dataurl with
  | arr0 :: arr1 :: _ =>
      match Text.mime_match arr0 with
      | Some mime =>
          if Js.truthy_string mime then
            bstr ← await (atob rt arr1);
            Ok (mkFile filename (Js.File_type mime) bstr)
          else Throw (JsError DataUrlError "Could not parse MIME type from data URL")
      | None => Throw (JsError DataUrlError "Could not parse MIME type from data URL")
      end
  | _ => Throw (JsError DataUrlError "Invalid data URL")
  end.

(** [dataURLtoFile] on an array element, which may be [undefined]:
    [dataurl.split] then throws the [TypeError] of the engine. *)
Definition dataURLtoFile_opt (rt : Runtime) (dataurl : option string) (filename : string)
  : result File :=
  match dataurl with
  | Some url => dataURLtoFile rt url filename
  | None => Throw (JsError ExternalError (TypeError_message rt "split"))
  end.

(** [history[historyIndex] ?? null] and [history[0] ?? null]. *)
Definition currentImage (s : AppState) : option File :=
  Js.index (history s) (historyIndex s).

Definition originalImage (s : AppState) : option File :=
  Js.index (history s) 0.

Definition canUndo (s : AppState) : bool := 0 <? historyIndex s.

Definition canRedo (s : AppState) : bool :=
  historyIndex s <? Z.of_nat (length (history s)) - 1.

Definition addImageToHistory (newImageFile : File) (s : AppState) : AppState :=
  let newHistory := Js.slice0 (history s) (historyIndex s + 1) ++ [newImageFile] in
  setHistoryIndex (Z.of_nat (length newHistory) - 1) (setHistory newHistory s).

Definition handleImageUpload (file : File) (s : AppState) : AppState :=
  setIsOutfitApplied false
    (setVariationResults None
       (setDisplayHotspot None
          (setActiveClothingItemId None
             (setClothingItems []
                (setHistoryIndex 0
                   (setHistory [file]
                      (setError None s))))))).

Definition handleLandingPageUpload (file : File) (s : AppState) : AppState :=
  setAppStarted true (handleImageUpload file s).

(** [finally] of the handlers that show the spinner. *)
Definition doneLoading (s : AppState) : AppState :=
  setLoadingMessage DEFAULT_LOADING_MESSAGE (setIsLoading false s).

(** [Failed to ... ${errorMessage}] of a [catch] block. *)
Definition failure (what : string) (err : Thrown) : option string :=
  Some (what +:+ message_or err "An unknown error occurred.").

(** [items.filter(item => (item.value && item.hotspot))]. *)
Definition placed (item : ClothingItem) : bool :=
  truthy_value (value item) && bool_decide (is_Some (hotspot item)).

Definition handleApplyOutfit (rt : Runtime) (now : Z) (items : list ClothingItem)
    (s : AppState) : AppState * list Request :=
  match currentImage s with
  | None => (setError (Some "No image loaded to edit.") s, [])
  | Some image =>
      let itemsToApply := filter (λ item, placed item) items in
      if Nat.eqb (length itemsToApply) 0 then
        (setError (Some "Please add and place at least one clothing item to apply.") s, [])
      else
        let '(sent, editedImageUrl) := Service.generateLayeredOutfit rt image itemsToApply in
        let outcome :=
          url ← editedImageUrl;
          dataURLtoFile rt url ("outfit-" +:+ pretty now +:+ ".png") in
        match outcome with
        | Ok newImageFile =>
            (doneLoading
               (setActiveClothingItemId None
                  (setDisplayHotspot None
                     (setIsOutfitApplied true
                        (addImageToHistory newImageFile (setError None s))))),
             sent)
        | Throw err =>
            (doneLoading (setError (failure "Failed to apply the outfit. " err) s), sent)
        end
  end.

Definition handleConfirmOutfit (s : AppState) : AppState :=
  setIsOutfitApplied false (setClothingItems [] s).

(** The argument of [handleGenerate]: context strings or a background. *)
Inductive GenerateSource : Set :=
  | Contexts (contexts : list string)
  | Background (image : File).

(** [typeof i.value === 'string' ? i.value : i.type]. *)
Definition itemLabel (i : ClothingItem) : string :=
  match value i with
  | Some (TextValue t) => t
  | _ => category_name (type i)
  end.

Definition handleGenerate (rt : Runtime) (source : GenerateSource) (s : AppState)
  : AppState * list Request :=
  match currentImage s with
  | None => (setError (Some "No image available to generate variations.") s, [])
  | Some image =>
      let clothingPrompt := Text.join ", " (itemLabel <$> clothingItems s) in
      let '(sent, outcome) :=
        match source with
        | Contexts contexts =>
            images ← Service.generateVariations rt image contexts;
            captions ← Service.generateCaptions rt clothingPrompt contexts;
            mret (mkResults (Some <$> images) captions)
        | Background background =>
            images ← Service.generateSceneFromImage rt image background;
            captions ← Service.generateCaptions rt clothingPrompt
                         ["the user-provided background"];
            mret (mkResults (Some <$> images) captions)
        end in
      match outcome with
      | Ok results =>
          (doneLoading (setVariationResults (Some results) (setError None s)), sent)
      | Throw err =>
          (doneLoading (setError (failure "Failed to generate variations. " err) s), sent)
      end
  end.

Definition handleGenerateMultiAngleViews (rt : Runtime) (s : AppState) : AppState :=
  match currentImage s with
  | None => setError (Some "No image available to generate views.") s
  | Some image =>
      match await (generateMultiAngleViews rt image) with
      | Ok (images, captions) =>
          doneLoading
            (setVariationResults (Some (mkResults (Some <$> images) captions))
               (setError None s))
      | Throw err =>
          doneLoading (setError (failure "Failed to generate multi-angle views. " err) s)
      end
  end.

Definition ANIME_CAPTIONS : list JsValue :=
  [JString "Here is your anime transformation!";
   JString "Welcome to the 2D world! ✨";
   JString "Character unlocked. #AnimeMe";
   JString "Just dropped into my favorite anime."].

Definition handleGenerateAnime (rt : Runtime) (panelImage : File) (posePrompt : string)
    (s : AppState) : AppState * list Request :=
  match currentImage s with
  | None => (setError (Some "No image available to transform.") s, [])
  | Some image =>
      let '(sent, outcome) :=
        Service.generateAnimeTransformation rt image panelImage posePrompt in
      match outcome with
      | Ok resultUrl =>
          (doneLoading
             (setVariationResults (Some (mkResults [Some resultUrl] ANIME_CAPTIONS))
                (setError None s)),
           sent)
      | Throw err =>
          (doneLoading
             (setError (failure "Failed to generate anime transformation. " err) s),
           sent)
      end
  end.

(** [variationResults.captions[0] || "Here's one of the looks!"]. *)
Definition firstCaption (captions : list JsValue) : JsValue :=
  match head captions with
  | Some c => if JsValues.truthy c then c else JString "Here's one of the looks!"
  | None => JString "Here's one of the looks!"
  end.

Definition handleOpenRefinementModal (imageIndex : nat) (s : AppState) : AppState :=
  match variationResults s with
  | Some results =>
      setRefinementState
        (mkRefinement true (Some imageIndex)
           (mjoin (images results !! imageIndex))
           (Some (firstCaption (captions results))))
        s
  | None => s
  end.

Definition handleCloseRefinementModal (s : AppState) : AppState :=
  if isRefining s then s else setRefinementState closedRefinement s.

Definition truthy_caption (c : option JsValue) : bool :=
  match c with
  | Some v => JsValues.truthy v
  | None => false
  end.

(** The first two statements of the [try] block of [handleRefineRequest]:
    the targeted image as a file, then the refinement of that file. *)
Definition refineTarget (rt : Runtime) (prompt : string) (index : nat) (s : AppState)
  : Service.Remote string :=
  imageFile ← Service.lift
                (dataURLtoFile_opt rt (imageSrc (refinementState s))
                   ("refine-target-" +:+ pretty index +:+ ".png"));
  Service.refineImage rt imageFile prompt.

Definition handleRefineRequest (rt : Runtime) (prompt : string) (s : AppState)
  : AppState * list Request :=
  match imageIndex (refinementState s), variationResults s with
  | Some index, Some results =>
      if negb (Js.truthy_opt_string (imageSrc (refinementState s)))
         || negb (truthy_caption (caption (refinementState s)))
      then (setError (Some "Cannot perform refinement, required data is missing.") s, [])
      else if negb (Js.truthy_string (Js.trim prompt))
      then (setError (Some "Please provide instructions for the refinement.") s, [])
      else
        let '(sent, outcome) := refineTarget rt prompt index s in
        match outcome with
        | Ok refinedImageUrl =>
            let newImages := Js.assign (images results) index refinedImageUrl in
            (setIsRefining false
               (handleCloseRefinementModal
                  (setVariationResults (Some (mkResults newImages (captions results)))
                     (setError None s))),
             sent)
        | Throw err =>
            (setIsRefining false
               (setError (failure "Failed to refine the image. " err) s),
             sent)
        end
  | _, _ => (setError (Some "Cannot perform refinement, required data is missing.") s, [])
  end.

Definition handleSelectVariation (rt : Runtime) (now : Z) (imageIndex : nat)
    (s : AppState) : AppState :=
  match variationResults s with
  | None => s
  | Some results =>
      let selectedImageUrl := mjoin (images results !! imageIndex) in
      match dataURLtoFile_opt rt selectedImageUrl
              ("variation-" +:+ pretty now +:+ ".png") with
      | Ok newImageFile =>
          doneLoading
            (setIsOutfitApplied false
               (setDisplayHotspot None
                  (setActiveClothingItemId None
                     (setClothingItems []
                        (setVariationResults None
                           (addImageToHistory newImageFile s))))))
      | Throw err =>
          doneLoading
            (setError (failure "Failed to process the selected image. " err) s)
      end
  end.

Definition handleDiscardVariations (s : AppState) : AppState :=
  setVariationResults None s.

Definition handleUndo (s : AppState) : AppState :=
  if canUndo s then
    setIsOutfitApplied false
      (setDisplayHotspot None (setHistoryIndex (historyIndex s - 1) s))
  else s.

Definition handleRedo (s : AppState) : AppState :=
  if canRedo s then
    setIsOutfitApplied false
      (setDisplayHotspot None (setHistoryIndex (historyIndex s + 1) s))
  else s.

Definition handleReset (s : AppState) : AppState :=
  if Nat.ltb 0 (length (history s)) then
    setIsOutfitApplied false
      (setDisplayHotspot None (setError None (setHistoryIndex 0 s)))
  else s.

Definition handleUploadNew (s : AppState) : AppState :=
  setAppStarted false
    (setIsOutfitApplied false
       (setVariationResults None
          (setDisplayHotspot None
             (setActiveClothingItemId None
                (setClothingItems []
                   (setError None
                      (setHistoryIndex (-1)
                         (setHistory [] s)))))))).

(** What [handleImageClick] reads from the event and the image element. *)
Record ClickEvent : Set := mkClick {
  clientX : float;
  clientY : float;
  rect_left : float;
  rect_top : float;
  naturalWidth : float;
  naturalHeight : float;
  clientWidth : float;
  clientHeight : float
}.

(** The point stored for a click, in the pixels of the full image. *)
Definition clickPoint (e : ClickEvent) : Point :=
  let offsetX := (clientX e - rect_left e)%float in
  let offsetY := (clientY e - rect_top e)%float in
  let scaleX := (naturalWidth e / clientWidth e)%float in
  let scaleY := (naturalHeight e / clientHeight e)%float in
  let originalX := Js.Math_round (offsetX * scaleX)%float in
  let originalY := Js.Math_round (offsetY * scaleY)%float in
  mkPoint originalX originalY.

Definition setHotspot (h : Point) (item : ClothingItem) : ClothingItem :=
  mkItem (id item) (type item) (source item) (value item) (Some h).

Definition handleImageClick (e : ClickEvent) (s : AppState) : AppState :=
  match activeClothingItemId s with
  | None => s
  | Some active =>
      let offsetX := (clientX e - rect_left e)%float in
      let offsetY := (clientY e - rect_top e)%float in
      setActiveClothingItemId None
        (setClothingItems
           ((λ item, if Z.eqb (id item) active then setHotspot (clickPoint e) item else item)
              <$> clothingItems s)
           (setDisplayHotspot (Some (mkPoint offsetX offsetY)) s))
  end.

(** *** The outfit panel ([components/TryOnPanel.tsx])

    The panel edits [clothingItems] and [activeClothingItemId] through the
    setters it receives. Its own menu flag is display state and is left
    out. *)

(** [Partial<ClothingItem>]: the fields an update carries. *)
Record ItemUpdate : Set := mkUpdate {
  new_id : option Z;
  new_type : option ClothingCategory;
  new_source : option ItemSource;
  new_value : option (option ItemValue);
  new_hotspot : option (option Point)
}.

(** [{ ...item, ...update }]. *)
Definition updated (update : ItemUpdate) (item : ClothingItem) : ClothingItem :=
  mkItem (default (id item) (new_id update))
         (default (type item) (new_type update))
         (default (source item) (new_source update))
         (default (value item) (new_value update))
         (default (hotspot item) (new_hotspot update)).

Definition handleAddItem (now : Z) (type : ClothingCategory) (s : AppState) : AppState :=
  setClothingItems (clothingItems s ++ [mkItem now type SourceUpload None None]) s.

Definition handleUpdateItem (target : Z) (update : ItemUpdate) (s : AppState) : AppState :=
  setClothingItems
    ((λ item, if Z.eqb (id item) target then updated update item else item)
       <$> clothingItems s)
    s.

Definition handleDeleteItem (target : Z) (s : AppState) : AppState :=
  let s' := setClothingItems
              (filter (λ item, id item ≠ target) (clothingItems s)) s in
  if bool_decide (activeClothingItemId s = Some target)
  then setActiveClothingItemId None s'
  else s'.

Definition handlePlaceItem (target : Z) (s : AppState) : AppState :=
  setActiveClothingItemId (Some target) s.

Definition isApplyDisabled (s : AppState) : bool :=
  isLoading s
  || Nat.eqb (length (clothingItems s)) 0
  || existsb (λ item, negb (truthy_value (value item))
                      || negb (bool_decide (is_Some (hotspot item))))
       (clothingItems s).

(** *** The application as a transition system *)

(** A user action that reaches a handler, with what the handler receives. *)
Inductive Action : Type :=
  | LandingPageUpload (file : File)
  | ImageUpload (file : File)
  | ApplyOutfit (now : Z)
  | ConfirmOutfit
  | Generate (source : GenerateSource)
  | GenerateMultiAngleViews
  | GenerateAnime (panelImage : File) (posePrompt : string)
  | OpenRefinementModal (imageIndex : nat)
  | CloseRefinementModal
  | RefineRequest (prompt : string)
  | SelectVariation (now : Z) (imageIndex : nat)
  | DiscardVariations
  | Undo
  | Redo
  | Reset
  | UploadNew
  | ImageClick (e : ClickEvent)
  | AddItem (now : Z) (type : ClothingCategory)
  | UpdateItem (target : Z) (update : ItemUpdate)
  | DeleteItem (target : Z)
  | PlaceItem (target : Z)
  | Compare (pressed : bool)
  | DismissError.

(** The state after an action, the environment answering as [rt] does. *)
Definition step (rt : Runtime) (a : Action) (s : AppState) : AppState :=
  match a with
  | LandingPageUpload file => handleLandingPageUpload file s
  | ImageUpload file => handleImageUpload file s
  | ApplyOutfit now => fst (handleApplyOutfit rt now (clothingItems s) s)
  | ConfirmOutfit => handleConfirmOutfit s
  | Generate source => fst (handleGenerate rt source s)
  | GenerateMultiAngleViews => handleGenerateMultiAngleViews rt s
  | GenerateAnime panelImage posePrompt =>
      fst (handleGenerateAnime rt panelImage posePrompt s)
  | OpenRefinementModal imageIndex => handleOpenRefinementModal imageIndex s
  | CloseRefinementModal => handleCloseRefinementModal s
  | RefineRequest prompt => fst (handleRefineRequest rt prompt s)
  | SelectVariation now imageIndex => handleSelectVariation rt now imageIndex s
  | DiscardVariations => handleDiscardVariations s
  | Undo => handleUndo s
  | Redo => handleRedo s
  | Reset => handleReset s
  | UploadNew => handleUploadNew s
  | ImageClick e => handleImageClick e s
  | AddItem now type => handleAddItem now type s
  | UpdateItem target update => handleUpdateItem target update s
  | DeleteItem target => handleDeleteItem target s
  | PlaceItem target => handlePlaceItem target s
  | Compare pressed => setIsComparing pressed s
  | DismissError => setError None s
  end.

(** A session: the actions in order, each with the environment it met. *)
Definition run (session : list (Runtime * Action)) (s : AppState) : AppState :=
  foldl (λ s ra, step ra.1 ra.2 s) s session.

(** *** The edit history on its own *)

(** The operations of the history: a first upload, a new version, the two
    cursor moves, back to the original, and starting over. *)
Inductive HistoryOp : Set :=
  | HUpload (file : File)
  | HAppend (file : File)
  | HUndo
  | HRedo
  | HReset
  | HUploadNew.

Definition applyOp (op : HistoryOp) (s : AppState) : AppState :=
  match op with
  | HUpload file => handleImageUpload file s
  | HAppend file => addImageToHistory file s
  | HUndo => handleUndo s
  | HRedo => handleRedo s
  | HReset => handleReset s
  | HUploadNew => handleUploadNew s
  end.

Definition applyOps (ops : list HistoryOp) (s : AppState) : AppState :=
  foldl (λ s op, applyOp op s) s ops.

End App.

(** ** Notions used to state the properties

    These are not functions of the source: they name what the statements
    below speak about. *)

Module Spec.

(** The items for which the loop adds an instruction: those with a
    placement point and a value of the kind their source mode asks for, a
    file for an upload, a text that is not blank for a description. *)
Definition contributes (item : ClothingItem) : bool :=
  match hotspot item with
  | None => false
  | Some _ =>
      match source item, value item with
      | SourceUpload, Some (FileValue _) => true
      | SourcePrompt, Some (TextValue t) => Js.truthy_string (Js.trim t)
      | _, _ => false
      end
  end.

(** An instruction is that of an item when it names the category of the
    item and ends with its placement point. *)
Definition describes (rt : Runtime) (item : ClothingItem) (instruction : string) : Prop :=
  ∃ h middle,
    hotspot item = Some h
    ∧ instruction = "- A " +:+ category_name (type item) +:+ middle +:+ Service.placement rt h.

(** A parsed value has a captions array when it is an object whose
    [captions] field is an array. *)
Definition hasCaptionsArray (parsed : JsValue) : bool :=
  match parsed with
  | JObject fields =>
      match JsValues.field "captions" fields with
      | Some (JArray _) => true
      | _ => false
      end
  | _ => false
  end.

(** The cursor is an index of the sequence, or -1 when there is none. *)
Definition cursor_valid (s : AppState) : Prop :=
  (history s = [] ∧ historyIndex s = -1)
  ∨ (history s ≠ [] ∧ 0 ≤ historyIndex s ≤ Z.of_nat (length (history s)) - 1).

(** The flag is raised only by a successful apply, which leaves the cursor
    on a new entry after the one it edited. *)
Definition applied_after_original (s : AppState) : Prop :=
  isOutfitApplied s = true → 0 < historyIndex s.

(** The refinement is attempted when the dialog has an image and a caption
    and the instruction is not blank. *)
Definition refinementReady (text : string) (s : AppState) : bool :=
  Js.truthy_opt_string (imageSrc (refinementState s))
  && App.truthy_caption (caption (refinementState s))
  && Js.truthy_string (Js.trim text).

(** [a[i]] on an array whose slots may be empty: an empty slot and an
    index past the end both read as [undefined]. *)
Definition read {A} (a : list (option A)) (i : nat) : option A := mjoin (a !! i).

(** The first candidate of a response, and the parts of a candidate: no
    part when there is no candidate, no content or no list of parts. *)
Definition firstCandidateOf (response : GenerateContentResponse) : option Candidate :=
  match candidates response with
  | Some (first :: _) => Some first
  | Some [] | None => None
  end.

Definition partsOfCandidate (candidate : option Candidate) : list Part :=
  match candidate with
  | Some c =>
      match content c with
      | Some ct =>
          match parts ct with
          | Some ps => ps
          | None => []
          end
      | None => []
      end
  | None => []
  end.

(** A response without a block reason, or with an empty one. *)
Definition unblocked (response : GenerateContentResponse) : Prop :=
  match promptFeedback response with
  | None => True
  | Some feedback =>
      blockReason feedback = None ∨ blockReason feedback = Some EmptyString
  end.

(** A response that carries an image payload, in a part of any of its
    candidates. *)
Definition carriesImage (response : GenerateContentResponse) : Prop :=
  ∃ cs c ct ps p blob,
    candidates response = Some cs ∧ c ∈ cs
    ∧ content c = Some ct ∧ parts ct = Some ps ∧ p ∈ ps
    ∧ inlineData p = Some blob.

End Spec.

(** ** Concrete inputs, for the examples *)

Module Sample.

Definition A : File := mkFile "A.png" "image/png" "QQ==".
Definition B : File := mkFile "B.png" "image/png" "Qg==".
Definition C : File := mkFile "C.png" "image/png" "Qw==".
Definition X : File := mkFile "X.png" "image/png" "WA==".

(** A response that carries one image. *)
Definition imageResponse (payload : string) : GenerateContentResponse :=
  mkResponse None
    (Some [mkCandidate
             (Some (mkContent (Some [mkPart (Some (mkBlob (Some "image/png")
                                                     (Some payload))) None])))
             (Some "STOP")])
    None.

(** An environment in which every call succeeds: files are read as data
    URLs of their bytes, base64 text is kept as it is, the model answers
    every request with an image, numbers are not rendered and the captions
    never parse. *)
Definition rt_ok : Runtime :=
  mkRuntime
    (λ _, Fulfilled "PNG")
    (λ f, Fulfilled ("data:" +:+ file_type f +:+ ";base64," +:+ file_bytes f))
    (λ s, Fulfilled s)
    (λ i _, Fulfilled (imageResponse ("IMG" +:+ pretty i)))
    (λ rejected, default 0%nat (head rejected))
    (λ _, None)
    (λ _, "n")
    (λ _, Rejected None)
    (λ property, "Cannot read properties of undefined (reading '" +:+ property +:+ "')").

(** As [rt_ok], but the model rejects the request at position 1. *)
Definition rt_second_fails : Runtime :=
  mkRuntime
    (renderPNG rt_ok) (readAsDataURL rt_ok) (atob rt_ok)
    (λ i request, if Nat.eqb i 1 then Rejected (Some "503")
                  else generateContent rt_ok i request)
    (firstRejected rt_ok) (JSON_parse rt_ok) (Number_toString rt_ok)
    (generateMultiAngleViews rt_ok) (TypeError_message rt_ok).

(** The history [A, B, C] with the cursor on C. *)
Definition history_ABC : AppState :=
  setHistoryIndex 2 (setHistory [A; B; C] App.initial).

(** A click at the offset (150, 200) of an image of 1200 by 1600 pixels
    shown at 300 by 400. *)
Definition click_150_200 : App.ClickEvent :=
  App.mkClick 150 200 0 0 1200 1600 300 400.

(** A click at the offset (21, 30) of the same image shown at 224 by 299. *)
Definition click_21_30 : App.ClickEvent :=
  App.mkClick 21 30 0 0 1200 1600 224 299.

(** A session: upload, then one described item waiting for its click. *)
Definition placing_item : list (Runtime * App.Action) :=
  [(rt_ok, App.LandingPageUpload A);
   (rt_ok, App.AddItem 1 Top);
   (rt_ok, App.UpdateItem 1 (App.mkUpdate None None (Some SourcePrompt) (Some None) None));
   (rt_ok, App.UpdateItem 1
             (App.mkUpdate None None None (Some (Some (TextValue "a red shirt"))) None));
   (rt_ok, App.PlaceItem 1)].

(** The session continued: the click, the outfit applied, one scene
    generated. *)
Definition outfit_then_scene : list (Runtime * App.Action) :=
  placing_item ++
  [(rt_ok, App.ImageClick click_150_200);
   (rt_ok, App.ApplyOutfit 1700000000000);
   (rt_ok, App.Generate (App.Contexts ["a beach at sunset"]))].

(** As [rt_ok], but the model rejects every request. *)
Definition rt_down : Runtime :=
  mkRuntime
    (renderPNG rt_ok) (readAsDataURL rt_ok) (atob rt_ok)
    (λ _ _, Rejected (Some "503"))
    (firstRejected rt_ok) (JSON_parse rt_ok) (Number_toString rt_ok)
    (generateMultiAngleViews rt_ok) (TypeError_message rt_ok).

(** As [rt_ok], but the model answers with another image. *)
Definition rt_refined : Runtime :=
  mkRuntime
    (renderPNG rt_ok) (readAsDataURL rt_ok) (atob rt_ok)
    (λ _ _, Fulfilled (imageResponse "REFINED"))
    (firstRejected rt_ok) (JSON_parse rt_ok) (Number_toString rt_ok)
    (generateMultiAngleViews rt_ok) (TypeError_message rt_ok).

(** The session continued: the refinement dialog opened on the image. *)
Definition refining_first : list (Runtime * App.Action) :=
  outfit_then_scene ++ [(rt_ok, App.OpenRefinementModal 0)].

(** Four items: a described one, one whose description is blank, an
    uploaded one, and one that has no placement point. *)
Definition four_items : list ClothingItem :=
  [mkItem 1 Top SourcePrompt (Some (TextValue "a red shirt")) (Some (mkPoint 600 800));
   mkItem 2 Hat SourcePrompt (Some (TextValue "   ")) (Some (mkPoint 600 100));
   mkItem 3 Shoes SourceUpload (Some (FileValue B)) (Some (mkPoint 600 1500));
   mkItem 4 Bottoms SourceUpload (Some (FileValue C)) None].

(** An item with a placement point whose description is three spaces. *)
Definition blank_item : ClothingItem :=
  mkItem 2 Hat SourcePrompt (Some (TextValue "   ")) (Some (mkPoint 600 100)).

(** A session: upload, one item described with three spaces and placed
    with a click, then the outfit applied. *)
Definition blank_outfit : list (Runtime * App.Action) :=
  [(rt_ok, App.LandingPageUpload A);
   (rt_ok, App.AddItem 2 Hat);
   (rt_ok, App.UpdateItem 2 (App.mkUpdate None None (Some SourcePrompt) (Some None) None));
   (rt_ok, App.UpdateItem 2
             (App.mkUpdate None None None (Some (Some (TextValue "   "))) None));
   (rt_ok, App.PlaceItem 2);
   (rt_ok, App.ImageClick (App.mkClick 150 25 0 0 1200 1600 300 400));
   (rt_ok, App.ApplyOutfit 1700000000000)].

End Sample.

(** ** The panels around the application *)

(** *** The scene panel ([components/ContextPanel.tsx]) *)

Module ContextPanel.

(** ['prompt' | 'upload']. *)
Inductive GenerationMode : Set :=
  | ModePrompt
  | ModeUpload.

Definition DEFAULT_CONTEXTS : list string :=
  ["a vibrant party"; "a modern classroom"; "in front of the Eiffel Tower";
   "a professional conference"; "a serene temple"].

(** The state of the panel that its handlers read. *)
Record PanelState : Set := mkPanel {
  mode : GenerationMode;
  customContexts : string;
  backgroundImage : option File
}.

Definition initial : PanelState := mkPanel ModePrompt EmptyString None.

(** [handleFileChange] and [handleDrop]: the first of the files, if any. *)
Definition handleFileChange (files : list File) (p : PanelState) : PanelState :=
  match files with
  | file :: _ => mkPanel (mode p) (customContexts p) (Some file)
  | [] => p
  end.

(** [addDefaultContext]. *)
Definition addDefaultContext (context : string) (p : PanelState) : PanelState :=
  mkPanel (mode p)
    (if Js.truthy_string (customContexts p)
     then customContexts p +:+ ", " +:+ context
     else context)
    (backgroundImage p).

(** [customContexts.split(',').map(c => c.trim()).filter(c => c.length > 0)]. *)
Definition typedContexts (p : PanelState) : list string :=
  filter (λ c, Js.truthy_string c = true)
    (Js.trim <$> Text.split "," (customContexts p)).

(** [handleGenerateClick]: what the panel passes to [onGenerate]. *)
Definition handleGenerateClick (p : PanelState) : App.GenerateSource :=
  match mode p, backgroundImage p with
  | ModeUpload, Some image => App.Background image
  | _, _ =>
      let contexts := typedContexts p in
      let finalContexts :=
        if Nat.ltb 0 (length contexts) then contexts else DEFAULT_CONTEXTS in
      App.Contexts (Js.slice0 finalContexts 4)
  end.

End ContextPanel.

(** *** The anime panel ([components/AnimePanel.tsx]) *)

Module AnimePanel.

(** The state of the panel that its handlers read. *)
Record PanelState : Set := mkPanel {
  panelImage : option File;
  posePrompt : string
}.

(** [handleGenerateClick]: the arguments of [onGenerate], when it is
    called. *)
Definition handleGenerateClick (p : PanelState) : option (File * string) :=
  match panelImage p with
  | Some image =>
      if Js.truthy_string (posePrompt p) then Some (image, posePrompt p) else None
  | None => None
  end.

Definition isGenerateDisabled (isLoading : bool) (p : PanelState) : bool :=
  isLoading
  || negb (bool_decide (is_Some (panelImage p)))
  || negb (Js.truthy_string (Js.trim (posePrompt p))).

(** A click on the button of the panel, [onGenerate] being
    [handleGenerateAnime]; a disabled button does nothing. *)
Definition generateClicked (rt : Runtime) (p : PanelState) (s : AppState)
  : AppState * list Request :=
  if isGenerateDisabled (isLoading s) p then (s, [])
  else
    match handleGenerateClick p with
    | Some (image, pose) => App.handleGenerateAnime rt image pose s
    | None => (s, [])
    end.

End AnimePanel.

(** *** The refinement dialog ([components/RefinementModal.tsx]) *)

Module RefinementModal.

(** [handleRefineClick]: the argument of [onRefine], when it is called. *)
Definition handleRefineClick (prompt : string) : option string :=
  if Js.truthy_string (Js.trim prompt) then Some (Js.trim prompt) else None.

(** A click on the button of the dialog, [onRefine] being
    [handleRefineRequest]. *)
Definition refineClicked (rt : Runtime) (prompt : string) (s : AppState)
  : AppState * list Request :=
  match handleRefineClick prompt with
  | Some text => App.handleRefineRequest rt text s
  | None => (s, [])
  end.

End RefinementModal.

(** *** The outfit panel and its cards ([components/TryOnPanel.tsx]) *)

Module TryOnPanel.

(** What the user does on the card of an item. *)
Inductive CardEvent : Set :=
  | ModeClicked (mode : ItemSource)
  | FilesChosen (files : list File)
  | TextTyped (text : string)
  | DeleteClicked
  | PlaceClicked.

(** [isDisabled] of a card: [isLoading || isOutfitApplied]. *)
Definition isDisabled (s : AppState) : bool := isLoading s || isOutfitApplied s.

(** The handler an event on the card of [item] reaches. The file input is
    drawn for an uploaded item and the text area for a described one, and
    every control of the card is disabled with it. *)
Definition cardEvent (item : ClothingItem) (ev : CardEvent) (s : AppState) : AppState :=
  if isDisabled s then s
  else
    match ev with
    | ModeClicked mode =>
        App.handleUpdateItem (id item)
          (App.mkUpdate None None (Some mode) (Some None) None) s
    | FilesChosen files =>
        match source item, files with
        | SourceUpload, file :: _ =>
            App.handleUpdateItem (id item)
              (App.mkUpdate None None None (Some (Some (FileValue file))) None) s
        | _, _ => s
        end
    | TextTyped text =>
        match source item with
        | SourcePrompt =>
            App.handleUpdateItem (id item)
              (App.mkUpdate None None None (Some (Some (TextValue text))) None) s
        | SourceUpload => s
        end
    | DeleteClicked => App.handleDeleteItem (id item) s
    | PlaceClicked => App.handlePlaceItem (id item) s
    end.

(** What the user does to compose an outfit: a category of the menu, at
    the time [now] of the clock; an event on the card at a position of the
    list; a click on the image. *)
Inductive PanelAction : Set :=
  | CategoryClicked (now : Z) (category : ClothingCategory)
  | OnCard (position : nat) (ev : CardEvent)
  | ImageClicked (e : App.ClickEvent).

Definition act (a : PanelAction) (s : AppState) : AppState :=
  match a with
  | CategoryClicked now category => App.handleAddItem now category s
  | OnCard position ev =>
      match clothingItems s !! position with
      | Some item => cardEvent item ev s
      | None => s
      end
  | ImageClicked e => App.handleImageClick e s
  end.

Definition compose (actions : list PanelAction) (s : AppState) : AppState :=
  foldl (λ s a, act a s) s actions.

(** The button of the panel: [onApplyOutfit(items)], unless it is disabled. *)
Definition applyClicked (rt : Runtime) (now : Z) (s : AppState) : AppState * list Request :=
  if App.isApplyDisabled s || isOutfitApplied s then (s, [])
  else App.handleApplyOutfit rt now (clothingItems s) s.

End TryOnPanel.

(** *** What the application shows ([App.tsx], [renderContent]) *)

Module View.

Inductive Screen : Set :=
  | LandingScreen
  | ErrorScreen (message : string)
  | ResultsScreen (results : VariationResults)
  | StartScreen
  | EditorScreen (currentImageUrl : string).

(** The state [currentImageUrl] once its effect has run: the object URL
    of the current image, [createObjectURL] being that of the browser, or
    [null] when there is no current image. *)
Definition currentImageUrl (createObjectURL : File → string) (s : AppState)
  : option string :=
  createObjectURL <$> App.currentImage s.

(** [renderContent]: the error, else the results, else the start screen
    when there is no URL of a current image, else the editor. *)
Definition renderContent (currentImageUrl : option string) (s : AppState) : Screen :=
  if Js.truthy_opt_string (error s) then ErrorScreen (Js.show_opt_string (error s))
  else
    match variationResults s with
    | Some results => ResultsScreen results
    | None =>
        if Js.truthy_opt_string currentImageUrl
        then EditorScreen (Js.show_opt_string currentImageUrl)
        else StartScreen
    end.

(** The component: the landing page until the application has started. *)
Definition screen (currentImageUrl : option string) (s : AppState) : Screen :=
  if appStarted s then renderContent currentImageUrl s else LandingScreen.

End View.

(** ** Notions used to state further properties *)

Module Notions.

(** A byte that is none of the comma, the semicolon, the line feed, the
    carriage return and E2 (the first byte of U+2028 and U+2029). *)
Definition plain_byte (c : ascii) : bool :=
  let n := nat_of_ascii c in
  negb (Nat.eqb n 44 || Nat.eqb n 59 || Nat.eqb n 10 || Nat.eqb n 13 || Nat.eqb n 226).

(** A media type as it can stand in a data URL: not empty, of plain bytes. *)
Definition mime_safe (m : string) : bool :=
  Js.truthy_string m && forallb plain_byte (Js.chars m).

(** A character of U+0020..U+007E that is no upper-case letter, and a
    character outside U+0020..U+007E. *)
Definition lower_printable (c : ascii) : bool :=
  let n := nat_of_ascii c in
  Nat.leb 32 n && Nat.leb n 126 && negb (Nat.leb 65 n && Nat.leb n 90).

Definition unprintable (c : ascii) : bool :=
  let n := nat_of_ascii c in Nat.ltb n 32 || Nat.ltb 126 n.

(** A text in which a character does not occur. *)
Definition free_of (c : ascii) (t : string) : bool :=
  forallb (λ c', negb (Ascii.eqb c' c)) (Js.chars t).

(** ["data:<type>;base64,<payload>"]. *)
Definition dataUrl (mime payload : string) : string :=
  "data:" +:+ mime +:+ ";base64," +:+ payload.

(** The actions whose handlers write the history or its cursor. *)
Definition touches_history (a : App.Action) : bool :=
  match a with
  | App.LandingPageUpload _ | App.ImageUpload _ | App.ApplyOutfit _
  | App.SelectVariation _ _ | App.Undo | App.Redo | App.Reset | App.UploadNew => true
  | _ => false
  end.


(** The value of an item is of the kind of its source mode. *)
Definition consistent (item : ClothingItem) : bool :=
  match source item, value item with
  | _, None => true
  | SourceUpload, Some (FileValue _) => true
  | SourcePrompt, Some (TextValue _) => true
  | _, _ => false
  end.

(** The items of a panel have distinct identifiers and values of the
    kind of their modes. *)
Definition matched (items : list ClothingItem) : Prop :=
  NoDup (id <$> items) ∧ Forall (λ item, consistent item = true) items.

(** The usable items whose garment is an uploaded file. *)
Definition uploaded (item : ClothingItem) : bool :=
  Spec.contributes item
  && match source item with SourceUpload => true | SourcePrompt => false end.

(** The instruction of an uploaded item whose image is the garment image
    number [n] of the request. *)
Definition garmentInstruction (rt : Runtime) (n : nat) (item : ClothingItem) (h : Point)
  : string :=
  "- A " +:+ category_name (type item) +:+ " from garment image #" +:+ pretty n
  +:+ Service.placement rt h.

(** No category of the menu is clicked at a time of the clock that is
    already the identifier of an item. *)
Fixpoint fresh (actions : list TryOnPanel.PanelAction) (s : AppState) : bool :=
  match actions with
  | [] => true
  | a :: rest =>
      match a with
      | TryOnPanel.CategoryClicked now _ =>
          forallb (λ item, negb (Z.eqb (id item) now)) (clothingItems s)
      | _ => true
      end
      && fresh rest (TryOnPanel.act a s)
  end.

(** The part of the state that makes up the project, the messages and the
    progress flags left out. *)
Definition project (s : AppState) :=
  (appStarted s, history s, historyIndex s, clothingItems s,
   activeClothingItemId s, variationResults s, isOutfitApplied s,
   displayHotspot s, refinementState s).

End Notions.

(** ** Further concrete inputs *)

Module Scenario.

(** As [Sample.rt_ok], but a captions request is answered with a text
    that parses to an object whose [captions] are the given values. *)
Definition rt_captions (elements : list JsValue) : Runtime :=
  mkRuntime
    (renderPNG Sample.rt_ok) (readAsDataURL Sample.rt_ok) (atob Sample.rt_ok)
    (λ i request,
       match request with
       | JsonRequest _ _ => Fulfilled (mkResponse None None (Some " {...} "))
       | PartsRequest _ _ => generateContent Sample.rt_ok i request
       end)
    (firstRejected Sample.rt_ok)
    (λ _, Some (JObject [("captions", JArray elements)]))
    (Number_toString Sample.rt_ok)
    (generateMultiAngleViews Sample.rt_ok) (TypeError_message Sample.rt_ok).

(** As [Sample.rt_ok], but a captions request is rejected. *)
Definition rt_no_captions : Runtime :=
  mkRuntime
    (renderPNG Sample.rt_ok) (readAsDataURL Sample.rt_ok) (atob Sample.rt_ok)
    (λ i request,
       match request with
       | JsonRequest _ _ => Rejected (Some "429")
       | PartsRequest _ _ => generateContent Sample.rt_ok i request
       end)
    (firstRejected Sample.rt_ok) (JSON_parse Sample.rt_ok)
    (Number_toString Sample.rt_ok)
    (generateMultiAngleViews Sample.rt_ok) (TypeError_message Sample.rt_ok).

(** As [Sample.rt_ok], but the browser cannot read any file. *)
Definition rt_unreadable : Runtime :=
  mkRuntime
    (renderPNG Sample.rt_ok) (λ _, Rejected None) (atob Sample.rt_ok)
    (generateContent Sample.rt_ok)
    (firstRejected Sample.rt_ok) (JSON_parse Sample.rt_ok)
    (Number_toString Sample.rt_ok)
    (generateMultiAngleViews Sample.rt_ok) (TypeError_message Sample.rt_ok).

(** As [Sample.rt_ok], but the browser cannot read the file [B.png]. *)
Definition rt_garment_unreadable : Runtime :=
  mkRuntime
    (renderPNG Sample.rt_ok)
    (λ f, if String.eqb (file_name f) "B.png" then Rejected (Some "NotReadableError")
          else readAsDataURL Sample.rt_ok f)
    (atob Sample.rt_ok)
    (generateContent Sample.rt_ok)
    (firstRejected Sample.rt_ok) (JSON_parse Sample.rt_ok)
    (Number_toString Sample.rt_ok)
    (generateMultiAngleViews Sample.rt_ok) (TypeError_message Sample.rt_ok).

(** A response whose first candidate has no part and whose second
    candidate carries an image. *)
Definition image_in_second_candidate : GenerateContentResponse :=
  mkResponse None
    (Some [mkCandidate (Some (mkContent (Some []))) (Some "STOP");
           mkCandidate
             (Some (mkContent
                      (Some [mkPart (Some (mkBlob (Some "image/png") (Some "QUJD")))
                               None])))
             (Some "STOP")])
    None.

(** An uploaded image, nothing else done. *)
Definition uploaded : AppState := App.handleLandingPageUpload Sample.A App.initial.

(** Two uploaded garments around a described one, all placed. *)
Definition three_garments : list ClothingItem :=
  [mkItem 1 Top SourceUpload (Some (FileValue Sample.B)) (Some (mkPoint 600 500));
   mkItem 2 Hat SourcePrompt (Some (TextValue "a straw hat")) (Some (mkPoint 600 100));
   mkItem 3 Shoes SourceUpload (Some (FileValue Sample.C)) (Some (mkPoint 600 1500))].

(** Composing an outfit: a hat is added and described, a top is added,
    its file chosen and its place clicked. *)
Definition composing : list TryOnPanel.PanelAction :=
  [TryOnPanel.CategoryClicked 1700000000001 Hat;
   TryOnPanel.OnCard 0 (TryOnPanel.ModeClicked SourcePrompt);
   TryOnPanel.OnCard 0 (TryOnPanel.TextTyped "a straw hat");
   TryOnPanel.CategoryClicked 1700000000002 Top;
   TryOnPanel.OnCard 1 (TryOnPanel.FilesChosen [Sample.B]);
   TryOnPanel.OnCard 1 TryOnPanel.PlaceClicked;
   TryOnPanel.ImageClicked Sample.click_150_200].

End Scenario.

(** * Properties *)

Import App Spec.

(** ** The built-ins on concrete values *)

Section BuiltIns.

Example trim_spaces : Js.trim "  a red  shirt " = "a red  shirt".
Proof. reflexivity. Qed.

Example trim_blank : Js.trim "   " = EmptyString.
Proof. reflexivity. Qed.

Example trim_line_ends :
  Js.trim (Js.nl +:+ String (ascii_of_nat 9) "x" +:+ String (ascii_of_nat 13) Js.nl) = "x".
Proof. reflexivity. Qed.

(** U+00A0 before and U+FEFF after the text. *)
Example trim_wide_spaces :
  Js.trim (String (ascii_of_nat 194) (String (ascii_of_nat 160) "x")
           +:+ String (ascii_of_nat 239) (String (ascii_of_nat 187)
                                            (String (ascii_of_nat 191) EmptyString)))
  = "x".
Proof. reflexivity. Qed.

Example slice0_examples :
  Js.slice0 [1; 2; 3] 2 = [1; 2]
  ∧ Js.slice0 [1; 2; 3] 0 = []
  ∧ Js.slice0 [1; 2; 3] 7 = [1; 2; 3]
  ∧ Js.slice0 [1; 2; 3] (-1) = [1; 2]
  ∧ Js.slice0 [1; 2; 3] (-5) = [].
Proof. repeat split. Qed.

Example assign_examples :
  Js.assign [Some 1; Some 2] 1 9 = [Some 1; Some 9]
  ∧ Js.assign [Some 1; Some 2] 2 9 = [Some 1; Some 2; Some 9]
  ∧ Js.assign [Some 1; Some 2] 4 9 = [Some 1; Some 2; None; None; Some 9].
Proof. repeat split. Qed.

Example Math_round_examples :
  Js.Math_round 2.5 = 3%float
  ∧ Js.Math_round (-2.5) = (-2)%float
  ∧ Js.Math_round 112.5 = 113%float
  ∧ Js.Math_round 0.25 = 0%float
  ∧ Js.Math_round (-0.5) = (-0)%float
  ∧ Js.Math_round 600 = 600%float
  ∧ Js.Math_round infinity = infinity.
Proof. repeat split. Qed.

Example split_examples :
  Text.split "," "data:image/png;base64,QUJD" = ["data:image/png;base64"; "QUJD"]
  ∧ Text.split "," EmptyString = [EmptyString]
  ∧ Text.split "." "photo.final.bmp" = ["photo"; "final"; "bmp"].
Proof. repeat split. Qed.

Example mime_match_examples :
  Text.mime_match "data:image/png;base64" = Some "image/png"
  ∧ Text.mime_match "data:;base64" = Some EmptyString
  ∧ Text.mime_match "data:image/png" = None.
Proof. repeat split. Qed.

Example fileToPart_png :
  Service.fileToPart Sample.rt_ok Sample.A
  = Ok (mkPart (Some (mkBlob (Some "image/png") (Some "QQ=="))) None).
Proof. reflexivity. Qed.

Example convertImageToPNG_name :
  Service.convertImageToPNG Sample.rt_ok (mkFile "photo.final.bmp" "image/bmp" "Qk0=")
  = Ok (mkFile "photo.final.png" "image/png" "PNG").
Proof. reflexivity. Qed.

Example dataURLtoFile_example :
  dataURLtoFile Sample.rt_ok "data:image/png;base64,QUJD" "outfit-1.png"
  = Ok (mkFile "outfit-1.png" "image/png" "QUJD").
Proof. reflexivity. Qed.

End BuiltIns.

(** ** The edit history *)

Section History.

Implicit Types (s : AppState) (file : File).

Lemma slice0_valid_cursor {A} (a : list A) (i : Z) :
  -1 ≤ i < Z.of_nat (length a) →
  Js.slice0 a (i + 1) = take (Z.to_nat (i + 1)) a.
Proof.
  intros Hi. unfold Js.slice0.
  destruct (Z.ltb_spec (i + 1) 0) as [Hneg | _]; [lia |].
  f_equal. lia.
Qed.

(** Whatever the state, a new version leaves the cursor on the last entry
    of a sequence that is not empty. *)
Lemma addImageToHistory_cursor_last file s :
  history (addImageToHistory file s) ≠ []
  ∧ historyIndex (addImageToHistory file s)
    = Z.of_nat (length (history (addImageToHistory file s))) - 1.
Proof.
  unfold addImageToHistory; cbn. split; [| reflexivity].
  intros Happ. apply app_eq_nil in Happ as [_ Hnil]. discriminate.
Qed.

Lemma cursor_valid_initial : cursor_valid initial.
Proof. left. split; reflexivity. Qed.

Lemma cursor_valid_applyOp (op : HistoryOp) s :
  cursor_valid s → cursor_valid (applyOp op s).
Proof.
  intros Hs. destruct op as [file | file | | | |]; cbn [applyOp].
  - right. cbn. split; [discriminate | lia].
  - right. destruct (addImageToHistory_cursor_last file s) as [Hne Hidx].
    split; [exact Hne |]. rewrite Hidx.
    destruct (history (addImageToHistory file s)); [contradiction | cbn; lia].
  - unfold handleUndo, canUndo.
    destruct (Z.ltb_spec 0 (historyIndex s)) as [Hpos | Hle]; [| exact Hs].
    destruct Hs as [[_ Heq] | [Hne Hrange]]; [lia |].
    right. cbn. split; [exact Hne | lia].
  - unfold handleRedo, canRedo.
    destruct (Z.ltb_spec (historyIndex s) (Z.of_nat (length (history s)) - 1))
      as [Hlt | Hge]; [| exact Hs].
    destruct Hs as [[Hnil Heq] | [Hne Hrange]].
    + rewrite Hnil, Heq in Hlt. cbn in Hlt. lia.
    + right. cbn. split; [exact Hne | lia].
  - unfold handleReset.
    destruct (Nat.ltb_spec 0 (length (history s))) as [Hpos | Hzero]; [| exact Hs].
    right. cbn. split; [| lia].
    intros Hnil. rewrite Hnil in Hpos. cbn in Hpos. lia.
  - left. cbn. split; reflexivity.
Qed.

Lemma cursor_valid_applyOps (ops : list HistoryOp) s :
  cursor_valid s → cursor_valid (applyOps ops s).
Proof.
  revert s. induction ops as [| op ops IH]; intros s Hs; [exact Hs |].
  cbn. apply IH, cursor_valid_applyOp, Hs.
Qed.

Lemma cursor_valid_empty_iff s :
  cursor_valid s → (history s = [] ↔ historyIndex s = -1).
Proof.
  intros [[Hnil Heq] | [Hne Hrange]]; split; intros H; try assumption; try contradiction.
  lia.
Qed.

Lemma addImageToHistory_on_valid_cursor file s :
  0 ≤ historyIndex s < Z.of_nat (length (history s)) →
  history (addImageToHistory file s)
  = take (S (Z.to_nat (historyIndex s))) (history s) ++ [file]
  ∧ historyIndex (addImageToHistory file s) = historyIndex s + 1.
Proof.
  intros Hi.
  assert (Hhist : history (addImageToHistory file s)
                  = take (S (Z.to_nat (historyIndex s))) (history s) ++ [file]).
  { unfold addImageToHistory; cbn.
    rewrite slice0_valid_cursor by lia. do 2 f_equal. lia. }
  split; [exact Hhist |].
  destruct (addImageToHistory_cursor_last file s) as [_ Hlast].
  rewrite Hlast, Hhist, length_app, length_take.
  change (length [file]) with 1%nat. lia.
Qed.

Lemma handleUndo_enabled s :
  0 < historyIndex s →
  history (handleUndo s) = history s
  ∧ historyIndex (handleUndo s) = historyIndex s - 1.
Proof.
  intros Hpos. unfold handleUndo, canUndo.
  destruct (Z.ltb_spec 0 (historyIndex s)) as [_ | Hle]; [| lia].
  split; reflexivity.
Qed.

(** C1. With the cursor on an entry of the sequence, a new version gives
    the entries up to the cursor followed by the new one, with the cursor
    on the new last entry; the entries after the old cursor are gone. On
    [A, B, C] with the cursor on C, two undos and then a new version X give
    [A, X] with the cursor at 1. *)
Theorem append_cuts_redo_branch file s :
  0 ≤ historyIndex s < Z.of_nat (length (history s)) →
  let s' := addImageToHistory file s in
  history s' = take (S (Z.to_nat (historyIndex s))) (history s) ++ [file]
  ∧ Z.of_nat (length (history s')) = historyIndex s + 2
  ∧ historyIndex s' = Z.of_nat (length (history s')) - 1
  ∧ historyIndex s' = historyIndex s + 1
  ∧ (∀ A B C X : File,
       history s = [A; B; C] → historyIndex s = 2 →
       let t := addImageToHistory X (handleUndo (handleUndo s)) in
       history t = [A; X] ∧ historyIndex t = 1).
Proof.
  intros Hi s'.
  destruct (addImageToHistory_on_valid_cursor file s Hi) as [Hhist Hcursor].
  destruct (addImageToHistory_cursor_last file s) as [_ Hlast].
  fold s' in Hhist, Hcursor, Hlast.
  split; [exact Hhist |]. split; [lia |]. split; [exact Hlast |].
  split; [exact Hcursor |].
  intros A B C X HABC Hcur t.
  destruct (handleUndo_enabled s) as [Hh1 Hc1]; [lia |].
  destruct (handleUndo_enabled (handleUndo s)) as [Hh2 Hc2]; [lia |].
  destruct (addImageToHistory_on_valid_cursor X (handleUndo (handleUndo s)))
    as [Hh3 Hc3].
  { rewrite Hh2, Hh1, Hc2, Hc1, HABC, Hcur. cbn. lia. }
  fold t in Hh3, Hc3.
  rewrite Hh3, Hc3, Hh2, Hh1, Hc2, Hc1, HABC, Hcur. split; reflexivity.
Qed.

Lemma append_cuts_redo_branch_witness :
  let t := addImageToHistory Sample.X (handleUndo (handleUndo Sample.history_ABC)) in
  history (addImageToHistory Sample.X Sample.history_ABC)
  = [Sample.A; Sample.B; Sample.C; Sample.X]
  ∧ history t = [Sample.A; Sample.X] ∧ historyIndex t = 1.
Proof.
  intros t.
  assert (Hi : 0 ≤ historyIndex Sample.history_ABC
               < Z.of_nat (length (history Sample.history_ABC))) by (cbn; lia).
  destruct (append_cuts_redo_branch Sample.X Sample.history_ABC Hi)
    as (H1 & _ & _ & _ & H5).
  split; [exact H1 |].
  exact (H5 _ _ _ Sample.X eq_refl eq_refl).
Defined.

(** C2. From the empty history, after any sequence of uploads, new
    versions, undos, redos, resets to the original and fresh starts, the
    cursor is -1 exactly when the sequence is empty and an index of the
    sequence otherwise; an undo there moves the cursor back by one when it
    is positive and does nothing otherwise, a redo moves it forward by one
    when it is before the last entry and does nothing otherwise, and
    neither touches the sequence. *)
Theorem cursor_always_valid (ops : list HistoryOp) :
  let s := applyOps ops initial in
  (history s = [] ↔ historyIndex s = -1)
  ∧ (history s ≠ [] → 0 ≤ historyIndex s ≤ Z.of_nat (length (history s)) - 1)
  ∧ historyIndex (handleUndo s)
    = (if 0 <? historyIndex s then historyIndex s - 1 else historyIndex s)
  ∧ historyIndex (handleRedo s)
    = (if historyIndex s <? Z.of_nat (length (history s)) - 1
       then historyIndex s + 1 else historyIndex s)
  ∧ history (handleUndo s) = history s
  ∧ history (handleRedo s) = history s.
Proof.
  intros s.
  assert (Hv : cursor_valid s) by apply cursor_valid_applyOps, cursor_valid_initial.
  split; [apply cursor_valid_empty_iff, Hv |].
  split.
  { intros Hne. destruct Hv as [[Hnil _] | [_ Hrange]]; [contradiction | exact Hrange]. }
  unfold handleUndo, handleRedo, canUndo, canRedo.
  repeat split;
    try (destruct (0 <? historyIndex s); reflexivity);
    destruct (historyIndex s <? Z.of_nat (length (history s)) - 1); reflexivity.
Qed.

End History.

(** ** The outfit flag *)

Section OutfitFlag.

Implicit Types (s : AppState) (rt : Runtime).

Lemma currentImage_in_range s image :
  currentImage s = Some image →
  0 ≤ historyIndex s < Z.of_nat (length (history s)).
Proof.
  unfold currentImage, Js.index.
  destruct (Z.ltb_spec (historyIndex s) 0) as [Hneg | Hpos]; [discriminate |].
  intros Hlook. apply lookup_lt_Some in Hlook. lia.
Qed.

Lemma applied_after_original_step rt (a : Action) s :
  applied_after_original s → applied_after_original (step rt a s).
Proof.
  unfold applied_after_original. intros Hs.
  destruct a as [file | file | now | | src | | panelImage posePrompt | index | | text
                | now index | | | | | | e | now category | target update | target
                | target | pressed |];
    cbn [step]; try (cbn; first [discriminate | exact Hs]).
  - (* ApplyOutfit *)
    unfold handleApplyOutfit.
    destruct (currentImage s) as [image |] eqn:Himage; [| exact Hs].
    destruct (length (filter _ (clothingItems s)) =? 0)%nat; [exact Hs |].
    destruct (Service.generateLayeredOutfit rt image _) as [sent [url | err]];
      cbn; [| exact Hs].
    destruct (dataURLtoFile rt url _) as [newImageFile | err]; cbn; [| exact Hs].
    intros _. apply currentImage_in_range in Himage.
    rewrite slice0_valid_cursor, length_app, length_take by lia.
    change (length [newImageFile]) with 1%nat. lia.
  - (* Generate *)
    unfold handleGenerate.
    destruct (currentImage s); [| exact Hs].
    destruct src as [contexts | background];
      match goal with
      | |- context [let '(_, _) := ?m in _] => destruct m as [sent [results | err]]
      end; exact Hs.
  - (* GenerateMultiAngleViews *)
    unfold handleGenerateMultiAngleViews.
    destruct (currentImage s); [| exact Hs].
    destruct (await _) as [[imgs caps] | err]; exact Hs.
  - (* GenerateAnime *)
    unfold handleGenerateAnime.
    destruct (currentImage s); [| exact Hs].
    destruct (Service.generateAnimeTransformation _ _ _ _) as [sent [url | err]];
      exact Hs.
  - (* OpenRefinementModal *)
    unfold handleOpenRefinementModal. destruct (variationResults s); exact Hs.
  - (* CloseRefinementModal *)
    unfold handleCloseRefinementModal. destruct (isRefining s); exact Hs.
  - (* RefineRequest *)
    unfold handleRefineRequest.
    destruct (imageIndex (refinementState s)); [| exact Hs].
    destruct (variationResults s); [| exact Hs].
    destruct (_ || _); [exact Hs |].
    destruct (negb _); [exact Hs |].
    destruct (refineTarget _ _ _ _) as [sent [url | err]]; [| exact Hs].
    cbn. unfold handleCloseRefinementModal. cbn.
    destruct (isRefining s); exact Hs.
  - (* SelectVariation *)
    unfold handleSelectVariation.
    destruct (variationResults s); [| exact Hs].
    destruct (dataURLtoFile_opt _ _ _); cbn; [discriminate | exact Hs].
  - (* Undo *)
    unfold handleUndo. destruct (canUndo s); [cbn; discriminate | exact Hs].
  - (* Redo *)
    unfold handleRedo. destruct (canRedo s); [cbn; discriminate | exact Hs].
  - (* Reset *)
    unfold handleReset. destruct (_ <? _)%nat; [cbn; discriminate | exact Hs].
  - (* ImageClick *)
    unfold handleImageClick. destruct (activeClothingItemId s); exact Hs.
  - (* DeleteItem *)
    unfold handleDeleteItem. destruct (bool_decide _); exact Hs.
Qed.

Lemma applied_after_original_run (session : list (Runtime * Action)) s :
  applied_after_original s → applied_after_original (run session s).
Proof.
  revert s. induction session as [| [rt a] session IH]; intros s Hs; [exact Hs |].
  cbn. apply IH, applied_after_original_step, Hs.
Qed.

End OutfitFlag.

Section OutfitFlagClaims.

Implicit Types (s : AppState) (rt : Runtime).

(** C8. Confirming an applied outfit empties the list of clothing items
    and lowers the flag; the history and its cursor are as before, and a
    new version appended next gives the same history and cursor as it
    would have given without the confirmation, with the list still
    empty. *)
Theorem confirm_outfit_clears_items s :
  let s' := handleConfirmOutfit s in
  clothingItems s' = []
  ∧ isOutfitApplied s' = false
  ∧ history s' = history s
  ∧ historyIndex s' = historyIndex s
  ∧ ∀ file,
      history (addImageToHistory file s') = history (addImageToHistory file s)
      ∧ historyIndex (addImageToHistory file s')
        = historyIndex (addImageToHistory file s)
      ∧ clothingItems (addImageToHistory file s') = [].
Proof. cbn. repeat split. Qed.

(** C9, as the code has it. Confirming the outfit and starting over lower
    the flag in every state; an undo lowers it in every state a session can
    reach; a redo lowers it when it moves the cursor and changes nothing
    otherwise; discarding the variations leaves the flag as it was. *)
Theorem outfit_flag_after_operations (session : list (Runtime * Action)) s :
  isOutfitApplied (handleConfirmOutfit s) = false
  ∧ isOutfitApplied (handleUploadNew s) = false
  ∧ isOutfitApplied (handleUndo (run session initial)) = false
  ∧ (canUndo s = true → isOutfitApplied (handleUndo s) = false)
  ∧ (canRedo s = true → isOutfitApplied (handleRedo s) = false)
  ∧ (canRedo s = false → handleRedo s = s)
  ∧ isOutfitApplied (handleDiscardVariations s) = isOutfitApplied s.
Proof.
  split; [reflexivity |]. split; [reflexivity |].
  split.
  { assert (Hinv : applied_after_original (run session initial))
      by (apply applied_after_original_run; intros H; discriminate H).
    unfold handleUndo, canUndo.
    destruct (Z.ltb_spec 0 (historyIndex (run session initial))) as [_ | Hle];
      [reflexivity |].
    destruct (isOutfitApplied (run session initial)) eqn:Hflag; [| reflexivity].
    specialize (Hinv Hflag). lia. }
  unfold handleUndo, handleRedo.
  repeat split; intros H; rewrite H; reflexivity.
Qed.

Lemma outfit_flag_after_operations_witness :
  let s := handleUndo (run Sample.outfit_then_scene initial) in
  isOutfitApplied (handleRedo s) = false ∧ isOutfitApplied (handleUndo (handleRedo s)) = false.
Proof.
  intros s.
  destruct (outfit_flag_after_operations [] s) as (_ & _ & _ & _ & Hredo & _).
  destruct (outfit_flag_after_operations [] (handleRedo s)) as (_ & _ & _ & Hundo & _).
  split; [apply Hredo | apply Hundo]; vm_compute; reflexivity.
Defined.

(** C9 as stated fails for discarding the variations: after an outfit is
    applied and a scene generated, the flag is raised, and it is still
    raised once the variations are discarded. *)
Lemma discard_keeps_outfit_flag :
  let s := run Sample.outfit_then_scene initial in
  is_Some (variationResults s)
  ∧ isOutfitApplied s = true
  ∧ variationResults (handleDiscardVariations s) = None
  ∧ isOutfitApplied (handleDiscardVariations s) = true.
Proof.
  intros s. repeat split; [| vm_compute; reflexivity ..].
  vm_compute. eexists. reflexivity.
Qed.

End OutfitFlagClaims.

(** ** Placement points *)

Section Placement.

Implicit Types (s : AppState) (e : ClickEvent).

Local Open Scope float_scope.

(** C7, as the code has it. With an item waiting for its placement, a
    click stores in every item of that id the point
    (round (ox * (nw / cw)), round (oy * (nh / ch))), the two ratios being
    computed first and every operation being one on doubles; the other
    items are as before, no item waits for a placement any more and the
    displayed marker is at the offset of the click. A click at (150, 200)
    on a 300 by 400 rendering of a 1200 by 1600 image stores (600, 800). *)
Theorem click_stores_scaled_point e s (active : Z) :
  activeClothingItemId s = Some active →
  let ox := clientX e - rect_left e in
  let oy := clientY e - rect_top e in
  let stored :=
    mkPoint (Js.Math_round (ox * (naturalWidth e / clientWidth e)))
            (Js.Math_round (oy * (naturalHeight e / clientHeight e))) in
  let s' := handleImageClick e s in
  (∀ (i : nat) item,
     clothingItems s !! i = Some item →
     clothingItems s' !! i
     = Some (if Z.eqb (id item) active
             then mkItem (id item) (type item) (source item) (value item) (Some stored)
             else item))
  ∧ length (clothingItems s') = length (clothingItems s)
  ∧ activeClothingItemId s' = None
  ∧ displayHotspot s' = Some (mkPoint ox oy)
  ∧ clickPoint Sample.click_150_200 = mkPoint 600 800.
Proof.
  intros Hactive ox oy stored s'.
  unfold s', handleImageClick. rewrite Hactive. cbn.
  split; [| split; [apply length_fmap | repeat split]].
  intros i item Hitem. rewrite list_lookup_fmap, Hitem. reflexivity.
Qed.

Lemma click_stores_scaled_point_witness :
  let s := handleImageClick Sample.click_150_200 (run Sample.placing_item initial) in
  clothingItems s !! 0%nat
  = Some (mkItem 1 Top SourcePrompt (Some (TextValue "a red shirt"))
            (Some (mkPoint 600 800)))
  ∧ activeClothingItemId s = None.
Proof.
  intros s.
  assert (Hactive : activeClothingItemId (run Sample.placing_item initial) = Some 1%Z)
    by (vm_compute; reflexivity).
  destruct (click_stores_scaled_point Sample.click_150_200 _ 1%Z Hactive)
    as (Hitems & _ & Hnone & _ & _).
  split; [| exact Hnone].
  exact (Hitems 0%nat
           (mkItem 1 Top SourcePrompt (Some (TextValue "a red shirt")) None) eq_refl).
Defined.

(** C7 as stated fails: on a 1200 pixel wide image shown 224 pixels wide,
    a click at the offset 21 stores 112, while 21 * 1200 / 224 is 112.5 and
    rounds to 113, both when the quotient is taken exactly and when the
    expression is evaluated from left to right on doubles. *)
Lemma click_21_of_224_stores_112 :
  let s := handleImageClick Sample.click_21_30 (run Sample.placing_item initial) in
  hotspot <$> clothingItems s = [Some (mkPoint 112 161)]
  ∧ Js.Math_round (21 * 1200 / 224) = 113
  ∧ ((2 * (21 * 1200) + 224) / (2 * 224) = 113)%Z
  ∧ hotspot <$> clothingItems s ≠ [Some (mkPoint 113 161)].
Proof.
  intros s. repeat split; try (vm_compute; reflexivity).
  intros Heq.
  assert (Hx : (λ o : option Point, Prim2SF <$> (x <$> o)) <$> (hotspot <$> clothingItems s)
               = [Some (Prim2SF 113)]) by (rewrite Heq; reflexivity).
  vm_compute in Hx. discriminate Hx.
Qed.

End Placement.

(** ** Refinement of one variation *)

Section Refinement.

Implicit Types (s : AppState) (rt : Runtime).

(** Past the end of the array the assignment makes it longer, inside it
    keeps its length. *)
Lemma assign_length {A} (a : list (option A)) (i : nat) (v : A) :
  length (Js.assign a i v) = Nat.max (length a) (S i).
Proof.
  unfold Js.assign.
  destruct (Nat.ltb_spec i (length a)) as [Hlt | Hge].
  - rewrite length_insert. lia.
  - rewrite !length_app, length_replicate. cbn. lia.
Qed.

(** The assigned slot reads as the new value. *)
Lemma assign_read_eq {A} (a : list (option A)) (i : nat) (v : A) :
  read (Js.assign a i v) i = Some v.
Proof.
  unfold read, Js.assign.
  destruct (Nat.ltb_spec i (length a)) as [Hlt | Hge].
  - rewrite list_lookup_insert_eq by exact Hlt. reflexivity.
  - rewrite lookup_app_r by exact Hge.
    rewrite lookup_app_r by (rewrite length_replicate; lia).
    rewrite length_replicate, Nat.sub_diag. reflexivity.
Qed.

(** Every other slot reads as before. *)
Lemma assign_read_ne {A} (a : list (option A)) (i j : nat) (v : A) :
  j ≠ i → read (Js.assign a i v) j = read a j.
Proof.
  intros Hj. unfold read, Js.assign.
  destruct (Nat.ltb_spec i (length a)) as [Hlt | Hge].
  - rewrite list_lookup_insert_ne by congruence. reflexivity.
  - destruct (Nat.lt_ge_cases j (length a)) as [Hin | Hout].
    + rewrite lookup_app_l by exact Hin. reflexivity.
    + rewrite lookup_app_r by exact Hout.
      rewrite (lookup_ge_None_2 a j Hout).
      destruct (Nat.lt_ge_cases j i) as [Hbefore | Hafter].
      * rewrite lookup_app_l by (rewrite length_replicate; lia).
        rewrite lookup_replicate_2 by lia. reflexivity.
      * rewrite lookup_app_r by (rewrite length_replicate; lia).
        rewrite length_replicate.
        rewrite lookup_ge_None_2 by (cbn; lia). reflexivity.
Qed.

(** C10. With a result set and a targeted index, a refinement that
    succeeds makes that index of the image list read as the refined image
    and leaves every other index reading as before, the length of the list
    when the index lies inside it, and the captions; a refinement that is
    not attempted or that fails leaves the result set as it was; the
    history and its cursor are unchanged in both cases. *)
Theorem refinement_replaces_only_target rt (text : string) s results (index : nat) :
  variationResults s = Some results →
  imageIndex (refinementState s) = Some index →
  let s' := (handleRefineRequest rt text s).1 in
  history s' = history s
  ∧ historyIndex s' = historyIndex s
  ∧ (∀ refined,
       refinementReady text s = true →
       (refineTarget rt text index s).2 = Ok refined →
       ∃ results',
         variationResults s' = Some results'
         ∧ read (images results') index = Some refined
         ∧ (∀ j : nat, j ≠ index → read (images results') j = read (images results) j)
         ∧ ((index < length (images results))%nat →
            length (images results') = length (images results))
         ∧ captions results' = captions results)
  ∧ (refinementReady text s = false ∨ (∃ err, (refineTarget rt text index s).2 = Throw err) →
     variationResults s' = Some results).
Proof.
  intros Hresults Hindex s'.
  unfold s', handleRefineRequest, refinementReady. rewrite Hindex, Hresults.
  destruct (Js.truthy_opt_string (imageSrc (refinementState s))); cbn [negb orb andb];
    [| repeat split; [discriminate | intros _; exact Hresults]].
  destruct (truthy_caption (caption (refinementState s))); cbn [negb orb andb];
    [| repeat split; [discriminate | intros _; exact Hresults]].
  destruct (Js.truthy_string (Js.trim text)); cbn [negb];
    [| repeat split; [discriminate | intros _; exact Hresults]].
  destruct (refineTarget rt text index s) as [sent [url | err]]; cbn [fst snd].
  - assert (Hframe : ∀ t, history (setIsRefining false (handleCloseRefinementModal t))
                          = history t
                          ∧ historyIndex (setIsRefining false (handleCloseRefinementModal t))
                            = historyIndex t
                          ∧ variationResults
                              (setIsRefining false (handleCloseRefinementModal t))
                            = variationResults t).
    { intros t. unfold handleCloseRefinementModal.
      destruct (isRefining t); repeat split. }
    destruct (Hframe (setVariationResults
                        (Some (mkResults (Js.assign (images results) index url)
                                 (captions results)))
                        (setError None s))) as (Hh & Hc & Hv).
    rewrite Hh, Hc, Hv. cbn.
    split; [reflexivity |]. split; [reflexivity |]. split.
    + intros refined _ [= <-]. eexists. split; [reflexivity |]. cbn.
      split; [apply assign_read_eq |].
      split; [intros j Hj; apply assign_read_ne, Hj |].
      split; [| reflexivity].
      intros Hrange. rewrite assign_length. lia.
    + intros [Hready | [err Herr]]; discriminate.
  - cbn. split; [reflexivity |]. split; [reflexivity |]. split.
    + intros refined _ Hok. discriminate Hok.
    + intros _. exact Hresults.
Qed.

Lemma refinement_replaces_only_target_witness :
  let s := run Sample.refining_first initial in
  (∃ results',
     variationResults (handleRefineRequest Sample.rt_refined "smile" s).1 = Some results'
     ∧ read (images results') 0 = Some "data:image/png;base64,REFINED"
     ∧ captions results' = Service.FALLBACK_CAPTIONS)
  ∧ variationResults (handleRefineRequest Sample.rt_down "smile" s).1
    = Some (mkResults [Some "data:image/png;base64,IMG0"] Service.FALLBACK_CAPTIONS)
  ∧ history (handleRefineRequest Sample.rt_refined "smile" s).1 = history s.
Proof.
  intros s.
  assert (Hresults : variationResults s
                     = Some (mkResults [Some "data:image/png;base64,IMG0"]
                               Service.FALLBACK_CAPTIONS))
    by (vm_compute; reflexivity).
  assert (Hindex : imageIndex (refinementState s) = Some 0%nat)
    by (vm_compute; reflexivity).
  destruct (refinement_replaces_only_target Sample.rt_refined "smile" s _ 0%nat
              Hresults Hindex) as (Hhist & _ & Hgood & _).
  destruct (refinement_replaces_only_target Sample.rt_down "smile" s _ 0%nat
              Hresults Hindex) as (_ & _ & _ & Hfail).
  split; [| split; [| exact Hhist]].
  - destruct (Hgood "data:image/png;base64,REFINED") as (results' & Hr & Hat & _ & _ & Hcap);
      [vm_compute; reflexivity | vm_compute; reflexivity |].
    exists results'. split; [exact Hr |]. split; [exact Hat | exact Hcap].
  - apply Hfail. right. eexists. vm_compute. reflexivity.
Defined.

End Refinement.

(** ** Interpretation of a response *)

Section Response.

Implicit Types (response : GenerateContentResponse) (context : string).

Lemma truthy_string_iff (t : string) : Js.truthy_string t = true ↔ t ≠ EmptyString.
Proof. destruct t; cbn; split; intros H; congruence. Qed.

Lemma truthy_opt_string_Some (t : string) :
  t ≠ EmptyString → Js.truthy_opt_string (Some t) = true.
Proof. intros Ht. apply truthy_string_iff, Ht. Qed.

Lemma find_first_image (before after : list Part) (part : Part) (blob : Blob) :
  Forall (λ p, inlineData p = None) before →
  inlineData part = Some blob →
  List.find (λ p, bool_decide (is_Some (inlineData p))) (before ++ part :: after)
  = Some part.
Proof.
  intros Hbefore Hpart. induction Hbefore as [| p before Hp _ IH]; cbn.
  - rewrite bool_decide_eq_true_2 by (rewrite Hpart; eauto). reflexivity.
  - rewrite bool_decide_eq_false_2 by (rewrite Hp; intros [? [=]]). exact IH.
Qed.

Lemma find_no_image (ps : list Part) :
  Forall (λ p, inlineData p = None) ps →
  List.find (λ p, bool_decide (is_Some (inlineData p))) ps = None.
Proof.
  induction 1 as [| p ps Hp _ IH]; cbn; [reflexivity |].
  rewrite bool_decide_eq_false_2 by (rewrite Hp; intros [? [=]]). exact IH.
Qed.

Lemma firstCandidate_first response :
  Service.firstCandidate response = firstCandidateOf response.
Proof.
  unfold Service.firstCandidate, firstCandidateOf.
  destruct (candidates response) as [[| c cs] |]; reflexivity.
Qed.

(** The image of a response is that of the first part with inline data
    among the parts of the first candidate. *)
Lemma inlineImageOf_first response (before after : list Part) (part : Part) (blob : Blob) :
  partsOfCandidate (firstCandidateOf response) = before ++ part :: after →
  Forall (λ p, inlineData p = None) before →
  inlineData part = Some blob →
  Service.inlineImageOf response = Some blob.
Proof.
  intros Hparts Hbefore Hpart.
  unfold Service.inlineImageOf, Service.imagePartOf. rewrite firstCandidate_first.
  unfold partsOfCandidate in Hparts.
  destruct (firstCandidateOf response) as [c |]; [| destruct before; discriminate].
  cbn. destruct (content c) as [ct |]; [| destruct before; discriminate].
  cbn. destruct (parts ct) as [ps |]; [| destruct before; discriminate].
  cbn. rewrite Hparts, (find_first_image before after part blob Hbefore Hpart).
  exact Hpart.
Qed.

Lemma inlineImageOf_none response :
  Forall (λ p, inlineData p = None) (partsOfCandidate (firstCandidateOf response)) →
  Service.inlineImageOf response = None.
Proof.
  intros Hnone.
  unfold Service.inlineImageOf, Service.imagePartOf. rewrite firstCandidate_first.
  unfold partsOfCandidate in Hnone.
  destruct (firstCandidateOf response) as [c |]; [| reflexivity].
  cbn. destruct (content c) as [ct |]; [| reflexivity].
  cbn. destruct (parts ct) as [ps |]; [| reflexivity].
  cbn. rewrite (find_no_image ps Hnone). reflexivity.
Qed.

Lemma unblocked_falsy response :
  unblocked response → Js.truthy_opt_string (Service.blockReasonOf response) = false.
Proof.
  unfold unblocked, Service.blockReasonOf.
  destruct (promptFeedback response) as [feedback |]; [| reflexivity].
  cbn. intros [-> | ->]; reflexivity.
Qed.

(** C4, as the code has it. A response is read in this order. A block
    reason that is present (not empty) makes the call fail with the blocked
    error that carries it. Otherwise, when a part of the first candidate
    has inline data, the first such part gives the result, the data URL of
    its media type and data. Otherwise, a completion reason of the first
    candidate that is present and is not STOP makes the call fail with the
    generation-stopped error that carries it. Otherwise the call fails
    with the no-image error, whose message quotes the text of the response
    when that text is not blank and gives the usual causes otherwise. The
    candidates after the first are not read. *)
Theorem response_read_in_priority_order response context :
  let first := firstCandidateOf response in
  (∀ feedback reason,
     promptFeedback response = Some feedback →
     blockReason feedback = Some reason → reason ≠ EmptyString →
     Service.handleApiResponse response context
     = Throw (JsError BlockedError
                ("Request was blocked. Reason: " +:+ reason +:+ ". "
                 +:+ Js.or_string (blockReasonMessage feedback) EmptyString)))
  ∧ (unblocked response →
     (∀ (before after : list Part) (part : Part) (blob : Blob),
        partsOfCandidate first = before ++ part :: after →
        Forall (λ p, inlineData p = None) before →
        inlineData part = Some blob →
        Service.handleApiResponse response context
        = Ok ("data:" +:+ Js.show_opt_string (mimeType blob) +:+ ";base64,"
              +:+ Js.show_opt_string (data blob)))
     ∧ (∀ (before after : list Part) (part : Part) (mediaType payload : string),
          partsOfCandidate first = before ++ part :: after →
          Forall (λ p, inlineData p = None) before →
          inlineData part = Some (mkBlob (Some mediaType) (Some payload)) →
          Service.handleApiResponse response context
          = Ok ("data:" +:+ mediaType +:+ ";base64," +:+ payload))
     ∧ (Forall (λ p, inlineData p = None) (partsOfCandidate first) →
        (∀ candidate reason,
           first = Some candidate → finishReason candidate = Some reason →
           reason ≠ EmptyString → reason ≠ "STOP" →
           Service.handleApiResponse response context
           = Throw (JsError GenerationStoppedError
                      ("Image generation for " +:+ context
                       +:+ " stopped unexpectedly. Reason: " +:+ reason
                       +:+ ". This often relates to safety settings.")))
        ∧ (first = None
           ∨ (∃ candidate,
                first = Some candidate
                ∧ (finishReason candidate = None
                   ∨ finishReason candidate = Some EmptyString
                   ∨ finishReason candidate = Some "STOP")) →
           ∃ message,
             Service.handleApiResponse response context
             = Throw (JsError NoImageReturnedError message)
             ∧ (∀ text,
                  response_text response = Some text →
                  Js.trim text ≠ EmptyString →
                  message
                  = "The AI model did not return an image for the " +:+ context
                    +:+ ". " +:+ "The model responded with text: " +:+ Js.dquote
                    +:+ Js.trim text +:+ Js.dquote)
             ∧ (response_text response = None
                ∨ (∃ text, response_text response = Some text
                           ∧ Js.trim text = EmptyString) →
                message
                = "The AI model did not return an image for the " +:+ context
                  +:+ ". "
                  +:+ "This can happen due to safety filters or if the request is too complex. Please try rephrasing your prompt to be more direct.")))).
Proof.
  intros first. unfold Service.handleApiResponse. split.
  { intros feedback reason Hfeedback Hreason Hne.
    assert (Hblock : Service.blockReasonOf response = Some reason)
      by (unfold Service.blockReasonOf; rewrite Hfeedback; exact Hreason).
    rewrite Hblock, Hfeedback.
    rewrite (truthy_opt_string_Some reason Hne). reflexivity. }
  intros Hfree. rewrite (unblocked_falsy response Hfree). split; [| split].
  - intros before after part blob Hparts Hbefore Hpart.
    rewrite (inlineImageOf_first response before after part blob Hparts Hbefore Hpart).
    reflexivity.
  - intros before after part mediaType payload Hparts Hbefore Hpart.
    rewrite (inlineImageOf_first response before after part _ Hparts Hbefore Hpart).
    reflexivity.
  - intros Hnone. rewrite (inlineImageOf_none response Hnone).
    unfold Service.finishReasonOf. rewrite firstCandidate_first. fold first. split.
    + intros candidate reason -> Hreason Hne Hstop. cbn [mbind option_bind].
      rewrite Hreason.
      rewrite (truthy_opt_string_Some reason Hne).
      rewrite bool_decide_eq_false_2 by congruence. reflexivity.
    + intros Hfinish.
      assert (Hcond : Js.truthy_opt_string (first ≫= finishReason)
                      && negb (bool_decide (first ≫= finishReason = Some "STOP"))
                      = false).
      { destruct Hfinish as [-> | (candidate & -> & [Hf | [Hf | Hf]])];
          cbn [mbind option_bind]; [| rewrite Hf ..]; reflexivity. }
      rewrite Hcond. eexists. split; [reflexivity |]. split.
      * intros text Htext Hne. rewrite Htext. cbn [fmap option_fmap option_map].
        rewrite (truthy_opt_string_Some (Js.trim text) Hne). reflexivity.
      * intros [-> | (text & -> & Hblank)]; cbn [fmap option_fmap option_map];
          [| rewrite Hblank]; reflexivity.
Qed.

Lemma response_read_in_priority_order_witness :
  Service.handleApiResponse
    (mkResponse (Some (mkPromptFeedback (Some "SAFETY") None))
       (candidates (Sample.imageResponse "QUJD")) None) "edit"
  = Throw (JsError BlockedError "Request was blocked. Reason: SAFETY. ")
  ∧ Service.handleApiResponse (Sample.imageResponse "QUJD") "edit"
    = Ok "data:image/png;base64,QUJD"
  ∧ Service.handleApiResponse
      (mkResponse None
         (Some [mkCandidate
                  (Some (mkContent
                           (Some [mkPart None (Some "Here it is.");
                                  mkPart (Some (mkBlob (Some "image/webp") (Some "UklG")))
                                    None;
                                  mkPart (Some (mkBlob (Some "image/png") (Some "QUJD")))
                                    None])))
                  (Some "STOP")])
         None) "edit"
    = Ok "data:image/webp;base64,UklG"
  ∧ Service.handleApiResponse
      (mkResponse None (Some [mkCandidate None (Some "MAX_TOKENS")]) None) "edit"
    = Throw (JsError GenerationStoppedError
               "Image generation for edit stopped unexpectedly. Reason: MAX_TOKENS. This often relates to safety settings.")
  ∧ ∃ message,
      Service.handleApiResponse
        (mkResponse None (Some [mkCandidate None (Some "STOP")]) (Some " no image ")) "edit"
      = Throw (JsError NoImageReturnedError message).
Proof.
  split; [| split; [| split; [| split]]].
  - destruct (response_read_in_priority_order
                (mkResponse (Some (mkPromptFeedback (Some "SAFETY") None))
                   (candidates (Sample.imageResponse "QUJD")) None) "edit")
      as (Hblocked & _).
    apply (Hblocked (mkPromptFeedback (Some "SAFETY") None) "SAFETY");
      [reflexivity | reflexivity | discriminate].
  - destruct (response_read_in_priority_order (Sample.imageResponse "QUJD") "edit")
      as (_ & Hrest).
    destruct (Hrest I) as (_ & Himage & _).
    apply (Himage [] [] (mkPart (Some (mkBlob (Some "image/png") (Some "QUJD"))) None)
             "image/png" "QUJD"); [reflexivity | constructor | reflexivity].
  - match goal with
    | |- Service.handleApiResponse ?response _ = _ =>
        destruct (response_read_in_priority_order response "edit") as (_ & Hrest)
    end.
    destruct (Hrest I) as (_ & Himage & _).
    apply (Himage [mkPart None (Some "Here it is.")]
             [mkPart (Some (mkBlob (Some "image/png") (Some "QUJD"))) None]
             (mkPart (Some (mkBlob (Some "image/webp") (Some "UklG"))) None)
             "image/webp" "UklG");
      [reflexivity | repeat constructor | reflexivity].
  - destruct (response_read_in_priority_order
                (mkResponse None (Some [mkCandidate None (Some "MAX_TOKENS")]) None)
                "edit") as (_ & Hrest).
    destruct (Hrest I) as (_ & _ & Hnoimage).
    destruct (Hnoimage ltac:(constructor)) as (Hstopped & _).
    apply (Hstopped (mkCandidate None (Some "MAX_TOKENS")) "MAX_TOKENS");
      [reflexivity | reflexivity | discriminate | discriminate].
  - destruct (response_read_in_priority_order
                (mkResponse None (Some [mkCandidate None (Some "STOP")])
                   (Some " no image ")) "edit") as (_ & Hrest).
    destruct (Hrest I) as (_ & _ & Hnoimage).
    destruct (Hnoimage ltac:(constructor)) as (_ & Hlast).
    destruct Hlast as (message & Hmessage & _).
    { right. eexists. split; [reflexivity |]. right; right; reflexivity. }
    exists message. exact Hmessage.
Defined.

(** C4 as stated fails on a response whose image is not in the first
    candidate: the response carries an image payload and no block reason,
    and the call fails with the no-image error instead of returning the
    data URL. *)
Lemma image_in_second_candidate_is_not_returned :
  carriesImage Scenario.image_in_second_candidate
  ∧ unblocked Scenario.image_in_second_candidate
  ∧ Service.handleApiResponse Scenario.image_in_second_candidate "edit"
    = Throw (JsError NoImageReturnedError
               "The AI model did not return an image for the edit. This can happen due to safety filters or if the request is too complex. Please try rephrasing your prompt to be more direct.")
  ∧ Service.handleApiResponse Scenario.image_in_second_candidate "edit"
    ≠ Ok "data:image/png;base64,QUJD".
Proof.
  split; [| split; [exact I | split; [reflexivity | discriminate]]].
  unfold carriesImage, Scenario.image_in_second_candidate.
  eexists _, _, _, _, _, _. split; [reflexivity |].
  split; [right; left |]. repeat split; [left | reflexivity].
Qed.

End Response.

(** ** Captions *)

Section Captions.

Implicit Types (rt : Runtime) (response : GenerateContentResponse).

(** C6. When the text of the caption response is missing, does not parse
    as JSON, or parses to a value without a captions array, the captions
    are the four built-in ones; and whatever the response, the operation
    returns captions and throws nothing. *)
Theorem captions_fall_back rt response :
  (response_text response = None
   ∨ (∃ text, response_text response = Some text
              ∧ JSON_parse rt (Js.trim text) = None)
   ∨ (∃ text parsed, response_text response = Some text
                     ∧ JSON_parse rt (Js.trim text) = Some parsed
                     ∧ Spec.hasCaptionsArray parsed = false) →
   Service.captionsOf rt response = Service.FALLBACK_CAPTIONS)
  ∧ length Service.FALLBACK_CAPTIONS = 4%nat
  ∧ ∀ (clothingPrompt : string) (contexts : list string),
      generateContent rt 0
        (JsonRequest Service.TEXT_MODEL (Service.captionsPrompt clothingPrompt contexts))
      = Fulfilled response →
      (Service.generateCaptions rt clothingPrompt contexts).2
      = Ok (Service.captionsOf rt response).
Proof.
  split; [| split; [reflexivity |]].
  - unfold Service.captionsOf, Service.readCaptions.
    intros [Hnone | [(text & Htext & Hparse) | (text & parsed & Htext & Hparse & Hlacks)]].
    + rewrite Hnone. reflexivity.
    + rewrite Htext, Hparse. reflexivity.
    + rewrite Htext, Hparse.
      destruct parsed as [| b | n | t | elements | fields]; try reflexivity.
      cbn in Hlacks |- *.
      destruct (JsValues.field "captions" fields) as [[| | | | elements |] |];
        first [reflexivity | discriminate Hlacks].
  - intros clothingPrompt contexts Hsent.
    unfold Service.generateCaptions, Service.send. rewrite Hsent. reflexivity.
Qed.

Lemma captions_fall_back_witness :
  Service.captionsOf Sample.rt_ok (mkResponse None None (Some "{captions: oops"))
  = Service.FALLBACK_CAPTIONS
  ∧ (Service.generateCaptions Sample.rt_ok "a red shirt" ["a beach"]).2
    = Ok Service.FALLBACK_CAPTIONS.
Proof.
  destruct (captions_fall_back Sample.rt_ok (mkResponse None None (Some "{captions: oops")))
    as (Hfallback & _ & _).
  destruct (captions_fall_back Sample.rt_ok (Sample.imageResponse "IMG0"))
    as (Hfallback' & _ & Hreturns).
  split.
  - apply Hfallback. right. left. eexists. split; reflexivity.
  - rewrite (Hreturns "a red shirt" ["a beach"] eq_refl).
    rewrite Hfallback' by (left; reflexivity). reflexivity.
Defined.

End Captions.

(** ** Contextual variations *)

Section Variations.

Implicit Types (rt : Runtime) (contexts : list string).

Lemma rejections_nil_iff {A} (i : nat) (settled : list (result A)) :
  Service.rejections i settled = [] ↔ Forall (λ r, is_Ok r = true) settled.
Proof.
  revert i. induction settled as [| [a | t] settled IH]; intros i; cbn.
  - split; [constructor | reflexivity].
  - rewrite IH. split; [intros H; constructor; [reflexivity | exact H] |].
    intros H. inversion H; assumption.
  - split; [discriminate |]. intros H. inversion H; discriminate.
Qed.

Lemma rejections_thrown {A} (i : nat) (settled : list (result A)) j t :
  (j, t) ∈ Service.rejections i settled → Throw t ∈ settled.
Proof.
  revert i. induction settled as [| [a | t'] settled IH]; intros i; cbn.
  - intros H. inversion H.
  - intros H. right. apply (IH (S i)), H.
  - intros H. apply elem_of_cons in H as [[= _ ->] | H]; [left |].
    right. apply (IH (S i)), H.
Qed.

Lemma fulfilledValues_all {A} (settled : list (result A)) :
  Forall (λ r, is_Ok r = true) settled →
  Forall2 (λ r v, r = Ok v) settled (Service.fulfilledValues settled).
Proof.
  induction 1 as [| [a | t] settled Hok _ IH]; cbn.
  - constructor.
  - constructor; [reflexivity | exact IH].
  - discriminate Hok.
Qed.

Lemma Forall2_Ok_inj {A} (settled : list (result A)) (vs ws : list A) :
  Forall2 (λ r v, r = Ok v) settled vs →
  Forall2 (λ r v, r = Ok v) settled ws →
  vs = ws.
Proof.
  intros Hvs. revert ws.
  induction Hvs as [| r v settled vs Hr _ IH]; intros ws Hws; inversion Hws; subst.
  - reflexivity.
  - f_equal; [congruence | apply IH; assumption].
Qed.

(** [Promise.all] fulfils with the values in order when every promise
    fulfils, and rejects with the reason of one of them otherwise. *)
Lemma Promise_all_fulfilled {A} rt (settled : list (result A)) (vs : list A) :
  Forall2 (λ r v, r = Ok v) settled vs →
  Service.Promise_all rt settled = Ok vs.
Proof.
  intros Hvs.
  assert (Hall : Forall (λ r, is_Ok r = true) settled).
  { clear -Hvs. induction Hvs as [| r v ? ? -> _ IH]; constructor; [reflexivity | exact IH]. }
  unfold Service.Promise_all.
  rewrite (proj2 (rejections_nil_iff 0 settled) Hall).
  f_equal. apply (Forall2_Ok_inj settled); [apply fulfilledValues_all, Hall | exact Hvs].
Qed.

Lemma Promise_all_rejected {A} rt (settled : list (result A)) :
  ¬ Forall (λ r, is_Ok r = true) settled →
  ∃ t, Service.Promise_all rt settled = Throw t ∧ Throw t ∈ settled.
Proof.
  intros Hnot. unfold Service.Promise_all.
  destruct (Service.rejections 0 settled) as [| [i0 t0] later] eqn:Hrej.
  { exfalso. apply Hnot, (rejections_nil_iff 0), Hrej. }
  destruct (List.find _ _) as [[j t] |] eqn:Hfind.
  - exists t. split; [reflexivity |].
    apply find_some in Hfind as [Hin _].
    apply (rejections_thrown 0 settled j). rewrite Hrej.
    apply list_elem_of_In, Hin.
  - exists t0. split; [reflexivity |].
    apply (rejections_thrown 0 settled i0). rewrite Hrej. left.
Qed.

Lemma Promise_all_Ok_inv {A} rt (settled : list (result A)) (vs : list A) :
  Service.Promise_all rt settled = Ok vs →
  Forall2 (λ r v, r = Ok v) settled vs.
Proof.
  intros Hall.
  destruct (decide (Forall (λ r, is_Ok r = true) settled)) as [Hok | Hnot].
  - pose proof (fulfilledValues_all settled Hok) as Hvs.
    rewrite (Promise_all_fulfilled rt settled _ Hvs) in Hall.
    injection Hall as <-. exact Hvs.
  - destruct (Promise_all_rejected rt settled Hnot) as (t & Ht & _). congruence.
Qed.

(** Each callback sends its one request, whatever comes back. *)
Lemma variation_sent rt (part : Part) (i : nat) (context : string) :
  (Service.variation rt part i context).1
  = [PartsRequest Service.IMAGE_MODEL
       [part; Service.textPart (Service.variationPrompt context)]].
Proof.
  unfold Service.variation, Service.send, mbind, Service.Remote_bind.
  destruct (await _) as [response | t]; [| reflexivity].
  unfold Service.lift. apply app_nil_r.
Qed.

(** The requests of the callbacks, one for each context. *)
Lemma variation_requests rt (part : Part) contexts (k : nat) :
  concat (fst <$> imap (λ i, Service.variation rt part (k + i)) contexts)
  = (λ c, PartsRequest Service.IMAGE_MODEL
            [part; Service.textPart (Service.variationPrompt c)]) <$> contexts.
Proof.
  revert k. induction contexts as [| c contexts IH]; intros k; [reflexivity |].
  rewrite fmap_cons, imap_cons, fmap_cons, concat_cons, variation_sent.
  rewrite <- (IH (S k)). cbn [app]. do 3 f_equal.
  apply imap_ext. intros i c' _. unfold compose.
  replace (k + S i)%nat with (S k + i)%nat by lia. reflexivity.
Qed.

(** C5, as the code has it. For a list of contexts that is not empty and a
    source image that can be encoded, one request is sent for each context,
    in the order of the list. When every request gives an image, the
    result is the list of these images in the order of the contexts; when
    one of them fails, the operation fails with the failure of one of them
    and returns no image. For the empty list, whatever the environment and
    the image, the operation fails with its own error and sends no
    request. *)
Theorem variations_all_or_nothing rt (sourceImage : File) contexts :
  let done := Service.generateVariations rt sourceImage contexts in
  (contexts = [] → done = ([], Throw Service.NO_CONTEXT))
  ∧ (contexts ≠ [] →
     ∀ part : Part,
       Service.fileToPart rt sourceImage = Ok part →
       let answers := imap (λ i c, (Service.variation rt part i c).2) contexts in
       done.1 = (λ c, PartsRequest Service.IMAGE_MODEL
                        [part; Service.textPart (Service.variationPrompt c)]) <$> contexts
       ∧ length answers = length contexts
       ∧ (∀ urls, Forall2 (λ answer url, answer = Ok url) answers urls →
                  done.2 = Ok urls)
       ∧ (∀ urls, done.2 = Ok urls →
                  Forall2 (λ answer url, answer = Ok url) answers urls)
       ∧ (∀ (i : nat) failure, answers !! i = Some (Throw failure) →
            ∃ reason, done.2 = Throw reason ∧ Throw reason ∈ answers)).
Proof.
  intros done. split; [intros ->; reflexivity |].
  intros Hne part Hpart answers.
  assert (Hdone : done
                  = (concat (fst <$> imap (Service.variation rt part) contexts),
                     Service.Promise_all rt (snd <$> imap (Service.variation rt part) contexts))).
  { unfold done, Service.generateVariations.
    destruct contexts as [| c contexts]; [contradiction |].
    cbn [length Nat.ltb Nat.leb]. rewrite Hpart. cbn.
    destruct (Service.Promise_all _ _); reflexivity. }
  assert (Hanswers : snd <$> imap (Service.variation rt part) contexts = answers).
  { unfold answers. rewrite fmap_imap. reflexivity. }
  rewrite Hdone, Hanswers. cbn [fst snd].
  split; [apply (variation_requests rt part contexts 0) |].
  split; [apply length_imap |].
  split; [intros urls Hurls; apply Promise_all_fulfilled, Hurls |].
  split; [intros urls Hurls; apply (Promise_all_Ok_inv rt), Hurls |].
  intros i failure Hi. apply Promise_all_rejected.
  intros Hall. rewrite Forall_lookup in Hall.
  specialize (Hall i _ Hi). discriminate Hall.
Qed.

Lemma variations_all_or_nothing_witness :
  (Service.generateVariations Sample.rt_ok Sample.A ["a beach"; "a forest"; "a street"]).2
  = Ok ["data:image/png;base64,IMG0"; "data:image/png;base64,IMG1";
        "data:image/png;base64,IMG2"]
  ∧ length (Service.generateVariations Sample.rt_second_fails Sample.A
              ["a beach"; "a forest"; "a street"]).1 = 3%nat
  ∧ (∃ reason,
       (Service.generateVariations Sample.rt_second_fails Sample.A
          ["a beach"; "a forest"; "a street"]).2 = Throw reason)
  ∧ Service.generateVariations Sample.rt_down Sample.B []
    = ([], Throw Service.NO_CONTEXT).
Proof.
  assert (Hne : ["a beach"; "a forest"; "a street"] ≠ @nil string) by discriminate.
  destruct (variations_all_or_nothing Sample.rt_ok Sample.A
              ["a beach"; "a forest"; "a street"]) as [_ Hok].
  destruct (Hok Hne _ eq_refl) as (_ & _ & Hall & _).
  destruct (variations_all_or_nothing Sample.rt_second_fails Sample.A
              ["a beach"; "a forest"; "a street"]) as [_ Hsecond].
  destruct (Hsecond Hne _ eq_refl) as (Hsent & _ & _ & _ & Hfail).
  destruct (variations_all_or_nothing Sample.rt_down Sample.B []) as [Hempty _].
  split; [| split; [| split]].
  - apply Hall. repeat constructor.
  - rewrite Hsent. reflexivity.
  - destruct (Hfail 1%nat (JsError ExternalError "503") eq_refl) as (reason & Hreason & _).
    exists reason. exact Hreason.
  - exact (Hempty eq_refl).
Defined.

(** C5 as stated fails on the empty list of contexts: no request is sent,
    and the operation fails instead of returning the empty list of
    images. *)
Lemma no_contexts_is_an_error :
  Service.generateVariations Sample.rt_ok Sample.A []
  = ([], Throw (JsError NoContextError
                  "generateVariations requires at least 1 context string."))
  ∧ (Service.generateVariations Sample.rt_ok Sample.A []).2 ≠ Ok [].
Proof. split; [reflexivity | discriminate]. Qed.

End Variations.

(** ** Layered outfits *)

Section LayeredOutfit.

Implicit Types (rt : Runtime) (item : ClothingItem) (items : list ClothingItem)
  (acc : Service.OutfitParts).

(** The errors of [fileToPart] are its own or those of the browser, and
    those of [handleApiResponse] are its own. *)
Lemma fileToPart_not_no_valid_items rt (file : File) (t : Thrown) (message : string) :
  Service.fileToPart rt file = Throw t → t ≠ JsError NoValidItemsError message.
Proof.
  unfold Service.fileToPart.
  assert (Hrest : ∀ processed : File,
            (dataUrl ← await (readAsDataURL rt processed);
             match Text.split "," dataUrl with
             | arr0 :: arr1 :: _ =>
                 match Text.mime_match arr0 with
                 | Some mime =>
                     if Js.truthy_string mime
                     then Ok (mkPart (Some (mkBlob (Some mime) (Some arr1))) None)
                     else Throw (JsError EncodingError
                                   "Could not parse MIME type from data URL")
                 | None => Throw (JsError EncodingError
                                    "Could not parse MIME type from data URL")
                 end
             | _ => Throw (JsError EncodingError "Invalid data URL")
             end) = Throw t → t ≠ JsError NoValidItemsError message).
  { intros processed.
    destruct (readAsDataURL rt processed) as [url | [m |]]; cbn;
      [| intros [= <-]; discriminate ..].
    destruct (Text.split "," url) as [| arr0 [| arr1 rest]];
      [intros [= <-]; discriminate .. |].
    destruct (Text.mime_match arr0) as [mime |]; [| intros [= <-]; discriminate].
    destruct (Js.truthy_string mime); [discriminate | intros [= <-]; discriminate]. }
  destruct (Service.includes _ _); cbn; [apply Hrest |].
  destruct (Service.convertImageToPNG rt file) as [converted | err]; cbn;
    [apply Hrest | intros [= <-]; discriminate].
Qed.

Lemma handleApiResponse_not_no_valid_items
    (response : GenerateContentResponse) (context : string) (t : Thrown)
    (message : string) :
  Service.handleApiResponse response context = Throw t →
  t ≠ JsError NoValidItemsError message.
Proof.
  unfold Service.handleApiResponse.
  destruct (Js.truthy_opt_string (Service.blockReasonOf response));
    [intros [= <-]; discriminate |].
  destruct (Service.inlineImageOf response); [discriminate |].
  destruct (_ && _); intros [= <-]; discriminate.
Qed.

Lemma string_app_assoc (a b c : string) : (a +:+ b) +:+ c = a +:+ b +:+ c.
Proof.
  induction a as [| ch a IH]; [reflexivity |].
  change (String ch ((a +:+ b) +:+ c) = String ch (a +:+ b +:+ c)).
  rewrite IH. reflexivity.
Qed.

(** An item that does not contribute leaves the state of the loop as it is,
    and one that contributes adds exactly its instruction. *)
Lemma outfitStep_skips rt acc item :
  Spec.contributes item = false → Service.outfitStep rt acc item = Ok acc.
Proof.
  unfold Spec.contributes, Service.outfitStep.
  destruct (hotspot item) as [h |]; [| reflexivity].
  destruct (source item), (value item) as [[f | t] |]; try reflexivity; try discriminate.
  intros ->. reflexivity.
Qed.

Lemma outfitStep_adds rt acc acc' item :
  Spec.contributes item = true →
  Service.outfitStep rt acc item = Ok acc' →
  ∃ instruction,
    Service.promptInstructions acc' = Service.promptInstructions acc ++ [instruction]
    ∧ Spec.describes rt item instruction.
Proof.
  unfold Spec.contributes, Service.outfitStep, Spec.describes.
  destruct (hotspot item) as [h |]; [| discriminate].
  destruct (source item), (value item) as [[f | t] |]; try discriminate.
  - intros _. destruct (Service.fileToPart rt f) as [part |]; cbn; [| discriminate].
    intros [= <-]. eexists. split; [reflexivity |].
    exists h, (" from garment image #" +:+ pretty (S (Service.garmentImageCounter acc))).
    split; [reflexivity |]. rewrite string_app_assoc. reflexivity.
  - intros ->. intros [= <-]. eexists. split; [reflexivity |].
    exists h, (" described as " +:+ Js.dquote +:+ t +:+ Js.dquote).
    split; [reflexivity |]. rewrite !string_app_assoc. reflexivity.
Qed.

Lemma outfitStep_not_no_valid_items rt acc item (t : Thrown) (message : string) :
  Service.outfitStep rt acc item = Throw t → t ≠ JsError NoValidItemsError message.
Proof.
  unfold Service.outfitStep.
  destruct (hotspot item) as [h |]; [| discriminate].
  destruct (source item), (value item) as [[f | text] |]; try discriminate.
  - pose proof (fileToPart_not_no_valid_items rt f) as Hf.
    destruct (Service.fileToPart rt f) as [part | t']; cbn; [discriminate |].
    intros [= <-]. apply Hf. reflexivity.
  - destruct (Js.truthy_string _); discriminate.
Qed.

Lemma outfitLoop_instructions rt items acc acc' :
  Service.outfitLoop rt acc items = Ok acc' →
  ∃ added,
    Service.promptInstructions acc' = Service.promptInstructions acc ++ added
    ∧ Forall2 (Spec.describes rt) (filter (λ i, Spec.contributes i = true) items) added.
Proof.
  revert acc. induction items as [| item items IH]; intros acc; cbn [Service.outfitLoop].
  - intros [= <-]. exists []. split; [symmetry; apply app_nil_r | constructor].
  - destruct (Service.outfitStep rt acc item) as [acc1 |] eqn:Hstep;
      cbn [mbind result_bind]; [| discriminate].
    intros Hloop. destruct (IH acc1 Hloop) as (added & Hadded & Hdesc).
    rewrite filter_cons. destruct (decide (Spec.contributes item = true)) as [Hc | Hc].
    + destruct (outfitStep_adds rt acc acc1 item Hc Hstep) as (instr & Hinstr & Hd).
      exists (instr :: added). split; [| constructor; assumption].
      rewrite Hadded, Hinstr, <- app_assoc. reflexivity.
    + apply not_true_is_false in Hc.
      rewrite (outfitStep_skips rt acc item Hc) in Hstep. injection Hstep as <-.
      exists added. split; assumption.
Qed.

Lemma outfitLoop_nothing_contributes rt items acc :
  filter (λ i, Spec.contributes i = true) items = [] →
  Service.outfitLoop rt acc items = Ok acc.
Proof.
  induction items as [| item items IH]; cbn [Service.outfitLoop]; [reflexivity |].
  rewrite filter_cons. destruct (decide (Spec.contributes item = true)) as [Hc | Hc];
    [discriminate |].
  intros Hrest. apply not_true_is_false in Hc.
  rewrite (outfitStep_skips rt acc item Hc). cbn [mbind result_bind]. apply IH, Hrest.
Qed.

(** The loop ends normally when the file of every uploaded item it uses
    can be encoded. *)
Lemma outfitLoop_succeeds rt items acc :
  (∀ item f, item ∈ items → Spec.contributes item = true →
             value item = Some (FileValue f) →
             is_Ok (Service.fileToPart rt f) = true) →
  ∃ acc', Service.outfitLoop rt acc items = Ok acc'.
Proof.
  revert acc. induction items as [| item items IH]; intros acc Hfiles;
    cbn [Service.outfitLoop]; [eexists; reflexivity |].
  assert (Hstep : ∃ acc1, Service.outfitStep rt acc item = Ok acc1).
  { destruct (Spec.contributes item) eqn:Hc;
      [| exists acc; apply outfitStep_skips, Hc].
    unfold Service.outfitStep. unfold Spec.contributes in Hc.
    destruct (hotspot item) as [h |] eqn:Hh; [| discriminate].
    destruct (source item) eqn:Hs, (value item) as [[f | text] |] eqn:Hv;
      try discriminate.
    - assert (Hf : is_Ok (Service.fileToPart rt f) = true).
      { apply (Hfiles item f); [left | | exact Hv].
        unfold Spec.contributes. rewrite Hh, Hs, Hv. reflexivity. }
      destruct (Service.fileToPart rt f) as [part | t]; [| discriminate Hf].
      eexists. reflexivity.
    - rewrite Hc. eexists. reflexivity. }
  destruct Hstep as [acc1 ->]. cbn [mbind result_bind].
  apply IH. intros item' f Hin. apply Hfiles. right. exact Hin.
Qed.

Lemma outfitLoop_not_no_valid_items rt items acc (t : Thrown) (message : string) :
  Service.outfitLoop rt acc items = Throw t → t ≠ JsError NoValidItemsError message.
Proof.
  revert acc. induction items as [| item items IH]; intros acc; cbn; [discriminate |].
  pose proof (outfitStep_not_no_valid_items rt acc item) as Hstep.
  destruct (Service.outfitStep rt acc item) as [acc1 | t']; cbn; [apply IH |].
  intros [= <-]. apply Hstep. reflexivity.
Qed.

Lemma outfitStep_Throw rt acc item (t : Thrown) :
  Service.outfitStep rt acc item = Throw t →
  Spec.contributes item = true
  ∧ ∃ f, value item = Some (FileValue f) ∧ Service.fileToPart rt f = Throw t.
Proof.
  unfold Service.outfitStep, Spec.contributes.
  destruct (hotspot item) as [h |]; [| discriminate].
  destruct (source item), (value item) as [[f | text] |]; try discriminate.
  - destruct (Service.fileToPart rt f) as [part | t'] eqn:Hf; cbn [mbind result_bind];
      [discriminate |].
    intros [= <-]. split; [reflexivity |]. exists f. split; [reflexivity | exact Hf].
  - destruct (Js.truthy_string _); discriminate.
Qed.

(** The loop stops at the first uploaded item it uses whose file cannot
    be encoded, with the failure of that encoding. *)
Lemma outfitLoop_Throw rt items acc (t : Thrown) :
  Service.outfitLoop rt acc items = Throw t →
  ∃ item f,
    item ∈ filter (λ i, Spec.contributes i = true) items
    ∧ value item = Some (FileValue f) ∧ Service.fileToPart rt f = Throw t.
Proof.
  revert acc. induction items as [| item items IH]; intros acc;
    cbn [Service.outfitLoop]; [discriminate |].
  destruct (Service.outfitStep rt acc item) as [acc1 | t'] eqn:Hstep;
    cbn [mbind result_bind].
  - intros Hloop. destruct (IH acc1 Hloop) as (item' & f & Hin & Hvalue & Hfile).
    exists item', f. split; [| split; assumption].
    apply list_elem_of_filter in Hin as [Hc Hin].
    apply list_elem_of_filter. split; [exact Hc | right; exact Hin].
  - intros [= <-]. destruct (outfitStep_Throw rt acc item t' Hstep) as (Hc & f & Hvalue & Hfile).
    exists item, f. split; [| split; assumption].
    apply list_elem_of_filter. split; [exact Hc | left].
Qed.

(** When the loop ends normally, the file of every uploaded item it uses
    was encoded. *)
Lemma outfitLoop_Ok_files rt items acc acc' :
  Service.outfitLoop rt acc items = Ok acc' →
  ∀ item f,
    item ∈ filter (λ i, Spec.contributes i = true) items →
    value item = Some (FileValue f) →
    is_Ok (Service.fileToPart rt f) = true.
Proof.
  revert acc. induction items as [| item items IH]; intros acc;
    cbn [Service.outfitLoop].
  - intros _ item f Hin. apply list_elem_of_filter in Hin as [_ Hin].
    apply elem_of_nil in Hin. contradiction.
  - destruct (Service.outfitStep rt acc item) as [acc1 | t'] eqn:Hstep;
      cbn [mbind result_bind]; [| discriminate].
    intros Hloop item' f Hin Hvalue.
    apply list_elem_of_filter in Hin as [Hc Hin].
    apply elem_of_cons in Hin as [-> | Hin].
    + revert Hstep. unfold Service.outfitStep. unfold Spec.contributes in Hc.
      destruct (hotspot item) as [h |]; [| discriminate Hc].
      rewrite Hvalue in Hc |- *.
      destruct (source item); [| discriminate Hc].
      destruct (Service.fileToPart rt f); [reflexivity | discriminate].
    + apply (IH acc1 Hloop item' f); [| exact Hvalue].
      apply list_elem_of_filter. split; assumption.
Qed.

(** C3, as the code has it. With a base image that can be encoded, the
    items that count are those that have a placement point and a usable
    value: a file for an uploaded item, a text that is not blank for a
    described one. When the file of every uploaded item among them can be
    encoded, the loop over the items ends normally and the instructions it
    leaves are those of these items, one instruction for each, in the
    order of the list, every other item being left out; the request
    carries these instructions after the base image and the garment
    images. When the file of one of them cannot be encoded, the operation
    fails with the failure of such an encoding and sends nothing. In both
    cases the operation fails with the no-valid-items error exactly when
    no item is of that kind, and then sends nothing. An item of that kind
    has a value and a placement point. *)
Theorem outfit_uses_placed_usable_items rt (originalImage : File) items (base : Part) :
  Service.fileToPart rt originalImage = Ok base →
  let usable := filter (λ i, Spec.contributes i = true) items in
  let done := Service.generateLayeredOutfit rt originalImage items in
  ((∀ item f, item ∈ usable → value item = Some (FileValue f) →
               is_Ok (Service.fileToPart rt f) = true) →
   ∃ acc,
     Service.outfitLoop rt (Service.mkOutfitParts 0 [] []) items = Ok acc
     ∧ Forall2 (Spec.describes rt) usable (Service.promptInstructions acc)
     ∧ (usable ≠ [] →
        done.1 = [PartsRequest Service.IMAGE_MODEL
                    ([base] ++ Service.garmentImageParts acc
                     ++ [Service.textPart
                           (Service.outfitPrompt (Service.promptInstructions acc))])]))
  ∧ ((∃ item f, item ∈ usable ∧ value item = Some (FileValue f)
                ∧ is_Ok (Service.fileToPart rt f) = false) →
     done.1 = []
     ∧ ∃ item f t, item ∈ usable ∧ value item = Some (FileValue f)
                   ∧ Service.fileToPart rt f = Throw t ∧ done.2 = Throw t)
  ∧ (done.2 = Throw Service.NO_VALID_ITEMS ↔ usable = [])
  ∧ (usable = [] → done.1 = [])
  ∧ (∀ item, item ∈ usable →
       item ∈ items ∧ truthy_value (value item) = true ∧ is_Some (hotspot item)).
Proof.
  intros Hbase usable done.
  assert (Hloop : ∀ acc,
             Service.outfitLoop rt (Service.mkOutfitParts 0 [] []) items = Ok acc →
             Forall2 (Spec.describes rt) usable (Service.promptInstructions acc)).
  { intros acc Hacc. destruct (outfitLoop_instructions rt items _ acc Hacc)
      as (added & Hadded & Hdesc). cbn in Hadded. rewrite Hadded. exact Hdesc. }
  assert (Hdone : done
                  = match Service.outfitLoop rt (Service.mkOutfitParts 0 [] []) items with
                    | Ok acc =>
                        if Nat.eqb (length (Service.promptInstructions acc)) 0
                        then ([], Throw Service.NO_VALID_ITEMS)
                        else
                          let request :=
                            PartsRequest Service.IMAGE_MODEL
                              ([base] ++ Service.garmentImageParts acc
                               ++ [Service.textPart
                                     (Service.outfitPrompt (Service.promptInstructions acc))]) in
                          ([request],
                           response ← await (generateContent rt 0 request);
                           Service.handleApiResponse response "layered-outfit")
                    | Throw t => ([], Throw t)
                    end).
  { unfold done, Service.generateLayeredOutfit. rewrite Hbase.
    unfold mbind at 1, Service.Remote_bind, Service.lift. cbn [app].
    destruct (Service.outfitLoop rt _ items) as [acc | t]; [| reflexivity].
    unfold mbind at 1. cbn [app].
    destruct (Nat.eqb _ 0); [reflexivity |].
    unfold mbind at 1, Service.send. cbn [app].
    destruct (await _) as [response | t]; cbn; [| reflexivity].
    destruct (Service.handleApiResponse response _); reflexivity. }
  split; [| split; [| split; [| split]]].
  - intros Hfiles.
    destruct (outfitLoop_succeeds rt items (Service.mkOutfitParts 0 [] [])) as [acc Hacc].
    { intros item f Hin Hc. apply Hfiles. apply list_elem_of_filter. split; assumption. }
    exists acc. split; [exact Hacc |]. split; [apply Hloop, Hacc |].
    intros Husable. rewrite Hdone, Hacc.
    pose proof (Hloop acc Hacc) as Hdesc.
    destruct (Service.promptInstructions acc) as [| instr instrs] eqn:Hinstrs.
    + apply Forall2_nil_inv_r in Hdesc. contradiction.
    + reflexivity.
  - intros (item & f & Hin & Hvalue & Hfails). rewrite Hdone.
    destruct (Service.outfitLoop rt _ items) as [acc | t] eqn:Hacc.
    + rewrite (outfitLoop_Ok_files rt items _ acc Hacc item f Hin Hvalue) in Hfails.
      discriminate Hfails.
    + split; [reflexivity |].
      destruct (outfitLoop_Throw rt items _ t Hacc) as (item' & f' & Hin' & Hvalue' & Hfile').
      exists item', f', t. repeat split; assumption.
  - rewrite Hdone. split.
    + intros Hthrow.
      destruct (Service.outfitLoop rt _ items) as [acc | t] eqn:Hacc.
      * pose proof (Hloop acc eq_refl) as Hdesc.
        destruct (Service.promptInstructions acc) as [| instr instrs].
        -- apply Forall2_nil_inv_r in Hdesc. exact Hdesc.
        -- exfalso. cbn in Hthrow.
           destruct (generateContent rt 0 _) as [response | [m |]]; cbn in Hthrow;
             [| discriminate ..].
           exact (handleApiResponse_not_no_valid_items _ _ _ _ Hthrow eq_refl).
      * exfalso. cbn in Hthrow. injection Hthrow as ->.
        exact (outfitLoop_not_no_valid_items rt items _ _ _ Hacc eq_refl).
    + intros Hnone.
      rewrite (outfitLoop_nothing_contributes rt items _ Hnone). reflexivity.
  - intros Hnone. rewrite Hdone.
    rewrite (outfitLoop_nothing_contributes rt items _ Hnone). reflexivity.
  - intros item Hitem. apply list_elem_of_filter in Hitem as [Hc Hin].
    split; [exact Hin |].
    unfold Spec.contributes in Hc. unfold truthy_value.
    destruct (hotspot item) as [h |]; [| discriminate].
    destruct (source item), (value item) as [[f | t] |]; try discriminate.
    + split; [reflexivity | eexists; reflexivity].
    + split; [| eexists; reflexivity].
      destruct t; [discriminate Hc | reflexivity].
Qed.

Lemma outfit_uses_placed_usable_items_witness :
  (∃ acc,
     Service.outfitLoop Sample.rt_ok (Service.mkOutfitParts 0 [] []) Sample.four_items
     = Ok acc
     ∧ length (Service.promptInstructions acc) = 2%nat)
  ∧ (Service.generateLayeredOutfit Sample.rt_ok Sample.A Sample.four_items).2
    = Ok "data:image/png;base64,IMG0"
  ∧ (Service.generateLayeredOutfit Sample.rt_ok Sample.A [Sample.blank_item]).2
    = Throw Service.NO_VALID_ITEMS
  ∧ (Service.generateLayeredOutfit Scenario.rt_garment_unreadable Sample.A
       Sample.four_items).1 = [].
Proof.
  destruct (outfit_uses_placed_usable_items Sample.rt_ok Sample.A Sample.four_items _
              eq_refl) as (Hends & _).
  destruct (outfit_uses_placed_usable_items Sample.rt_ok Sample.A [Sample.blank_item] _
              eq_refl) as (_ & _ & Hblank & _ & _).
  destruct (outfit_uses_placed_usable_items Scenario.rt_garment_unreadable Sample.A
              Sample.four_items _ eq_refl) as (_ & Hunreadable & _).
  split; [| split; [| split]].
  - destruct Hends as (acc & Hacc & Hdesc & _).
    { intros item f Hin Hfile.
      apply list_elem_of_filter in Hin as [_ Hin]. unfold Sample.four_items in Hin.
      repeat (apply elem_of_cons in Hin as [-> | Hin]; [try discriminate Hfile |]).
      - injection Hfile as <-. reflexivity.
      - injection Hfile as <-. reflexivity.
      - apply elem_of_nil in Hin. contradiction. }
    exists acc. split; [exact Hacc |].
    apply Forall2_length in Hdesc. rewrite <- Hdesc. vm_compute. reflexivity.
  - vm_compute. reflexivity.
  - apply Hblank. vm_compute. reflexivity.
  - apply Hunreadable.
    exists (mkItem 3 Shoes SourceUpload (Some (FileValue Sample.B))
              (Some (mkPoint 600 1500))), Sample.B.
    split; [| split; reflexivity].
    apply list_elem_of_filter. split; [reflexivity |].
    unfold Sample.four_items. rewrite !elem_of_cons. auto.
Defined.

(** C3 as stated fails on an item whose description is blank: the item has
    a value and a placement point, and passes the filter of
    [handleApplyOutfit], but it adds no instruction, and the operation
    fails with the no-valid-items error although one item has both
    fields. A user gets there by typing three spaces as the description,
    placing the item and applying the outfit. *)
Lemma blank_description_adds_no_instruction :
  truthy_value (value Sample.blank_item) = true
  ∧ is_Some (hotspot Sample.blank_item)
  ∧ filter (λ item, placed item) [Sample.blank_item] = [Sample.blank_item]
  ∧ Service.outfitLoop Sample.rt_ok (Service.mkOutfitParts 0 [] []) [Sample.blank_item]
    = Ok (Service.mkOutfitParts 0 [] [])
  ∧ Service.generateLayeredOutfit Sample.rt_ok Sample.A [Sample.blank_item]
    = ([], Throw Service.NO_VALID_ITEMS)
  ∧ clothingItems (run Sample.blank_outfit initial) = [Sample.blank_item]
  ∧ error (run Sample.blank_outfit initial)
    = Some "Failed to apply the outfit. No valid clothing items were provided to generate an outfit.".
Proof.
  split; [reflexivity |]. split; [eexists; reflexivity |].
  repeat split; vm_compute; reflexivity.
Qed.

End LayeredOutfit.

(** ** The cursor over whole sessions *)

Section Sessions.

Implicit Types (s : AppState) (rt : Runtime).

(** Every handler keeps the cursor on an entry of the history, or at -1
    when there is none. *)
Lemma cursor_valid_step rt (a : Action) s :
  cursor_valid s → cursor_valid (step rt a s).
Proof.
  intros Hs.
  destruct a as [file | file | now | | src | | panelImage posePrompt | index | | text
                | now index | | | | | | e | now category | target update | target
                | target | pressed |];
    cbn [step]; try exact Hs.
  - exact (cursor_valid_applyOp (HUpload file) s Hs).
  - exact (cursor_valid_applyOp (HUpload file) s Hs).
  - unfold handleApplyOutfit.
    destruct (currentImage s) as [image |]; [| exact Hs].
    destruct (length (filter _ (clothingItems s)) =? 0)%nat; [exact Hs |].
    destruct (Service.generateLayeredOutfit rt image _) as [sent [url | err]];
      cbn; [| exact Hs].
    destruct (dataURLtoFile rt url _) as [newImageFile | err]; cbn; [| exact Hs].
    exact (cursor_valid_applyOp (HAppend newImageFile) (setError None s) Hs).
  - unfold handleGenerate.
    destruct (currentImage s); [| exact Hs].
    destruct src as [contexts | background];
      match goal with
      | |- context [let '(_, _) := ?m in _] => destruct m as [sent [results | err]]
      end; exact Hs.
  - unfold handleGenerateMultiAngleViews.
    destruct (currentImage s); [| exact Hs].
    destruct (await _) as [[imgs caps] | err]; exact Hs.
  - unfold handleGenerateAnime.
    destruct (currentImage s); [| exact Hs].
    destruct (Service.generateAnimeTransformation _ _ _ _) as [sent [url | err]];
      exact Hs.
  - unfold handleOpenRefinementModal. destruct (variationResults s); exact Hs.
  - unfold handleCloseRefinementModal. destruct (isRefining s); exact Hs.
  - unfold handleRefineRequest.
    destruct (imageIndex (refinementState s)); [| exact Hs].
    destruct (variationResults s); [| exact Hs].
    destruct (_ || _); [exact Hs |].
    destruct (negb _); [exact Hs |].
    destruct (refineTarget _ _ _ _) as [sent [url | err]]; [| exact Hs].
    cbn. unfold handleCloseRefinementModal. cbn.
    destruct (isRefining s); exact Hs.
  - unfold handleSelectVariation.
    destruct (variationResults s); [| exact Hs].
    destruct (dataURLtoFile_opt _ _ _) as [newImageFile | err]; [| exact Hs].
    exact (cursor_valid_applyOp (HAppend newImageFile) s Hs).
  - exact (cursor_valid_applyOp HUndo s Hs).
  - exact (cursor_valid_applyOp HRedo s Hs).
  - exact (cursor_valid_applyOp HReset s Hs).
  - exact (cursor_valid_applyOp HUploadNew s Hs).
  - unfold handleImageClick. destruct (activeClothingItemId s); exact Hs.
  - unfold handleDeleteItem. destruct (bool_decide _); exact Hs.
Qed.

Lemma cursor_valid_run (session : list (Runtime * Action)) s :
  cursor_valid s → cursor_valid (run session s).
Proof.
  revert s. induction session as [| [rt a] session IH]; intros s Hs; [exact Hs |].
  cbn. apply IH, cursor_valid_step, Hs.
Qed.

End Sessions.

(** * Further properties of the code *)

(** ** Moving through the edit history *)

Section HistoryMoves.

Implicit Types (s : AppState) (rt : Runtime) (file image : File).

Lemma currentImage_lookup s image :
  currentImage s = Some image →
  history s !! Z.to_nat (historyIndex s) = Some image ∧ 0 ≤ historyIndex s.
Proof.
  unfold currentImage, Js.index.
  destruct (Z.ltb_spec (historyIndex s) 0) as [Hneg | Hpos]; [discriminate |].
  intros Hlook. split; [exact Hlook | exact Hpos].
Qed.

Lemma currentImage_at s (i : Z) :
  0 ≤ i → historyIndex s = i → currentImage s = history s !! Z.to_nat i.
Proof.
  intros Hi Hc. unfold currentImage, Js.index. rewrite Hc.
  destruct (Z.ltb_spec i 0) as [Hneg | _]; [lia | reflexivity].
Qed.

Lemma handleRedo_enabled s :
  historyIndex s < Z.of_nat (length (history s)) - 1 →
  history (handleRedo s) = history s
  ∧ historyIndex (handleRedo s) = historyIndex s + 1.
Proof.
  intros Hlt. unfold handleRedo, canRedo.
  destruct (Z.ltb_spec (historyIndex s) (Z.of_nat (length (history s)) - 1))
    as [_ | Hle]; [| lia].
  split; reflexivity.
Qed.

Lemma canRedo_false_iff s :
  canRedo s = false ↔ Z.of_nat (length (history s)) - 1 ≤ historyIndex s.
Proof. unfold canRedo. rewrite Z.ltb_ge. reflexivity. Qed.

Lemma canUndo_true_iff s : canUndo s = true ↔ 0 < historyIndex s.
Proof. unfold canUndo. rewrite Z.ltb_lt. reflexivity. Qed.

Lemma canRedo_true_iff s :
  canRedo s = true ↔ historyIndex s < Z.of_nat (length (history s)) - 1.
Proof. unfold canRedo. rewrite Z.ltb_lt. reflexivity. Qed.

(** A state whose history and cursor are those left by a new version. *)
Lemma moves_after_new_version file s s' image :
  currentImage s = Some image →
  history s' = history (addImageToHistory file s) →
  historyIndex s' = historyIndex (addImageToHistory file s) →
  currentImage s' = Some file
  ∧ canRedo s' = false
  ∧ canUndo s' = true
  ∧ currentImage (handleUndo s') = Some image
  ∧ currentImage (handleRedo (handleUndo s')) = Some file.
Proof.
  intros Himage Hsame_h Hsame_c.
  pose proof (currentImage_in_range s image Himage) as Hrange.
  destruct (currentImage_lookup s image Himage) as [Hlook _].
  destruct (addImageToHistory_on_valid_cursor file s Hrange) as [Hh Hc].
  rewrite <- Hsame_h in Hh. rewrite <- Hsame_c in Hc.
  assert (Hlen : Z.of_nat (length (history s')) = historyIndex s + 2).
  { rewrite Hh, length_app, length_take. change (length [file]) with 1%nat. lia. }
  assert (Hnew : history s' !! Z.to_nat (historyIndex s + 1) = Some file).
  { rewrite Hh. rewrite lookup_app_r by (rewrite length_take; lia).
    rewrite length_take.
    replace (Z.to_nat (historyIndex s + 1)
             - S (Z.to_nat (historyIndex s)) `min` length (history s))%nat
      with 0%nat by lia.
    reflexivity. }
  assert (Hold : history s' !! Z.to_nat (historyIndex s) = Some image).
  { rewrite Hh. rewrite lookup_app_l by (rewrite length_take; lia).
    rewrite lookup_take_lt by lia. exact Hlook. }
  destruct (handleUndo_enabled s') as [Hhu Hcu]; [lia |].
  destruct (handleRedo_enabled (handleUndo s')) as [Hhr Hcr]; [rewrite Hhu, Hcu; lia |].
  split; [rewrite (currentImage_at s' (historyIndex s + 1)) by lia; exact Hnew |].
  split; [apply canRedo_false_iff; lia |].
  split; [apply canUndo_true_iff; lia |].
  split.
  - rewrite (currentImage_at (handleUndo s') (historyIndex s)) by lia.
    rewrite Hhu. exact Hold.
  - rewrite (currentImage_at (handleRedo (handleUndo s')) (historyIndex s + 1)) by lia.
    rewrite Hhr, Hhu. exact Hnew.
Qed.

(** X1. After a new version of the current image is stored, the new
    version is the current image and there is nothing to redo; an undo
    shows the image that was edited, and a redo after it shows the new
    version again. *)
Theorem undo_shows_edited_image_redo_the_edit file s image :
  currentImage s = Some image →
  let s' := addImageToHistory file s in
  currentImage s' = Some file
  ∧ canRedo s' = false
  ∧ canUndo s' = true
  ∧ currentImage (handleUndo s') = Some image
  ∧ currentImage (handleRedo (handleUndo s')) = Some file.
Proof.
  intros Himage s'.
  exact (moves_after_new_version file s s' image Himage eq_refl eq_refl).
Qed.

Lemma undo_shows_edited_image_redo_the_edit_witness :
  let s' := addImageToHistory Sample.X Sample.history_ABC in
  currentImage (handleUndo s') = Some Sample.C
  ∧ currentImage (handleRedo (handleUndo s')) = Some Sample.X.
Proof.
  intros s'.
  destruct (undo_shows_edited_image_redo_the_edit Sample.X Sample.history_ABC Sample.C
              eq_refl) as (_ & _ & _ & Hundo & Hredo).
  split; [exact Hundo | exact Hredo].
Defined.

(** X2. With a valid cursor, a redo takes back an undo that moved the
    cursor and an undo takes back a redo that moved it: the history, the
    cursor and the current image are those before the pair. *)
Theorem undo_and_redo_are_inverse s :
  cursor_valid s →
  (canUndo s = true →
   history (handleRedo (handleUndo s)) = history s
   ∧ historyIndex (handleRedo (handleUndo s)) = historyIndex s
   ∧ currentImage (handleRedo (handleUndo s)) = currentImage s)
  ∧ (canRedo s = true →
     history (handleUndo (handleRedo s)) = history s
     ∧ historyIndex (handleUndo (handleRedo s)) = historyIndex s
     ∧ currentImage (handleUndo (handleRedo s)) = currentImage s).
Proof.
  intros Hv.
  assert (Hsame : ∀ t, history t = history s → historyIndex t = historyIndex s →
                       currentImage t = currentImage s).
  { intros t Hh Hc. unfold currentImage. rewrite Hh, Hc. reflexivity. }
  split.
  - intros Hcan. apply canUndo_true_iff in Hcan.
    destruct Hv as [[_ Hc] | [_ Hc]]; [lia |].
    destruct (handleUndo_enabled s Hcan) as [Hhu Hcu].
    destruct (handleRedo_enabled (handleUndo s)) as [Hhr Hcr]; [rewrite Hhu, Hcu; lia |].
    assert (Hh : history (handleRedo (handleUndo s)) = history s) by congruence.
    assert (Hi : historyIndex (handleRedo (handleUndo s)) = historyIndex s) by lia.
    split; [exact Hh |]. split; [exact Hi |]. apply Hsame; assumption.
  - intros Hcan. apply canRedo_true_iff in Hcan.
    destruct Hv as [[Hnil Hc] | [_ Hc]]; [rewrite Hnil in Hcan; cbn in Hcan; lia |].
    destruct (handleRedo_enabled s Hcan) as [Hhr Hcr].
    destruct (handleUndo_enabled (handleRedo s)) as [Hhu Hcu]; [lia |].
    assert (Hh : history (handleUndo (handleRedo s)) = history s) by congruence.
    assert (Hi : historyIndex (handleUndo (handleRedo s)) = historyIndex s) by lia.
    split; [exact Hh |]. split; [exact Hi |]. apply Hsame; assumption.
Qed.

Lemma undo_and_redo_are_inverse_witness :
  currentImage (handleRedo (handleUndo Sample.history_ABC)) = Some Sample.C
  ∧ historyIndex (handleUndo (handleRedo (handleUndo Sample.history_ABC))) = 1.
Proof.
  assert (Hv : cursor_valid Sample.history_ABC).
  { right. split; [discriminate | cbn; lia]. }
  assert (Hv' : cursor_valid (handleUndo Sample.history_ABC)).
  { right. split; [discriminate | cbn; lia]. }
  destruct (undo_and_redo_are_inverse Sample.history_ABC Hv) as [Hundo _].
  destruct (undo_and_redo_are_inverse (handleUndo Sample.history_ABC) Hv') as [_ Hredo].
  destruct (Hundo eq_refl) as (_ & _ & Himage).
  destruct (Hredo eq_refl) as (_ & Hcursor & _).
  split; [exact Himage | exact Hcursor].
Defined.

Lemma undo_many (n : nat) s :
  Z.of_nat n ≤ historyIndex s →
  history (Nat.iter n handleUndo s) = history s
  ∧ historyIndex (Nat.iter n handleUndo s) = historyIndex s - Z.of_nat n.
Proof.
  induction n as [| n IH]; intros Hn.
  - cbn. split; [reflexivity | lia].
  - destruct IH as [Hh Hc]; [lia |].
    cbn [Nat.iter nat_rect].
    destruct (handleUndo_enabled (Nat.iter n handleUndo s)) as [Hh' Hc']; [lia |].
    unfold Nat.iter in *. rewrite Hh', Hc', Hh, Hc. split; [reflexivity | lia].
Qed.

(** X3. With a valid cursor, a reset leaves the history and the cursor as
    undoing all the way back does: every version is kept, the cursor is on
    the first one, and the current image is the original. *)
Theorem reset_is_undo_to_the_original s :
  cursor_valid s →
  let back := Nat.iter (Z.to_nat (historyIndex s)) handleUndo s in
  history (handleReset s) = history s
  ∧ history back = history s
  ∧ historyIndex (handleReset s) = historyIndex back
  ∧ currentImage (handleReset s) = originalImage s.
Proof.
  intros Hv back.
  destruct Hv as [[Hnil Hc] | [Hne Hc]].
  - assert (Hback : back = s) by (unfold back; rewrite Hc; reflexivity).
    assert (Hreset : handleReset s = s) by (unfold handleReset; rewrite Hnil; reflexivity).
    rewrite Hback, Hreset. unfold currentImage, originalImage.
    rewrite Hnil, Hc. repeat split.
  - destruct (undo_many (Z.to_nat (historyIndex s)) s) as [Hh Hi]; [lia |].
    fold back in Hh, Hi.
    assert (Hreset : handleReset s
                     = setIsOutfitApplied false
                         (setDisplayHotspot None (setError None (setHistoryIndex 0 s)))).
    { unfold handleReset. destruct (history s); [contradiction | reflexivity]. }
    rewrite Hreset. cbn. rewrite Hh, Hi.
    split; [reflexivity |]. split; [reflexivity |]. split; [lia | reflexivity].
Qed.

Lemma reset_is_undo_to_the_original_witness :
  history (handleReset Sample.history_ABC) = [Sample.A; Sample.B; Sample.C]
  ∧ currentImage (handleReset Sample.history_ABC) = Some Sample.A.
Proof.
  assert (Hv : cursor_valid Sample.history_ABC).
  { right. split; [discriminate | cbn; lia]. }
  destruct (reset_is_undo_to_the_original Sample.history_ABC Hv) as (Hh & _ & _ & Hc).
  split; [exact Hh | exact Hc].
Defined.

End HistoryMoves.

(** ** What a session keeps *)

Section SessionInvariants.

Implicit Types (s : AppState) (rt : Runtime) (a : Action) (file image : File).


Lemma originalImage_head s : originalImage s = history s !! 0%nat.
Proof. reflexivity. Qed.

Lemma cursor_on_entry s :
  cursor_valid s → history s ≠ [] → 0 ≤ historyIndex s < Z.of_nat (length (history s)).
Proof. intros [[Hnil _] | [_ Hc]] Hne; [contradiction | lia]. Qed.




(** X5. Only an upload, an applied outfit, a selected variation, an
    undo, a redo, a reset and a fresh start write the history or its
    cursor: every other action leaves both as they were, whatever the
    environment answers. *)
Theorem history_written_by_few_actions rt a s :
  Notions.touches_history a = false →
  history (step rt a s) = history s
  ∧ historyIndex (step rt a s) = historyIndex s.
Proof.
  intros Ha.
  destruct a as [file | file | now | | src | | panelImage posePrompt | index | | text
                | now index | | | | | | e | now category | target update | target
                | target | pressed |];
    try discriminate Ha; cbn [step]; try (split; reflexivity).
  - unfold handleGenerate.
    destruct (currentImage s); [| split; reflexivity].
    destruct src as [contexts | background];
      match goal with
      | |- context [let '(_, _) := ?m in _] => destruct m as [sent [results | err]]
      end; split; reflexivity.
  - unfold handleGenerateMultiAngleViews.
    destruct (currentImage s); [| split; reflexivity].
    destruct (await _) as [[imgs caps] | err]; split; reflexivity.
  - unfold handleGenerateAnime.
    destruct (currentImage s); [| split; reflexivity].
    destruct (Service.generateAnimeTransformation _ _ _ _) as [sent [url | err]];
      split; reflexivity.
  - unfold handleOpenRefinementModal. destruct (variationResults s); split; reflexivity.
  - unfold handleCloseRefinementModal. destruct (isRefining s); split; reflexivity.
  - unfold handleRefineRequest.
    destruct (imageIndex (refinementState s)); [| split; reflexivity].
    destruct (variationResults s); [| split; reflexivity].
    destruct (_ || _); [split; reflexivity |].
    destruct (negb _); [split; reflexivity |].
    destruct (refineTarget _ _ _ _) as [sent [url | err]]; [| split; reflexivity].
    cbn. unfold handleCloseRefinementModal. cbn.
    destruct (isRefining s); split; reflexivity.
  - unfold handleImageClick. destruct (activeClothingItemId s); split; reflexivity.
  - unfold handleDeleteItem. destruct (bool_decide _); split; reflexivity.
Qed.

Lemma history_written_by_few_actions_witness :
  let s := run Sample.placing_item initial in
  history (step Sample.rt_ok (Generate (Contexts ["a beach at sunset"])) s) = [Sample.A].
Proof.
  intros s.
  destruct (history_written_by_few_actions Sample.rt_ok
              (Generate (Contexts ["a beach at sunset"])) s eq_refl) as [Hh _].
  rewrite Hh. reflexivity.
Defined.

Lemma started_has_history_step rt a s :
  (appStarted s = true → history s ≠ []) →
  appStarted (step rt a s) = true → history (step rt a s) ≠ [].
Proof.
  intros Hs.
  assert (Happend : ∀ f, Js.slice0 (history s) (historyIndex s + 1) ++ [f] ≠ []).
  { intros f Happ. apply app_eq_nil in Happ as [_ Hnil]. discriminate. }
  destruct a as [file | file | now | | src | | panelImage posePrompt | index | | text
                | now index | | | | | | e | now category | target update | target
                | target | pressed |];
    cbn [step]; try exact Hs.
  - intros _. discriminate.
  - intros _. discriminate.
  - unfold handleApplyOutfit.
    destruct (currentImage s) as [image |]; [| exact Hs].
    destruct (length (filter _ (clothingItems s)) =? 0)%nat; [exact Hs |].
    destruct (Service.generateLayeredOutfit rt image _) as [sent [url | err]];
      cbn; [| exact Hs].
    destruct (dataURLtoFile rt url _) as [newImageFile | err]; cbn; [| exact Hs].
    intros _. apply Happend.
  - unfold handleGenerate.
    destruct (currentImage s); [| exact Hs].
    destruct src as [contexts | background];
      match goal with
      | |- context [let '(_, _) := ?m in _] => destruct m as [sent [results | err]]
      end; exact Hs.
  - unfold handleGenerateMultiAngleViews.
    destruct (currentImage s); [| exact Hs].
    destruct (await _) as [[imgs caps] | err]; exact Hs.
  - unfold handleGenerateAnime.
    destruct (currentImage s); [| exact Hs].
    destruct (Service.generateAnimeTransformation _ _ _ _) as [sent [url | err]];
      exact Hs.
  - unfold handleOpenRefinementModal. destruct (variationResults s); exact Hs.
  - unfold handleCloseRefinementModal. destruct (isRefining s); exact Hs.
  - unfold handleRefineRequest.
    destruct (imageIndex (refinementState s)); [| exact Hs].
    destruct (variationResults s); [| exact Hs].
    destruct (_ || _); [exact Hs |].
    destruct (negb _); [exact Hs |].
    destruct (refineTarget _ _ _ _) as [sent [url | err]]; [| exact Hs].
    cbn. unfold handleCloseRefinementModal. cbn.
    destruct (isRefining s); exact Hs.
  - unfold handleSelectVariation.
    destruct (variationResults s); [| exact Hs].
    destruct (dataURLtoFile_opt _ _ _) as [newImageFile | err]; [| exact Hs].
    cbn. intros _. apply Happend.
  - unfold handleUndo. destruct (canUndo s); exact Hs.
  - unfold handleRedo. destruct (canRedo s); exact Hs.
  - unfold handleReset. destruct (_ <? _)%nat; exact Hs.
  - cbn. discriminate.
  - unfold handleImageClick. destruct (activeClothingItemId s); exact Hs.
  - unfold handleDeleteItem. destruct (bool_decide _); exact Hs.
Qed.

Lemma started_has_history_run (session : list (Runtime * Action)) s :
  (appStarted s = true → history s ≠ []) →
  appStarted (run session s) = true → history (run session s) ≠ [].
Proof.
  revert s. induction session as [| [rt a] session IH]; intros s Hs; [exact Hs |].
  cbn. apply IH, started_has_history_step, Hs.
Qed.

(** X6. In every state a session can reach from the first render, a
    started application has a current image. Once the effect that makes
    the object URL of the current image has run, the component therefore
    shows, past the landing page, the error, the results or the editor,
    and never the start screen of [renderContent]. *)
Theorem started_application_has_an_image
    (session : list (Runtime * Action)) (createObjectURL : File → string) :
  (∀ file, Js.truthy_string (createObjectURL file) = true) →
  let s := run session initial in
  (appStarted s = true → is_Some (currentImage s))
  ∧ View.screen (View.currentImageUrl createObjectURL s) s ≠ View.StartScreen.
Proof.
  intros Hurl s.
  assert (Himage : appStarted s = true → is_Some (currentImage s)).
  { intros Hstarted.
    assert (Hne : history s ≠ [])
      by (apply started_has_history_run; [discriminate | exact Hstarted]).
    assert (Hv : cursor_valid s) by apply cursor_valid_run, cursor_valid_initial.
    pose proof (cursor_on_entry s Hv Hne) as Hc.
    unfold currentImage, Js.index.
    destruct (Z.ltb_spec (historyIndex s) 0) as [Hneg | _]; [lia |].
    apply lookup_lt_is_Some. lia. }
  split; [exact Himage |].
  unfold View.screen, View.renderContent, View.currentImageUrl.
  destruct (appStarted s); [| discriminate].
  destruct (Js.truthy_opt_string (error s)); [discriminate |].
  destruct (variationResults s); [discriminate |].
  destruct (Himage eq_refl) as [image ->]. cbn. rewrite Hurl. discriminate.
Qed.

Lemma started_application_has_an_image_witness :
  let s := run Sample.placing_item initial in
  View.screen (View.currentImageUrl (λ file, "blob:" +:+ file_name file) s) s
  = View.EditorScreen "blob:A.png".
Proof.
  intros s.
  destruct (started_application_has_an_image Sample.placing_item
              (λ file, "blob:" +:+ file_name file)) as [Himage _];
    [reflexivity |].
  fold s in Himage. destruct (Himage eq_refl) as [image Hcurrent].
  unfold View.screen, View.renderContent, View.currentImageUrl.
  rewrite Hcurrent. vm_compute in Hcurrent. injection Hcurrent as <-. reflexivity.
Defined.

(** X7. An action that ends with an error message, in a state that had
    none, has changed nothing else of the project: the history and its
    cursor, the clothing items and the one being placed, the results, the
    outfit flag, the marker and the refinement dialog are as before. *)
Theorem failed_action_changes_nothing_else rt a s :
  error s = None → error (step rt a s) ≠ None →
  Notions.project (step rt a s) = Notions.project s.
Proof.
  intros Hnone.
  destruct a as [file | file | now | | src | | panelImage posePrompt | index | | text
                | now index | | | | | | e | now category | target update | target
                | target | pressed |];
    cbn [step]; try (cbn; congruence).
  - unfold handleApplyOutfit.
    destruct (currentImage s) as [image |]; [| reflexivity].
    destruct (length (filter _ (clothingItems s)) =? 0)%nat; [reflexivity |].
    destruct (Service.generateLayeredOutfit rt image _) as [sent [url | err]];
      cbn; [| reflexivity].
    destruct (dataURLtoFile rt url _) as [newImageFile | err]; cbn;
      [congruence | reflexivity].
  - unfold handleGenerate.
    destruct (currentImage s); [| reflexivity].
    destruct src as [contexts | background];
      match goal with
      | |- context [let '(_, _) := ?m in _] => destruct m as [sent [results | err]]
      end; cbn; first [congruence | reflexivity].
  - unfold handleGenerateMultiAngleViews.
    destruct (currentImage s); [| reflexivity].
    destruct (await _) as [[imgs caps] | err]; cbn; first [congruence | reflexivity].
  - unfold handleGenerateAnime.
    destruct (currentImage s); [| reflexivity].
    destruct (Service.generateAnimeTransformation _ _ _ _) as [sent [url | err]];
      cbn; first [congruence | reflexivity].
  - unfold handleOpenRefinementModal. destruct (variationResults s); cbn; congruence.
  - unfold handleCloseRefinementModal. destruct (isRefining s); cbn; congruence.
  - unfold handleRefineRequest.
    destruct (imageIndex (refinementState s)); [| reflexivity].
    destruct (variationResults s); [| reflexivity].
    destruct (_ || _); [reflexivity |].
    destruct (negb _); [reflexivity |].
    destruct (refineTarget _ _ _ _) as [sent [url | err]]; [| reflexivity].
    cbn. unfold handleCloseRefinementModal. cbn.
    destruct (isRefining s); cbn; congruence.
  - unfold handleSelectVariation.
    destruct (variationResults s); [| congruence].
    destruct (dataURLtoFile_opt _ _ _) as [newImageFile | err]; [| reflexivity].
    cbn. congruence.
  - unfold handleUndo. destruct (canUndo s); cbn; congruence.
  - unfold handleRedo. destruct (canRedo s); cbn; congruence.
  - unfold handleReset. destruct (_ <? _)%nat; cbn; congruence.
  - unfold handleImageClick. destruct (activeClothingItemId s); cbn; congruence.
  - unfold handleDeleteItem. destruct (bool_decide _); cbn; congruence.
Qed.

Lemma failed_action_changes_nothing_else_witness :
  let s := run Sample.placing_item initial in
  let s' := step Sample.rt_down (Generate (Contexts ["a beach at sunset"])) s in
  error s' = Some "Failed to generate variations. 503"
  ∧ Notions.project s' = Notions.project s.
Proof.
  intros s s'. split; [reflexivity |].
  apply (failed_action_changes_nothing_else Sample.rt_down
           (Generate (Contexts ["a beach at sunset"])) s); [reflexivity |].
  vm_compute. discriminate.
Defined.

End SessionInvariants.

(** ** Names and data URLs *)

Section DataUrls.

Implicit Types (rt : Runtime) (file : File) (sep : ascii) (t : string).

Lemma free_of_cons sep (c : ascii) t :
  Notions.free_of sep (String c t) = negb (Ascii.eqb c sep) && Notions.free_of sep t.
Proof. reflexivity. Qed.

Lemma free_of_app sep (a b : string) :
  Notions.free_of sep (a +:+ b) = Notions.free_of sep a && Notions.free_of sep b.
Proof.
  induction a as [| c a IH]; [reflexivity |].
  change (String c a +:+ b) with (String c (a +:+ b)).
  rewrite !free_of_cons, IH, andb_assoc. reflexivity.
Qed.

Lemma split_nonempty sep t : Text.split sep t ≠ [].
Proof.
  destruct t as [| c t]; cbn; [discriminate |].
  destruct (Ascii.eqb c sep); [discriminate |].
  destruct (Text.split sep t); discriminate.
Qed.

Lemma split_free sep t : Notions.free_of sep t = true → Text.split sep t = [t].
Proof.
  induction t as [| c t IH]; [reflexivity |].
  rewrite free_of_cons. intros [Hc Ht]%andb_true_iff.
  cbn. apply negb_true_iff in Hc. rewrite Hc, (IH Ht). reflexivity.
Qed.

Lemma split_app sep (a b : string) :
  Text.split sep (a +:+ String sep b) = Text.split sep a ++ Text.split sep b.
Proof.
  induction a as [| c a IH].
  - change (EmptyString +:+ String sep b) with (String sep b).
    cbn [Text.split]. rewrite Ascii.eqb_refl. reflexivity.
  - change (String c a +:+ String sep b) with (String c (a +:+ String sep b)).
    cbn [Text.split]. rewrite IH.
    destruct (Ascii.eqb c sep); [reflexivity |].
    pose proof (split_nonempty sep a) as Hne.
    destruct (Text.split sep a) as [| h rest]; [contradiction | reflexivity].
Qed.

Lemma join_cons_char (c : ascii) (sep h : string) (rest : list string) :
  Text.join sep (String c h :: rest) = String c (Text.join sep (h :: rest)).
Proof. destruct rest; reflexivity. Qed.

Lemma join_split sep t : Text.join (String sep EmptyString) (Text.split sep t) = t.
Proof.
  induction t as [| c t IH]; [reflexivity |].
  cbn [Text.split].
  pose proof (split_nonempty sep t) as Hne.
  destruct (Ascii.eqb_spec c sep) as [-> | Hc].
  - destruct (Text.split sep t) as [| h rest]; [contradiction |].
    change (Text.join (String sep EmptyString) (EmptyString :: h :: rest))
      with (String sep (Text.join (String sep EmptyString) (h :: rest))).
    rewrite IH. reflexivity.
  - destruct (Text.split sep t) as [| h rest]; [contradiction |].
    rewrite join_cons_char, IH. reflexivity.
Qed.

Lemma slice0_drop_last {A} (l : list A) (x : A) : Js.slice0 (l ++ [x]) (-1) = l.
Proof.
  unfold Js.slice0. rewrite length_app. change (length [x]) with 1%nat.
  change (-1 <? 0) with true. cbv iota.
  replace (Z.to_nat (Z.max (Z.of_nat (length l + 1) + -1) 0)) with (length l) by lia.
  apply take_app_length.
Qed.

Lemma chars_app (a b : string) : Js.chars (a +:+ b) = Js.chars a ++ Js.chars b.
Proof.
  induction a as [| c a IH]; [reflexivity |].
  change (Js.chars (String c a +:+ b)) with (c :: Js.chars (a +:+ b)).
  rewrite IH. reflexivity.
Qed.

Lemma unchars_chars t : Js.unchars (Js.chars t) = t.
Proof. apply String.string_of_list_ascii_of_string. Qed.

Lemma plain_byte_spec (c : ascii) :
  Notions.plain_byte c = true →
  Ascii.eqb c "," = false ∧ Ascii.eqb c ";" = false
  ∧ ∀ rest, Text.at_line_terminator (c :: rest) = false.
Proof.
  unfold Notions.plain_byte, Text.at_line_terminator.
  intros H. apply negb_true_iff in H.
  repeat (apply orb_false_iff in H as [H ?]).
  assert (Hne : ∀ n d, (nat_of_ascii c =? n)%nat = false → nat_of_ascii d = n →
                       Ascii.eqb c d = false).
  { intros n d Hn Hd. apply Ascii.eqb_neq. intros ->. apply Nat.eqb_neq in Hn.
    contradiction. }
  split; [apply (Hne 44%nat); [assumption | reflexivity] |].
  split; [apply (Hne 59%nat); [assumption | reflexivity] |].
  intros rest.
  repeat match goal with
         | Heq : (nat_of_ascii c =? _)%nat = false |- _ => rewrite Heq; clear Heq
         end.
  cbn. destruct rest as [| ? [| ? ?]]; reflexivity.
Qed.

Lemma until_semicolon_plain (m rest : list ascii) :
  forallb Notions.plain_byte m = true →
  Text.until_semicolon (m ++ ";"%char :: rest) = Some m.
Proof.
  induction m as [| c m IH]; [reflexivity |].
  cbn [forallb]. intros [Hc Hm]%andb_true_iff.
  destruct (plain_byte_spec c Hc) as (_ & Hsemi & Hline).
  cbn [app Text.until_semicolon]. rewrite Hsemi, Hline, (IH Hm). reflexivity.
Qed.

Lemma mime_match_header (mime : string) :
  forallb Notions.plain_byte (Js.chars mime) = true →
  Text.mime_match ("data:" +:+ mime +:+ ";base64") = Some mime.
Proof.
  intros Hplain. unfold Text.mime_match.
  change (Js.chars ("data:" +:+ mime +:+ ";base64"))
    with ("d"%char :: "a"%char :: "t"%char :: "a"%char :: ":"%char
          :: Js.chars (mime +:+ ";base64")).
  rewrite chars_app.
  change (Js.chars ";base64") with (";"%char :: Js.chars "base64").
  cbn [Text.match_colon Ascii.eqb Bool.eqb].
  rewrite until_semicolon_plain by exact Hplain.
  cbn. rewrite unchars_chars. reflexivity.
Qed.

Lemma plain_is_comma_free (mime : string) :
  forallb Notions.plain_byte (Js.chars mime) = true → Notions.free_of "," mime = true.
Proof.
  unfold Notions.free_of. induction (Js.chars mime) as [| c l IH]; [reflexivity |].
  cbn [forallb]. intros [Hc Hl]%andb_true_iff.
  destruct (plain_byte_spec c Hc) as (Hcomma & _).
  rewrite Hcomma, (IH Hl). reflexivity.
Qed.

(** The two pieces the code takes from a data URL. *)
Lemma split_dataUrl (mime payload : string) :
  Notions.mime_safe mime = true → Notions.free_of "," payload = true →
  Text.split "," (Notions.dataUrl mime payload) = ["data:" +:+ mime +:+ ";base64"; payload]
  ∧ Text.mime_match ("data:" +:+ mime +:+ ";base64") = Some mime
  ∧ Js.truthy_string mime = true.
Proof.
  unfold Notions.mime_safe. intros [Htruthy Hplain]%andb_true_iff Hpayload.
  split; [| split; [apply mime_match_header, Hplain | exact Htruthy]].
  assert (Hshape : Notions.dataUrl mime payload
                   = ("data:" +:+ mime +:+ ";base64") +:+ String "," payload).
  { unfold Notions.dataUrl. rewrite !string_app_assoc. reflexivity. }
  rewrite Hshape, split_app, (split_free _ payload Hpayload).
  rewrite split_free; [reflexivity |].
  rewrite !free_of_app, (plain_is_comma_free mime Hplain). reflexivity.
Qed.

Lemma File_type_lower_printable (t : string) :
  forallb Notions.lower_printable (Js.chars t) = true → Js.File_type t = t.
Proof.
  intros Hall. unfold Js.File_type.
  assert (Hboth : forallb Js.printable (Js.chars t) = true
                  ∧ Js.lower <$> Js.chars t = Js.chars t).
  { induction (Js.chars t) as [| c l IH]; [split; reflexivity |].
    cbn [forallb] in Hall. apply andb_true_iff in Hall as [Hc Hl].
    destruct (IH Hl) as [Hprintable Hlower].
    unfold Notions.lower_printable in Hc.
    apply andb_true_iff in Hc as [Hrange Hupper].
    apply negb_true_iff in Hupper.
    split.
    - cbn [forallb]. unfold Js.printable at 1. rewrite Hrange, Hprintable. reflexivity.
    - rewrite fmap_cons, Hlower. unfold Js.lower. rewrite Hupper. reflexivity. }
  destruct Hboth as [-> ->]. apply unchars_chars.
Qed.

Lemma File_type_unprintable (t : string) :
  existsb Notions.unprintable (Js.chars t) = true → Js.File_type t = EmptyString.
Proof.
  intros Hsome. unfold Js.File_type.
  assert (Hnot : forallb Js.printable (Js.chars t) = false).
  { induction (Js.chars t) as [| c l IH]; [discriminate Hsome |].
    cbn [existsb] in Hsome. cbn [forallb].
    apply orb_true_iff in Hsome as [Hc | Hl];
      [| rewrite (IH Hl); apply andb_false_r].
    unfold Notions.unprintable in Hc. unfold Js.printable.
    apply orb_true_iff in Hc as [Hlow | Hhigh].
    - apply Nat.ltb_lt in Hlow.
      destruct (Nat.leb_spec 32 (nat_of_ascii c)) as [Hle | _]; [lia | reflexivity].
    - apply Nat.ltb_lt in Hhigh.
      destruct (Nat.leb_spec (nat_of_ascii c) 126) as [Hle | _]; [lia |].
      rewrite andb_false_r. reflexivity. }
  rewrite Hnot. reflexivity.
Qed.

(** X8. The image of a response without block reason, that of the first
    part with inline data of the first candidate, with a media type of
    plain bytes and a payload without a comma, is given back as the data
    URL
    [data:<type>;base64,<payload>], and [dataURLtoFile] makes of that URL
    the file of the given name whose bytes are the decoded payload and
    whose type is the one the [File] constructor keeps: the media type
    with its letters in lower case, which is the media type itself when
    it has no upper-case letter and only characters of U+0020..U+007E,
    and the empty text when it has a character outside that range. It
    fails only if the decoding does. *)
Theorem returned_image_becomes_a_file
    rt (response : GenerateContentResponse) (before after : list Part) (part : Part)
    (context mime payload filename : string) :
  unblocked response →
  partsOfCandidate (firstCandidateOf response) = before ++ part :: after →
  Forall (λ p, inlineData p = None) before →
  inlineData part = Some (mkBlob (Some mime) (Some payload)) →
  Notions.mime_safe mime = true →
  Notions.free_of "," payload = true →
  Service.handleApiResponse response context = Ok (Notions.dataUrl mime payload)
  ∧ dataURLtoFile rt (Notions.dataUrl mime payload) filename
    = (bstr ← await (atob rt payload); Ok (mkFile filename (Js.File_type mime) bstr))
  ∧ (forallb Notions.lower_printable (Js.chars mime) = true → Js.File_type mime = mime)
  ∧ (existsb Notions.unprintable (Js.chars mime) = true →
     Js.File_type mime = EmptyString)
  ∧ Js.File_type "image/PNG" = "image/png".
Proof.
  intros Hfree Hparts Hbefore Hpart Hmime Hpayload.
  pose proof (unblocked_falsy response Hfree) as Hblock.
  pose proof (inlineImageOf_first response before after part _ Hparts Hbefore Hpart)
    as Himage.
  destruct (split_dataUrl mime payload Hmime Hpayload) as (Hsplit & Hmatch & Htruthy).
  split; [| split; [| split; [| split]]].
  - unfold Service.handleApiResponse. rewrite Hblock, Himage. reflexivity.
  - unfold dataURLtoFile. rewrite Hsplit, Hmatch, Htruthy. reflexivity.
  - apply File_type_lower_printable.
  - apply File_type_unprintable.
  - reflexivity.
Qed.

Lemma returned_image_becomes_a_file_witness :
  (url ← Service.handleApiResponse (Sample.imageResponse "aGVsbG8=") "refinement";
   dataURLtoFile Sample.rt_ok url "look.png")
  = Ok (mkFile "look.png" "image/png" "aGVsbG8=")
  ∧ dataURLtoFile Sample.rt_ok "data:image/PNG;base64,aGVsbG8=" "look.png"
    = Ok (mkFile "look.png" "image/png" "aGVsbG8=").
Proof.
  destruct (returned_image_becomes_a_file Sample.rt_ok (Sample.imageResponse "aGVsbG8=")
              [] [] (mkPart (Some (mkBlob (Some "image/png") (Some "aGVsbG8="))) None)
              "refinement" "image/png" "aGVsbG8=" "look.png"
              I eq_refl ltac:(constructor) eq_refl eq_refl eq_refl)
    as (Hurl & Hfile & Hsame & _).
  destruct (returned_image_becomes_a_file Sample.rt_ok
              (mkResponse None
                 (Some [mkCandidate
                          (Some (mkContent
                                   (Some [mkPart (Some (mkBlob (Some "image/PNG")
                                                          (Some "aGVsbG8="))) None])))
                          (Some "STOP")])
                 None)
              [] [] (mkPart (Some (mkBlob (Some "image/PNG") (Some "aGVsbG8="))) None)
              "refinement" "image/PNG" "aGVsbG8=" "look.png"
              I eq_refl ltac:(constructor) eq_refl eq_refl eq_refl)
    as (_ & Hupper & _ & _ & Hlower).
  split.
  - rewrite Hurl. cbn [mbind result_bind]. rewrite Hfile, (Hsame eq_refl). reflexivity.
  - change "data:image/PNG;base64,aGVsbG8=" with (Notions.dataUrl "image/PNG" "aGVsbG8=").
    rewrite Hupper, Hlower. reflexivity.
Defined.

(** X9. [fileToPart] reads the file itself when its type is one of the
    five supported ones and its PNG conversion otherwise; when the browser
    reads that file as [data:<type>;base64,<payload>], the part carries
    this type and this payload, and when what it reads has no comma the
    operation fails as an invalid data URL. *)
Theorem part_carries_type_and_payload rt file (processed : File) :
  (Service.includes Service.SUPPORTED_MIME_TYPES (file_type file) = true ∧ processed = file)
  ∨ (Service.includes Service.SUPPORTED_MIME_TYPES (file_type file) = false
     ∧ Service.convertImageToPNG rt file = Ok processed) →
  (∀ mime payload,
     readAsDataURL rt processed = Fulfilled (Notions.dataUrl mime payload) →
     Notions.mime_safe mime = true → Notions.free_of "," payload = true →
     Service.fileToPart rt file
     = Ok (mkPart (Some (mkBlob (Some mime) (Some payload))) None))
  ∧ (∀ url,
       readAsDataURL rt processed = Fulfilled url → Notions.free_of "," url = true →
       Service.fileToPart rt file = Throw (JsError EncodingError "Invalid data URL")).
Proof.
  intros Hprocessed.
  assert (Hread :
             Service.fileToPart rt file
             = (dataUrl ← await (readAsDataURL rt processed);
                match Text.split "," dataUrl with
                | arr0 :: arr1 :: _ =>
                    match Text.mime_match arr0 with
                    | Some mime =>
                        if Js.truthy_string mime
                        then Ok (mkPart (Some (mkBlob (Some mime) (Some arr1))) None)
                        else Throw (JsError EncodingError
                                      "Could not parse MIME type from data URL")
                    | None => Throw (JsError EncodingError
                                       "Could not parse MIME type from data URL")
                    end
                | _ => Throw (JsError EncodingError "Invalid data URL")
                end)).
  { unfold Service.fileToPart.
    destruct Hprocessed as [[-> ->] | [-> ->]]; reflexivity. }
  split.
  - intros mime payload Hurl Hmime Hpayload.
    destruct (split_dataUrl mime payload Hmime Hpayload) as (Hsplit & Hmatch & Htruthy).
    rewrite Hread, Hurl. cbn [await mbind result_bind].
    rewrite Hsplit, Hmatch, Htruthy. reflexivity.
  - intros url Hurl Hfree.
    rewrite Hread, Hurl. cbn [await mbind result_bind].
    rewrite (split_free _ url Hfree). reflexivity.
Qed.

Lemma part_carries_type_and_payload_witness :
  Service.fileToPart Sample.rt_ok (mkFile "scan.bmp" "image/bmp" "Qk0=")
  = Ok (mkPart (Some (mkBlob (Some "image/png") (Some "PNG"))) None).
Proof.
  destruct (part_carries_type_and_payload Sample.rt_ok
              (mkFile "scan.bmp" "image/bmp" "Qk0=") (mkFile "scan.png" "image/png" "PNG"))
    as [Hpart _].
  - right. split; reflexivity.
  - apply Hpart; reflexivity.
Defined.

(** X10. The PNG conversion names its file after the source: the text
    before the last dot followed by [.png]; when there is no dot, or
    nothing before the only dots, the whole name followed by [.png]. The
    type is [image/png] and the bytes are those the canvas gives. *)
Theorem converted_file_is_named_after_source rt file (blob : string) :
  renderPNG rt file = Fulfilled blob →
  (∀ stem ext : string,
     file_name file = stem +:+ "." +:+ ext → Notions.free_of "." ext = true →
     Service.convertImageToPNG rt file
     = Ok (mkFile ((if Js.truthy_string stem then stem else file_name file) +:+ ".png")
             "image/png" blob))
  ∧ (Notions.free_of "." (file_name file) = true →
     Service.convertImageToPNG rt file
     = Ok (mkFile (file_name file +:+ ".png") "image/png" blob)).
Proof.
  intros Hrender. unfold Service.convertImageToPNG. rewrite Hrender.
  cbn [await mbind result_bind]. split.
  - intros stem ext Hname Hext.
    assert (Hstem : Text.join "." (Js.slice0 (Text.split "." (file_name file)) (-1)) = stem).
    { rewrite Hname.
      change (stem +:+ "." +:+ ext) with (stem +:+ String "." ext).
      rewrite split_app, (split_free _ ext Hext), slice0_drop_last.
      apply join_split. }
    rewrite Hstem. reflexivity.
  - intros Hfree. rewrite (split_free _ _ Hfree). reflexivity.
Qed.

Lemma converted_file_is_named_after_source_witness :
  Service.convertImageToPNG Sample.rt_ok (mkFile "my.holiday.photo.tiff" "image/tiff" "SUk=")
  = Ok (mkFile "my.holiday.photo.png" "image/png" "PNG")
  ∧ Service.convertImageToPNG Sample.rt_ok (mkFile ".tiff" "image/tiff" "SUk=")
    = Ok (mkFile ".tiff.png" "image/png" "PNG")
  ∧ Service.convertImageToPNG Sample.rt_ok (mkFile "photo" "image/tiff" "SUk=")
    = Ok (mkFile "photo.png" "image/png" "PNG").
Proof.
  destruct (converted_file_is_named_after_source Sample.rt_ok
              (mkFile "my.holiday.photo.tiff" "image/tiff" "SUk=") "PNG" eq_refl)
    as [Hdots _].
  destruct (converted_file_is_named_after_source Sample.rt_ok
              (mkFile ".tiff" "image/tiff" "SUk=") "PNG" eq_refl) as [Hhidden _].
  destruct (converted_file_is_named_after_source Sample.rt_ok
              (mkFile "photo" "image/tiff" "SUk=") "PNG" eq_refl) as [_ Hplain].
  split; [| split].
  - exact (Hdots "my.holiday.photo" "tiff" eq_refl eq_refl).
  - exact (Hhidden EmptyString "tiff" eq_refl eq_refl).
  - exact (Hplain eq_refl).
Defined.

End DataUrls.

(** ** Captions and generated scenes *)

Section Generation.

Implicit Types (rt : Runtime) (s : AppState) (image : File).

(** X11. The captions operation sends one request. When the request is
    rejected the operation fails with that rejection, the built-in
    captions being kept for unreadable answers only; when the text of the
    answer parses to an object whose [captions] is an array, the result is
    that array as it is, whatever it holds and even when it is empty. *)
Theorem captions_are_those_of_the_answer
    rt (clothingPrompt : string) (contexts : list string) :
  let request :=
    JsonRequest Service.TEXT_MODEL (Service.captionsPrompt clothingPrompt contexts) in
  let done := Service.generateCaptions rt clothingPrompt contexts in
  done.1 = [request]
  ∧ (∀ message, generateContent rt 0 request = Rejected message →
                done.2 = Throw (thrown_of message))
  ∧ (∀ response text fields elements,
       generateContent rt 0 request = Fulfilled response →
       response_text response = Some text →
       JSON_parse rt (Js.trim text) = Some (JObject fields) →
       JsValues.field "captions" fields = Some (JArray elements) →
       done.2 = Ok elements).
Proof.
  intros request done. unfold done, Service.generateCaptions, Service.send.
  fold request.
  split; [destruct (generateContent rt 0 request); reflexivity |].
  split.
  - intros message ->. reflexivity.
  - intros response text fields elements -> Htext Hparse Hfield.
    cbn. unfold Service.captionsOf, Service.readCaptions.
    rewrite Htext, Hparse. cbn. rewrite Hfield. reflexivity.
Qed.

Lemma captions_are_those_of_the_answer_witness :
  (Service.generateCaptions (Scenario.rt_captions []) "a straw hat" ["a beach"]).2 = Ok []
  ∧ (Service.generateCaptions Scenario.rt_no_captions "a straw hat" ["a beach"]).2
    = Throw (JsError ExternalError "429").
Proof.
  destruct (captions_are_those_of_the_answer (Scenario.rt_captions []) "a straw hat"
              ["a beach"]) as (_ & _ & Hparsed).
  destruct (captions_are_those_of_the_answer Scenario.rt_no_captions "a straw hat"
              ["a beach"]) as (_ & Hrejected & _).
  split.
  - exact (Hparsed _ " {...} " _ [] eq_refl eq_refl eq_refl eq_refl).
  - exact (Hrejected (Some "429") eq_refl).
Defined.

Lemma generateVariations_Ok_length rt image (contexts : list string) sent (urls : list string) :
  Service.generateVariations rt image contexts = (sent, Ok urls) →
  length urls = length contexts.
Proof.
  unfold Service.generateVariations.
  destruct (length contexts <? 1)%nat; [discriminate |].
  destruct (Service.fileToPart rt image) as [part | err] eqn:Hpart; [| discriminate].
  assert (Hdone :
            (sourceImagePart ← Service.lift (Ok part);
             (concat (fst <$> imap (Service.variation rt sourceImagePart) contexts),
              Service.Promise_all rt
                (snd <$> imap (Service.variation rt sourceImagePart) contexts)))
            = (concat (fst <$> imap (Service.variation rt part) contexts),
               Service.Promise_all rt
                 (snd <$> imap (Service.variation rt part) contexts))).
  { cbn [mbind Service.Remote_bind Service.lift app].
    destruct (Service.Promise_all _ _); reflexivity. }
  rewrite Hdone. intros [= _ Hall].
  apply Promise_all_Ok_inv, Forall2_length in Hall.
  rewrite <- Hall, length_fmap.
  exact (length_imap (Service.variation rt part) contexts).
Qed.

Lemma generateSceneFromImage_Ok_length rt image (background : File) sent (urls : list string) :
  Service.generateSceneFromImage rt image background = (sent, Ok urls) →
  length urls = 1%nat.
Proof.
  unfold Service.generateSceneFromImage.
  destruct (Service.fileToPart rt image) as [part1 | err]; [| discriminate].
  destruct (Service.fileToPart rt background) as [part2 | err]; [| discriminate].
  cbn. destruct (generateContent rt 0 _) as [response | m]; [| discriminate].
  cbn. destruct (Service.handleApiResponse response _) as [url | err]; [| discriminate].
  cbn. intros [= _ <-]. reflexivity.
Qed.

(** X12. A generation that ends without an error message, from a state
    that has a current image, has stored a result set with one image for
    each context, or one image for a background, no slot of the list being
    empty; the items, the history and its cursor are as before. *)
Theorem generation_stores_an_image_per_context rt (source : GenerateSource) s image :
  currentImage s = Some image →
  let s' := (handleGenerate rt source s).1 in
  error s' = None →
  ∃ results,
    variationResults s' = Some results
    ∧ length (images results)
      = match source with
        | Contexts contexts => length contexts
        | Background _ => 1%nat
        end
    ∧ Forall (λ slot, is_Some slot) (images results)
    ∧ clothingItems s' = clothingItems s
    ∧ history s' = history s
    ∧ historyIndex s' = historyIndex s.
Proof.
  intros Himage s'. unfold s', handleGenerate. rewrite Himage.
  assert (Hslots : ∀ urls : list string, Forall (λ slot, is_Some slot) (Some <$> urls)).
  { intros urls. apply Forall_fmap, Forall_forall. intros url _. cbn. eauto. }
  destruct source as [contexts | background].
  - destruct (Service.generateVariations rt image contexts) as [sent [urls | err]] eqn:Hgen;
      [| cbn; discriminate].
    apply generateVariations_Ok_length in Hgen.
    destruct (Service.generateCaptions rt _ contexts) as [sent' [caps | err]];
      cbn; [| discriminate].
    intros _. eexists. split; [reflexivity |]. cbn.
    rewrite length_fmap. repeat split; [exact Hgen | apply Hslots].
  - destruct (Service.generateSceneFromImage rt image background)
      as [sent [urls | err]] eqn:Hgen; [| cbn; discriminate].
    apply generateSceneFromImage_Ok_length in Hgen.
    destruct (Service.generateCaptions rt _ _) as [sent' [caps | err]];
      cbn; [| discriminate].
    intros _. eexists. split; [reflexivity |]. cbn.
    rewrite length_fmap. repeat split; [exact Hgen | apply Hslots].
Qed.

Lemma generation_stores_an_image_per_context_witness :
  ∃ results,
    variationResults
      (handleGenerate Sample.rt_ok (Contexts ["a beach"; "a forest"; "a street"])
         Scenario.uploaded).1 = Some results
    ∧ length (images results) = 3%nat.
Proof.
  destruct (generation_stores_an_image_per_context Sample.rt_ok
              (Contexts ["a beach"; "a forest"; "a street"]) Scenario.uploaded Sample.A
              eq_refl eq_refl) as (results & Hresults & Hlength & _).
  exists results. split; [exact Hresults | exact Hlength].
Defined.

(** X13. When every image of a generation has come back and the captions
    request is then rejected, the images are dropped: the result set is as
    it was before, the error message is that of the rejection, and the
    requests for the images have been sent all the same. *)
Theorem rejected_captions_drop_the_images
    rt (contexts : list string) s image sent (urls : list string) message :
  currentImage s = Some image →
  Service.generateVariations rt image contexts = (sent, Ok urls) →
  let request :=
    JsonRequest Service.TEXT_MODEL
      (Service.captionsPrompt (Text.join ", " (itemLabel <$> clothingItems s)) contexts) in
  generateContent rt 0 request = Rejected message →
  let done := handleGenerate rt (Contexts contexts) s in
  variationResults done.1 = variationResults s
  ∧ error done.1 = failure "Failed to generate variations. " (thrown_of message)
  ∧ done.2 = sent ++ [request].
Proof.
  intros Himage Hgen request Hrejected done.
  unfold done, handleGenerate. rewrite Himage, Hgen.
  unfold Service.generateCaptions, Service.send. fold request. rewrite Hrejected.
  cbn. repeat split.
Qed.

Lemma rejected_captions_drop_the_images_witness :
  let done :=
    handleGenerate Scenario.rt_no_captions (Contexts ["a beach"; "a forest"])
      Scenario.uploaded in
  variationResults done.1 = None
  ∧ error done.1 = Some "Failed to generate variations. 429"
  ∧ length done.2 = 3%nat.
Proof.
  intros done.
  destruct (rejected_captions_drop_the_images Scenario.rt_no_captions
              ["a beach"; "a forest"] Scenario.uploaded Sample.A
              _ _ (Some "429") eq_refl eq_refl eq_refl) as (Hresults & Herror & Hsent).
  fold done in Hresults, Herror, Hsent.
  split; [exact Hresults |]. split; [exact Herror |].
  rewrite Hsent. reflexivity.
Defined.

End Generation.

(** ** The garment images of an outfit *)

Section Garments.

Implicit Types (rt : Runtime) (item : ClothingItem) (acc : Service.OutfitParts).

Lemma uploaded_contributes item :
  Notions.uploaded item = true → Spec.contributes item = true.
Proof. unfold Notions.uploaded. intros [H _]%andb_true_iff. exact H. Qed.

Lemma outfitStep_uploaded rt acc acc' item :
  Notions.uploaded item = true →
  Service.outfitStep rt acc item = Ok acc' →
  ∃ f h part,
    value item = Some (FileValue f) ∧ hotspot item = Some h
    ∧ Service.fileToPart rt f = Ok part
    ∧ acc' = Service.mkOutfitParts
               (S (Service.garmentImageCounter acc))
               (Service.garmentImageParts acc ++ [part])
               (Service.promptInstructions acc
                ++ [Notions.garmentInstruction rt (S (Service.garmentImageCounter acc)) item h]).
Proof.
  unfold Notions.uploaded, Spec.contributes, Service.outfitStep.
  destruct (hotspot item) as [h |]; [| discriminate].
  destruct (source item), (value item) as [[f | t] |]; try discriminate.
  - intros _. destruct (Service.fileToPart rt f) as [part |] eqn:Hpart;
      cbn [mbind result_bind]; [| discriminate].
    intros [= <-]. exists f, h, part. repeat split. exact Hpart.
  - rewrite andb_false_r. discriminate.
Qed.

Lemma outfitStep_described rt acc acc' item :
  Spec.contributes item = true → Notions.uploaded item = false →
  Service.outfitStep rt acc item = Ok acc' →
  Service.garmentImageCounter acc' = Service.garmentImageCounter acc
  ∧ Service.garmentImageParts acc' = Service.garmentImageParts acc
  ∧ ∃ instruction,
      Service.promptInstructions acc' = Service.promptInstructions acc ++ [instruction].
Proof.
  unfold Notions.uploaded. intros Hc. rewrite Hc. revert Hc.
  unfold Spec.contributes, Service.outfitStep.
  destruct (hotspot item) as [h |]; [| discriminate].
  destruct (source item), (value item) as [[f | t] |]; try discriminate.
  intros -> _ [= <-]. cbn. eauto.
Qed.

Lemma outfitLoop_garments rt (items : list ClothingItem) acc acc' :
  Service.outfitLoop rt acc items = Ok acc' →
  ∃ added instructions,
    Service.garmentImageParts acc' = Service.garmentImageParts acc ++ added
    ∧ Service.promptInstructions acc' = Service.promptInstructions acc ++ instructions
    ∧ Service.garmentImageCounter acc' = (Service.garmentImageCounter acc + length added)%nat
    ∧ Forall2 (λ item part, ∃ f, value item = Some (FileValue f)
                                 ∧ Service.fileToPart rt f = Ok part)
        (filter (λ i, Notions.uploaded i = true) items) added
    ∧ ∀ (j : nat) item h,
        filter (λ i, Spec.contributes i = true) items !! j = Some item →
        Notions.uploaded item = true → hotspot item = Some h →
        instructions !! j
        = Some (Notions.garmentInstruction rt
                  (S (Service.garmentImageCounter acc
                      + length (filter (λ i, Notions.uploaded i = true)
                                  (take j (filter (λ i, Spec.contributes i = true) items)))))
                  item h).
Proof.
  revert acc. induction items as [| item items IH]; intros acc; cbn [Service.outfitLoop].
  - intros [= <-]. exists [], [].
    rewrite !app_nil_r, Nat.add_0_r. repeat split; [constructor |].
    intros j it h Hj. discriminate Hj.
  - destruct (Service.outfitStep rt acc item) as [acc1 |] eqn:Hstep;
      cbn [mbind result_bind]; [| discriminate].
    intros Hloop.
    destruct (IH acc1 Hloop) as (added & instructions & Hparts & Hins & Hcount & Hfiles & Hnum).
    rewrite !filter_cons.
    destruct (decide (Notions.uploaded item = true)) as [Hup | Hup].
    + (* an uploaded garment *)
      destruct (decide (Spec.contributes item = true)) as [_ | Hc];
        [| contradiction Hc; apply uploaded_contributes, Hup].
      destruct (outfitStep_uploaded rt acc acc1 item Hup Hstep)
        as (f & h & part & Hvalue & Hspot & Hpart & ->).
      cbn [Service.garmentImageParts Service.promptInstructions
           Service.garmentImageCounter] in Hparts, Hins, Hcount, Hnum.
      exists (part :: added), (Notions.garmentInstruction rt (S (Service.garmentImageCounter acc)) item h
                               :: instructions).
      split; [rewrite Hparts, <- app_assoc; reflexivity |].
      split; [rewrite Hins, <- app_assoc; reflexivity |].
      split; [rewrite Hcount; cbn [length]; lia |].
      split; [constructor; [exists f; split; assumption | exact Hfiles] |].
      intros [| j] it h' Hj Hit Hh'.
      * injection Hj as <-. rewrite Hspot in Hh'. injection Hh' as <-.
        cbn [take filter list_filter length lookup list_lookup]. rewrite Nat.add_0_r.
        reflexivity.
      * cbn [lookup list_lookup] in Hj.
        pose proof (Hnum j it h' Hj Hit Hh') as Hthis.
        cbn [take]. rewrite filter_cons.
        destruct (decide (Notions.uploaded item = true)); [| contradiction].
        cbn [length]. etransitivity; [exact Hthis |]. f_equal. f_equal. lia.
    + apply not_true_is_false in Hup.
      destruct (decide (Spec.contributes item = true)) as [Hc | Hc].
      * (* a described garment *)
        destruct (outfitStep_described rt acc acc1 item Hc Hup Hstep)
          as (Hcount1 & Hparts1 & instruction & Hins1).
        exists added, (instruction :: instructions).
        split; [rewrite Hparts, Hparts1; reflexivity |].
        split; [rewrite Hins, Hins1, <- app_assoc; reflexivity |].
        split; [rewrite Hcount, Hcount1; reflexivity |].
        split; [exact Hfiles |].
        intros [| j] it h' Hj Hit Hh'.
        -- injection Hj as <-. congruence.
        -- cbn [lookup list_lookup] in Hj.
           pose proof (Hnum j it h' Hj Hit Hh') as Hthis. rewrite Hcount1 in Hthis.
           cbn [take]. rewrite filter_cons.
           destruct (decide (Notions.uploaded item = true)); [congruence | exact Hthis].
      * (* an item that is left out *)
        apply not_true_is_false in Hc.
        rewrite (outfitStep_skips rt acc item Hc) in Hstep. injection Hstep as <-.
        exists added, instructions. repeat split; assumption.
Qed.

(** X14. When the loop over the items ends normally, the garment images
    of the request are the encoded files of the usable uploaded items, in
    the order of the list, and the counter is their number; the
    instruction of such an item names its image by the position of that
    image among the garment images, counted from 1, so that described
    items in between do not shift the numbers. *)
Theorem garment_images_are_numbered_in_order rt (items : list ClothingItem) acc :
  Service.outfitLoop rt (Service.mkOutfitParts 0 [] []) items = Ok acc →
  let usable := filter (λ i, Spec.contributes i = true) items in
  let uploads := filter (λ i, Notions.uploaded i = true) items in
  Service.garmentImageCounter acc = length uploads
  ∧ Forall2 (λ item part, ∃ f, value item = Some (FileValue f)
                               ∧ Service.fileToPart rt f = Ok part)
      uploads (Service.garmentImageParts acc)
  ∧ ∀ (j : nat) item h,
      usable !! j = Some item → Notions.uploaded item = true → hotspot item = Some h →
      Service.promptInstructions acc !! j
      = Some ("- A " +:+ category_name (type item) +:+ " from garment image #"
              +:+ pretty (S (length (filter (λ i, Notions.uploaded i = true) (take j usable))))
              +:+ Service.placement rt h).
Proof.
  intros Hloop usable uploads.
  destruct (outfitLoop_garments rt items _ acc Hloop)
    as (added & instructions & Hparts & Hins & Hcount & Hfiles & Hnum).
  cbn [Service.garmentImageParts Service.promptInstructions
       Service.garmentImageCounter app] in Hparts, Hins, Hcount, Hnum.
  rewrite Hparts, Hins, Hcount.
  split; [symmetry; apply (Forall2_length _ _ _ Hfiles) |].
  split; [exact Hfiles |].
  intros j item h Hj Hup Hh. exact (Hnum j item h Hj Hup Hh).
Qed.

Lemma garment_images_are_numbered_in_order_witness :
  ∃ acc,
    Service.outfitLoop Sample.rt_ok (Service.mkOutfitParts 0 [] []) Scenario.three_garments
    = Ok acc
    ∧ Service.garmentImageCounter acc = 2%nat
    ∧ Service.promptInstructions acc !! 2%nat
      = Some "- A Shoes from garment image #2 should be placed on the person near coordinates (x: n, y: n).".
Proof.
  eexists. split; [vm_compute; reflexivity |].
  match goal with
  | |- Service.garmentImageCounter ?acc = _ ∧ _ =>
      destruct (garment_images_are_numbered_in_order Sample.rt_ok Scenario.three_garments acc
                  ltac:(vm_compute; reflexivity)) as (Hcount & _ & Hnum)
  end.
  split; [exact Hcount |].
  exact (Hnum 2%nat (mkItem 3 Shoes SourceUpload (Some (FileValue Sample.C))
                       (Some (mkPoint 600 1500))) (mkPoint 600 1500)
           eq_refl eq_refl eq_refl).
Defined.

End Garments.

(** ** Trimmed text in the panels *)

Section Trimming.

Implicit Types (l m : list ascii) (b : bool) (t : string).

(** What is left of a list after its leading white space is a suffix of
    the list, and has no leading white space itself. *)
Lemma strip_ws_suffix_stable (n : nat) b l :
  (length l ≤ n)%nat →
  (∃ k : nat, Js.strip_ws b l = drop k l)
  ∧ Js.strip_ws b (Js.strip_ws b l) = Js.strip_ws b l.
Proof.
  revert l. induction n as [| n IH]; intros l Hn.
  { destruct l; [| cbn in Hn; lia]. split; [exists 0%nat |]; reflexivity. }
  destruct l as [| c1 l1]; [split; [exists 0%nat |]; reflexivity |].
  cbn [length] in Hn. cbn [Js.strip_ws].
  destruct (Js.ws1 c1) eqn:H1.
  { destruct (IH l1) as [[k Hk] Hs]; [lia |].
    split; [exists (S k); exact Hk | exact Hs]. }
  destruct l1 as [| c2 l2].
  { split; [exists 0%nat; reflexivity |]. cbn [Js.strip_ws]. rewrite H1. reflexivity. }
  cbn [length] in Hn.
  destruct (if b then Js.ws2 c2 c1 else Js.ws2 c1 c2) eqn:H2.
  { destruct (IH l2) as [[k Hk] Hs]; [lia |].
    split; [exists (S (S k)); exact Hk | exact Hs]. }
  destruct l2 as [| c3 l3].
  { split; [exists 0%nat; reflexivity |]. cbn [Js.strip_ws]. rewrite H1, H2. reflexivity. }
  cbn [length] in Hn.
  destruct (if b then Js.ws3 c3 c2 c1 else Js.ws3 c1 c2 c3) eqn:H3.
  { destruct (IH l3) as [[k Hk] Hs]; [lia |].
    split; [exists (S (S (S k))); exact Hk | exact Hs]. }
  split; [exists 0%nat; reflexivity |].
  cbn [Js.strip_ws]. rewrite H1, H2, H3. reflexivity.
Qed.

Lemma strip_ws_length b l : (length (Js.strip_ws b l) ≤ length l)%nat.
Proof.
  destruct (strip_ws_suffix_stable (length l) b l) as [[k ->] _]; [lia |].
  rewrite length_drop. lia.
Qed.

(** A prefix of a list without leading white space has none either. *)
Lemma strip_ws_stable_take b m (k : nat) :
  Js.strip_ws b m = m → Js.strip_ws b (take k m) = take k m.
Proof.
  intros Hm.
  destruct m as [| c1 m1]; [destruct k; reflexivity |].
  cbn [Js.strip_ws] in Hm.
  destruct (Js.ws1 c1) eqn:H1.
  { pose proof (strip_ws_length b m1) as Hlen. rewrite Hm in Hlen. cbn in Hlen. lia. }
  destruct k as [| k]; [reflexivity |]. cbn [take Js.strip_ws]. rewrite H1.
  destruct m1 as [| c2 m2]; [destruct k; reflexivity |].
  destruct (if b then Js.ws2 c2 c1 else Js.ws2 c1 c2) eqn:H2.
  { pose proof (strip_ws_length b m2) as Hlen. rewrite Hm in Hlen. cbn in Hlen. lia. }
  destruct k as [| k]; [reflexivity |]. cbn [take]. rewrite H2.
  destruct m2 as [| c3 m3]; [destruct k; reflexivity |].
  destruct (if b then Js.ws3 c3 c2 c1 else Js.ws3 c1 c2 c3) eqn:H3.
  { pose proof (strip_ws_length b m3) as Hlen. rewrite Hm in Hlen. cbn in Hlen. lia. }
  destruct k as [| k]; [reflexivity |]. cbn [take]. rewrite H3. reflexivity.
Qed.

Lemma chars_unchars l : Js.chars (Js.unchars l) = l.
Proof. apply String.list_ascii_of_string_of_list_ascii. Qed.

(** Trimming a trimmed text changes nothing. *)
Lemma trim_idempotent t : Js.trim (Js.trim t) = Js.trim t.
Proof.
  unfold Js.trim. rewrite chars_unchars.
  set (m := Js.strip_ws false (Js.chars t)).
  destruct (strip_ws_suffix_stable (length (Js.chars t)) false (Js.chars t))
    as [_ Hm]; [lia |]. fold m in Hm.
  destruct (strip_ws_suffix_stable (length (rev m)) true (rev m)) as [[k Hk] Hn]; [lia |].
  assert (Hprefix : rev (Js.strip_ws true (rev m)) = take (length m - k) m).
  { rewrite Hk, skipn_rev, rev_involutive. reflexivity. }
  rewrite Hprefix at 1. rewrite (strip_ws_stable_take false m _ Hm).
  rewrite <- Hprefix, rev_involutive, Hn. reflexivity.
Qed.

Lemma trim_empty : Js.trim EmptyString = EmptyString.
Proof. reflexivity. Qed.

(** X15. The refinement dialog calls the handler only for an
    instruction that is not blank, and passes it trimmed; the handler then
    finds it not blank, so that what decides whether the refinement is
    attempted is only whether the dialog has its image and its caption,
    and the message asking for instructions is not the one shown. *)
Theorem dialog_passes_trimmed_instruction rt (prompt : string) s :
  (Js.truthy_string (Js.trim prompt) = false →
   RefinementModal.refineClicked rt prompt s = (s, []))
  ∧ (Js.truthy_string (Js.trim prompt) = true →
     RefinementModal.refineClicked rt prompt s
     = handleRefineRequest rt (Js.trim prompt) s
     ∧ refinementReady (Js.trim prompt) s
       = Js.truthy_opt_string (imageSrc (refinementState s))
         && truthy_caption (caption (refinementState s))
     ∧ error (RefinementModal.refineClicked rt prompt s).1
       ≠ Some "Please provide instructions for the refinement.").
Proof.
  unfold RefinementModal.refineClicked, RefinementModal.handleRefineClick.
  split; intros Hprompt; rewrite Hprompt; [reflexivity |].
  split; [reflexivity |].
  assert (Htrimmed : Js.truthy_string (Js.trim (Js.trim prompt)) = true)
    by (rewrite trim_idempotent; exact Hprompt).
  split; [unfold refinementReady; rewrite Htrimmed; apply andb_true_r |].
  unfold handleRefineRequest. rewrite Htrimmed. cbn [negb].
  destruct (imageIndex (refinementState s)); [| cbn; discriminate].
  destruct (variationResults s); [| cbn; discriminate].
  destruct (_ || _); [cbn; discriminate |].
  destruct (refineTarget _ _ _ _) as [sent [url | err]].
  - cbn. unfold handleCloseRefinementModal. cbn. destruct (isRefining s); cbn; discriminate.
  - cbn. discriminate.
Qed.

Lemma dialog_passes_trimmed_instruction_witness :
  let s := run Sample.refining_first initial in
  (RefinementModal.refineClicked Sample.rt_refined "  smile more " s).2
  = (handleRefineRequest Sample.rt_refined "smile more" s).2
  ∧ RefinementModal.refineClicked Sample.rt_refined "   " s = (s, []).
Proof.
  intros s.
  destruct (dialog_passes_trimmed_instruction Sample.rt_refined "  smile more " s)
    as [_ Hsent].
  destruct (dialog_passes_trimmed_instruction Sample.rt_refined "   " s) as [Hblank _].
  destruct (Hsent eq_refl) as (Hcall & _).
  split; [rewrite Hcall; reflexivity | exact (Hblank eq_refl)].
Defined.

End Trimming.

(** ** The contexts of the scene panel *)

Section SceneContexts.

Implicit Types (p : ContextPanel.PanelState) (c : string).

Lemma slice0_take {A} (a : list A) (e : nat) : Js.slice0 a (Z.of_nat e) = take e a.
Proof.
  unfold Js.slice0.
  destruct (Z.ltb_spec (Z.of_nat e) 0) as [Hneg | _]; [lia |].
  destruct (Z.min_spec (Z.of_nat e) (Z.of_nat (length a))) as [[_ ->] | [Hle ->]].
  - rewrite Nat2Z.id. reflexivity.
  - rewrite Nat2Z.id, !take_ge by lia. reflexivity.
Qed.

Lemma typedContexts_trimmed p :
  Forall (λ c, c ≠ EmptyString ∧ Js.trim c = c) (ContextPanel.typedContexts p).
Proof.
  apply Forall_forall. intros c Hc.
  unfold ContextPanel.typedContexts in Hc.
  apply list_elem_of_filter in Hc as [Htruthy Hc].
  apply list_elem_of_fmap in Hc as (raw & -> & _).
  split; [apply truthy_string_iff, Htruthy | apply trim_idempotent].
Qed.

Lemma DEFAULT_CONTEXTS_trimmed :
  Forall (λ c, c ≠ EmptyString ∧ Js.trim c = c) ContextPanel.DEFAULT_CONTEXTS.
Proof. repeat constructor; discriminate. Qed.

Lemma final_contexts p :
  let contexts := ContextPanel.typedContexts p in
  Js.slice0 (if (0 <? length contexts)%nat then contexts
             else ContextPanel.DEFAULT_CONTEXTS) 4
  = take 4 (if bool_decide (contexts = []) then ContextPanel.DEFAULT_CONTEXTS
            else contexts).
Proof.
  intros contexts. change 4 with (Z.of_nat 4). rewrite slice0_take.
  destruct contexts; reflexivity.
Qed.

(** X16. What the scene panel passes to the generation is the chosen
    background when the mode is upload and a background is chosen, and
    otherwise between one and four contexts, each of them trimmed and not
    empty: the first four of those typed between commas, or of the five
    built-in ones when nothing but white space and commas is typed. The
    generation is thus never asked for an empty list of contexts. *)
Theorem panel_passes_one_to_four_contexts p :
  match ContextPanel.handleGenerateClick p with
  | Background image =>
      ContextPanel.mode p = ContextPanel.ModeUpload
      ∧ ContextPanel.backgroundImage p = Some image
  | Contexts contexts =>
      (1 ≤ length contexts ≤ 4)%nat
      ∧ Forall (λ c, c ≠ EmptyString ∧ Js.trim c = c) contexts
      ∧ contexts = take 4 (if bool_decide (ContextPanel.typedContexts p = [])
                           then ContextPanel.DEFAULT_CONTEXTS
                           else ContextPanel.typedContexts p)
  end.
Proof.
  assert (Hcontexts :
            let contexts :=
              take 4 (if bool_decide (ContextPanel.typedContexts p = [])
                      then ContextPanel.DEFAULT_CONTEXTS
                      else ContextPanel.typedContexts p) in
            (1 ≤ length contexts ≤ 4)%nat
            ∧ Forall (λ c, c ≠ EmptyString ∧ Js.trim c = c) contexts).
  { intros contexts. unfold contexts. rewrite length_take.
    destruct (ContextPanel.typedContexts p) as [| c typed] eqn:Htyped.
    - split; [cbn; lia | apply Forall_take, DEFAULT_CONTEXTS_trimmed].
    - rewrite bool_decide_eq_false_2 by discriminate.
      split; [cbn [length]; lia |].
      apply Forall_take. rewrite <- Htyped. apply typedContexts_trimmed. }
  unfold ContextPanel.handleGenerateClick.
  destruct (ContextPanel.mode p), (ContextPanel.backgroundImage p) as [image |];
    try (rewrite final_contexts; destruct Hcontexts as [Hlen Htrim];
         split; [exact Hlen | split; [exact Htrim | reflexivity]]).
  split; reflexivity.
Qed.

Lemma join_snoc (sep : string) (cs : list string) c :
  cs ≠ [] → Text.join sep (cs ++ [c]) = Text.join sep cs +:+ sep +:+ c.
Proof.
  induction cs as [| c0 cs IH]; [contradiction |]. intros _.
  destruct cs as [| c1 cs]; [reflexivity |].
  change (Text.join sep ((c0 :: c1 :: cs) ++ [c]))
    with (c0 +:+ sep +:+ Text.join sep ((c1 :: cs) ++ [c])).
  rewrite IH by discriminate.
  change (Text.join sep (c0 :: c1 :: cs)) with (c0 +:+ sep +:+ Text.join sep (c1 :: cs)).
  rewrite !string_app_assoc. reflexivity.
Qed.

Lemma truthy_join (sep : string) (cs : list string) :
  cs ≠ [] → Forall (λ c, c ≠ EmptyString) cs →
  Js.truthy_string (Text.join sep cs) = true.
Proof.
  destruct cs as [| c0 cs]; [contradiction |]. intros _ Hall.
  apply Forall_cons in Hall as [Hc0 _].
  destruct c0 as [| ch c0]; [contradiction |].
  destruct cs; reflexivity.
Qed.

(** The text field after the suggestions [chosen] have been clicked. *)
Lemma suggestions_text (chosen : list string) p :
  ContextPanel.customContexts p = EmptyString →
  Forall (λ c, c ≠ EmptyString) chosen →
  ContextPanel.customContexts
    (foldl (λ p c, ContextPanel.addDefaultContext c p) p chosen)
  = Text.join ", " chosen.
Proof.
  intros Hempty Hall. revert Hall.
  induction chosen as [| c chosen IH] using rev_ind; intros Hall; [exact Hempty |].
  apply Forall_app in Hall as [Hall Hc].
  rewrite foldl_app. cbn [foldl]. unfold ContextPanel.addDefaultContext at 1.
  cbn [ContextPanel.customContexts]. rewrite (IH Hall).
  destruct chosen as [| c0 chosen]; [reflexivity |].
  rewrite truthy_join, join_snoc by (discriminate || assumption). reflexivity.
Qed.

Lemma split_space (t : string) :
  Text.split "," (" " +:+ t)
  = match Text.split "," t with
    | h :: rest => (" " +:+ h) :: rest
    | [] => [" "]
    end.
Proof. reflexivity. Qed.

Lemma split_joined (c : string) (cs : list string) :
  Forall (λ c, Notions.free_of "," c = true) (c :: cs) →
  Text.split "," (Text.join ", " (c :: cs)) = c :: ((λ c, " " +:+ c) <$> cs).
Proof.
  revert c. induction cs as [| c1 cs IH]; intros c Hall.
  - apply Forall_cons in Hall as [Hc _]. apply split_free, Hc.
  - apply Forall_cons in Hall as [Hc Hall].
    change (Text.join ", " (c :: c1 :: cs))
      with (c +:+ String "," (" " +:+ Text.join ", " (c1 :: cs))).
    rewrite split_app, (split_free _ c Hc), split_space, (IH c1 Hall). reflexivity.
Qed.

Lemma DEFAULT_CONTEXTS_plain c :
  c ∈ ContextPanel.DEFAULT_CONTEXTS →
  Notions.free_of "," c = true ∧ c ≠ EmptyString
  ∧ Js.trim c = c ∧ Js.trim (" " +:+ c) = c.
Proof.
  unfold ContextPanel.DEFAULT_CONTEXTS. rewrite !elem_of_cons, elem_of_nil.
  intros [-> | [-> | [-> | [-> | [-> | []]]]]];
    (split; [reflexivity | split; [discriminate | split; vm_compute; reflexivity]]).
Qed.

(** X17. Clicking suggestions of the scene panel, starting from an empty
    text field, writes them into the field separated by a comma and a
    space, and the field is read back as exactly these suggestions in the
    order of the clicks; the generation then receives the first four. *)
Theorem clicked_suggestions_are_read_back (chosen : list string) :
  Forall (λ c, c ∈ ContextPanel.DEFAULT_CONTEXTS) chosen →
  let p := foldl (λ p c, ContextPanel.addDefaultContext c p) ContextPanel.initial chosen in
  ContextPanel.customContexts p = Text.join ", " chosen
  ∧ ContextPanel.typedContexts p = chosen
  ∧ (chosen ≠ [] → ContextPanel.handleGenerateClick p = Contexts (take 4 chosen)).
Proof.
  intros Hchosen p.
  assert (Hplain : Forall (λ c, Notions.free_of "," c = true ∧ c ≠ EmptyString
                                ∧ Js.trim c = c ∧ Js.trim (" " +:+ c) = c) chosen).
  { eapply Forall_impl; [exact Hchosen |]. intros c. apply DEFAULT_CONTEXTS_plain. }
  assert (Htext : ContextPanel.customContexts p = Text.join ", " chosen).
  { apply suggestions_text; [reflexivity |].
    eapply Forall_impl; [exact Hplain |]. intros c (_ & Hne & _). exact Hne. }
  assert (Htyped : ContextPanel.typedContexts p = chosen).
  { unfold ContextPanel.typedContexts. rewrite Htext.
    destruct chosen as [| c chosen]; [reflexivity |].
    rewrite split_joined
      by (eapply Forall_impl; [exact Hplain |]; intros c' (Hfree & _); exact Hfree).
    apply Forall_cons in Hplain as [(_ & Hne & Htrim & _) Hplain].
    rewrite fmap_cons, Htrim, filter_cons_True by (apply truthy_string_iff, Hne).
    f_equal. clear -Hplain.
    induction chosen as [| c1 chosen IH]; [reflexivity |].
    apply Forall_cons in Hplain as [(_ & Hne & _ & Htrim) Hplain].
    rewrite !fmap_cons, Htrim, filter_cons_True by (apply truthy_string_iff, Hne).
    f_equal. apply IH, Hplain. }
  split; [exact Htext |]. split; [exact Htyped |].
  intros Hne.
  assert (Hmode : ContextPanel.mode p = ContextPanel.ModePrompt).
  { unfold p. clear. induction chosen as [| c chosen IH] using rev_ind; [reflexivity |].
    rewrite foldl_app. exact IH. }
  unfold ContextPanel.handleGenerateClick. rewrite Hmode, final_contexts, Htyped.
  rewrite bool_decide_eq_false_2 by exact Hne. reflexivity.
Qed.

Lemma clicked_suggestions_are_read_back_witness :
  let p :=
    ContextPanel.addDefaultContext "a serene temple"
      (ContextPanel.addDefaultContext "a vibrant party" ContextPanel.initial) in
  ContextPanel.customContexts p = "a vibrant party, a serene temple"
  ∧ ContextPanel.handleGenerateClick p
    = Contexts ["a vibrant party"; "a serene temple"].
Proof.
  intros p.
  destruct (clicked_suggestions_are_read_back ["a vibrant party"; "a serene temple"])
    as (Htext & _ & Hclick).
  - repeat constructor; unfold ContextPanel.DEFAULT_CONTEXTS;
      rewrite !elem_of_cons; auto 10.
  - split; [exact Htext | exact (Hclick ltac:(discriminate))].
Defined.

End SceneContexts.

(** ** Results: selecting and refining *)

Section Results.

Implicit Types (rt : Runtime) (s : AppState) (results : VariationResults).

(** X18. Selecting a variation whose slot holds an image that can be
    made a file stores that file as a new version: it is the current
    image, the result set, the clothing items and the outfit flag are
    cleared, nothing can be redone, and an undo shows the image that was
    current when the variation was selected. Selecting an empty slot or an
    index past the end stores nothing: the history and the result set are
    as before, and the error shown is the selection failure followed by
    the message of the engine for reading [split] of [undefined]. *)
Theorem selected_variation_is_a_new_version rt (now : Z) (i : nat) s results :
  variationResults s = Some results →
  let s' := handleSelectVariation rt now i s in
  (∀ url file image,
     read (images results) i = Some url →
     dataURLtoFile rt url ("variation-" +:+ pretty now +:+ ".png") = Ok file →
     currentImage s = Some image →
     currentImage s' = Some file
     ∧ variationResults s' = None
     ∧ clothingItems s' = []
     ∧ isOutfitApplied s' = false
     ∧ canRedo s' = false
     ∧ currentImage (handleUndo s') = Some image)
  ∧ (read (images results) i = None →
     history s' = history s
     ∧ historyIndex s' = historyIndex s
     ∧ variationResults s' = Some results
     ∧ error s'
       = Some ("Failed to process the selected image. "
               +:+ TypeError_message rt "split")).
Proof.
  intros Hresults s'. unfold s', handleSelectVariation, read. rewrite Hresults.
  split.
  - intros url file image -> Hfile Himage.
    unfold dataURLtoFile_opt. rewrite Hfile.
    match goal with
    | |- currentImage ?t = _ ∧ _ =>
        destruct (moves_after_new_version file s t image Himage eq_refl eq_refl)
          as (Hcurrent & Hredo & _ & Hundo & _)
    end.
    repeat split; assumption.
  - intros ->. cbn. rewrite Hresults. repeat split.
Qed.

Lemma selected_variation_is_a_new_version_witness :
  let s := run Sample.outfit_then_scene initial in
  let s' := handleSelectVariation Sample.rt_ok 1700000000001 0 s in
  currentImage s'
  = Some (mkFile "variation-1700000000001.png" "image/png" "IMG0")
  ∧ currentImage (handleUndo s') = currentImage s
  ∧ history (handleSelectVariation Sample.rt_ok 1700000000001 7 s) = history s
  ∧ error (handleSelectVariation Sample.rt_ok 1700000000001 7 s)
    = Some "Failed to process the selected image. Cannot read properties of undefined (reading 'split')".
Proof.
  intros s s'.
  destruct (variationResults s) as [results |] eqn:Hresults;
    [| vm_compute in Hresults; discriminate Hresults].
  destruct (selected_variation_is_a_new_version Sample.rt_ok 1700000000001 0 s results
              Hresults) as [Hselect _].
  destruct (selected_variation_is_a_new_version Sample.rt_ok 1700000000001 7 s results
              Hresults) as [_ Hempty].
  assert (Hwhich : results = mkResults [Some "data:image/png;base64,IMG0"] Service.FALLBACK_CAPTIONS).
  { vm_compute in Hresults. injection Hresults as <-. reflexivity. }
  subst results.
  destruct (currentImage s) as [image |] eqn:Himage;
    [| vm_compute in Himage; discriminate Himage].
  destruct (Hselect "data:image/png;base64,IMG0"
              (mkFile "variation-1700000000001.png" "image/png" "IMG0") image
              eq_refl ltac:(vm_compute; reflexivity) eq_refl)
    as (Hcurrent & _ & _ & _ & _ & Hundo).
  destruct (Hempty eq_refl) as (Hhistory & _ & _ & Herror).
  split; [exact Hcurrent |]. split; [exact Hundo |].
  split; [exact Hhistory | exact Herror].
Defined.

(** X19. A refinement that succeeds, started while no other refinement
    runs, closes the dialog; one that fails or is refused leaves the
    dialog as it was, open on the same image, and shows an error. In both
    cases no refinement is marked as running afterwards. *)
Theorem dialog_closes_on_success_only rt (text : string) s results (index : nat) :
  variationResults s = Some results →
  imageIndex (refinementState s) = Some index →
  isRefining s = false →
  let s' := (handleRefineRequest rt text s).1 in
  isRefining s' = false
  ∧ (∀ refined,
       refinementReady text s = true →
       (refineTarget rt text index s).2 = Ok refined →
       refinementState s' = closedRefinement ∧ error s' = None)
  ∧ (refinementReady text s = false
     ∨ (∃ err, (refineTarget rt text index s).2 = Throw err) →
     refinementState s' = refinementState s ∧ is_Some (error s')).
Proof.
  intros Hresults Hindex Hidle s'.
  unfold s', handleRefineRequest, refinementReady. rewrite Hindex, Hresults.
  destruct (Js.truthy_opt_string (imageSrc (refinementState s))); cbn [negb orb andb];
    [| split; [exact Hidle |]; split; [discriminate | intros _; split; cbn; eauto]].
  destruct (truthy_caption (caption (refinementState s))); cbn [negb orb andb];
    [| split; [exact Hidle |]; split; [discriminate | intros _; split; cbn; eauto]].
  destruct (Js.truthy_string (Js.trim text)); cbn [negb];
    [| split; [exact Hidle |]; split; [discriminate | intros _; split; cbn; eauto]].
  destruct (refineTarget rt text index s) as [sent [url | err]]; cbn [fst snd].
  - unfold handleCloseRefinementModal. cbn. rewrite Hidle. cbn.
    split; [reflexivity |]. split; [intros refined _ _; split; reflexivity |].
    intros [Hready | [err Herr]]; discriminate.
  - cbn. split; [reflexivity |]. split; [intros refined _ Hok; discriminate Hok |].
    intros _. split; [reflexivity | eauto].
Qed.

Lemma dialog_closes_on_success_only_witness :
  let s := run Sample.refining_first initial in
  refinementState (handleRefineRequest Sample.rt_refined "smile more" s).1
  = closedRefinement
  ∧ isOpen (refinementState (handleRefineRequest Sample.rt_down "smile more" s).1) = true.
Proof.
  intros s.
  destruct (variationResults s) as [results |] eqn:Hresults;
    [| vm_compute in Hresults; discriminate Hresults].
  destruct (dialog_closes_on_success_only Sample.rt_refined "smile more" s results 0
              Hresults eq_refl eq_refl) as (_ & Hdone & _).
  destruct (dialog_closes_on_success_only Sample.rt_down "smile more" s results 0
              Hresults eq_refl eq_refl) as (_ & _ & Hfailed).
  split.
  - apply (Hdone "data:image/png;base64,REFINED"); vm_compute; reflexivity.
  - destruct Hfailed as [Hsame _].
    + right. eexists. vm_compute. reflexivity.
    + rewrite Hsame. reflexivity.
Defined.

End Results.

(** ** Composing an outfit in the panel *)

Section Composing.

Implicit Types (rt : Runtime) (s : AppState) (item : ClothingItem)
  (items : list ClothingItem).

Lemma same_id_same_item items (a b : ClothingItem) :
  NoDup (id <$> items) → a ∈ items → b ∈ items → id a = id b → a = b.
Proof.
  induction items as [| c items IH]; [intros _ Ha; inversion Ha |].
  rewrite fmap_cons, NoDup_cons, !elem_of_cons.
  intros [Hc Hnd] [-> | Ha] [-> | Hb] Hid; try reflexivity.
  - contradiction Hc. rewrite Hid. apply list_elem_of_fmap_2, Hb.
  - contradiction Hc. rewrite <- Hid. apply list_elem_of_fmap_2, Ha.
  - apply IH; assumption.
Qed.

Lemma mapped_ids (f : ClothingItem → ClothingItem) items :
  (∀ item, id (f item) = id item) → id <$> (f <$> items) = id <$> items.
Proof.
  intros Hf. rewrite <- list_fmap_compose. apply list_fmap_ext.
  intros i item _. apply Hf.
Qed.

(** An update of the value or of the mode by the card of [item]. *)
Lemma matched_update items item (update : ItemUpdate) :
  Notions.matched items → item ∈ items →
  new_id update = None →
  Notions.consistent (updated update item) = true →
  Notions.matched
    ((λ item', if Z.eqb (id item') (id item) then updated update item' else item')
             <$> items).
Proof.
  intros [Hnd Hall] Hitem Hid Hnew. split.
  - rewrite mapped_ids; [exact Hnd |].
    intros item'. destruct (Z.eqb _ _); [| reflexivity].
    unfold updated. rewrite Hid. reflexivity.
  - apply Forall_fmap, Forall_forall. intros item' Hitem'. cbn.
    destruct (Z.eqb_spec (id item') (id item)) as [Heq | _].
    + rewrite (same_id_same_item items item' item Hnd Hitem' Hitem Heq). exact Hnew.
    + rewrite Forall_forall in Hall. apply Hall, Hitem'.
Qed.

Lemma matched_cardEvent item (ev : TryOnPanel.CardEvent) s :
  Notions.matched (clothingItems s) → item ∈ clothingItems s →
  Notions.matched (clothingItems (TryOnPanel.cardEvent item ev s)).
Proof.
  intros Hm Hitem. unfold TryOnPanel.cardEvent.
  destruct (TryOnPanel.isDisabled s); [exact Hm |].
  destruct ev as [mode | files | text | |].
  - apply (matched_update _ item); [exact Hm | exact Hitem | reflexivity |].
    unfold Notions.consistent. cbn. destruct mode; reflexivity.
  - destruct (source item) eqn:Hsource; [| exact Hm].
    destruct files as [| file files]; [exact Hm |].
    apply (matched_update _ item); [exact Hm | exact Hitem | reflexivity |].
    unfold Notions.consistent. cbn. rewrite Hsource. reflexivity.
  - destruct (source item) eqn:Hsource; [exact Hm |].
    apply (matched_update _ item); [exact Hm | exact Hitem | reflexivity |].
    unfold Notions.consistent. cbn. rewrite Hsource. reflexivity.
  - assert (Hitems : clothingItems (handleDeleteItem (id item) s)
                     = filter (λ item', id item' ≠ id item) (clothingItems s)).
    { unfold handleDeleteItem. destruct (bool_decide _); reflexivity. }
    rewrite Hitems. destruct Hm as [Hnd Hall]. split.
    + eapply sublist_NoDup; [exact Hnd |]. apply fmap_sublist, sublist_filter.
    + apply Forall_forall. intros item' [_ Hin]%list_elem_of_filter.
      rewrite Forall_forall in Hall. apply Hall, Hin.
  - exact Hm.
Qed.

Lemma matched_click (e : ClickEvent) s :
  Notions.matched (clothingItems s) →
  Notions.matched (clothingItems (handleImageClick e s)).
Proof.
  intros [Hnd Hall]. unfold handleImageClick.
  destruct (activeClothingItemId s) as [active |]; [| split; assumption].
  cbn. split.
  - rewrite mapped_ids; [exact Hnd |].
    intros item. destruct (Z.eqb _ _); reflexivity.
  - apply Forall_fmap. eapply Forall_impl; [exact Hall |].
    intros item Hc. cbn. destruct (Z.eqb _ _); [| exact Hc]. exact Hc.
Qed.

Lemma matched_add (now : Z) (category : ClothingCategory) s :
  Notions.matched (clothingItems s) →
  forallb (λ item, negb (Z.eqb (id item) now)) (clothingItems s) = true →
  Notions.matched (clothingItems (handleAddItem now category s)).
Proof.
  intros [Hnd Hall] Hfresh. cbn. split.
  - rewrite fmap_app. apply NoDup_app. split; [exact Hnd |].
    split; [| apply NoDup_singleton].
    intros i Hi Hnow. apply list_elem_of_singleton in Hnow as ->.
    apply list_elem_of_fmap in Hi as (item & Hid & Hitem).
    rewrite forallb_forall in Hfresh.
    specialize (Hfresh item (proj1 (list_elem_of_In _ _) Hitem)).
    apply negb_true_iff, Z.eqb_neq in Hfresh. cbn in Hid. congruence.
  - apply Forall_app. split; [exact Hall |]. repeat constructor.
Qed.

(** X20. In the outfit panel, as long as no category is clicked at a
    clock time that is already the identifier of an item, every sequence
    of menu clicks, card events and image clicks keeps the identifiers of
    the items distinct and the value of each item of the kind of its mode:
    a file or nothing for an uploaded item, a text or nothing for a
    described one. *)
Theorem composed_items_match_their_mode (actions : list TryOnPanel.PanelAction) s :
  NoDup (id <$> clothingItems s) →
  Forall (λ item, Notions.consistent item = true) (clothingItems s) →
  Notions.fresh actions s = true →
  let s' := TryOnPanel.compose actions s in
  NoDup (id <$> clothingItems s')
  ∧ Forall (λ item, Notions.consistent item = true) (clothingItems s').
Proof.
  intros Hnd Hall. assert (Hm : Notions.matched (clothingItems s)) by (split; assumption).
  clear Hnd Hall. revert s Hm.
  induction actions as [| a actions IH]; intros s Hm Hfresh; [exact Hm |].
  cbn [Notions.fresh] in Hfresh. apply andb_true_iff in Hfresh as [Ha Hfresh].
  change (TryOnPanel.compose (a :: actions) s)
    with (TryOnPanel.compose actions (TryOnPanel.act a s)).
  apply IH; [| exact Hfresh].
  destruct a as [now category | position ev | e]; cbn [TryOnPanel.act].
  - apply matched_add; assumption.
  - destruct (clothingItems s !! position) as [item |] eqn:Hitem; [| exact Hm].
    apply matched_cardEvent; [exact Hm |].
    apply list_elem_of_lookup_2 in Hitem. exact Hitem.
  - apply matched_click, Hm.
Qed.

Lemma composed_items_match_their_mode_witness :
  Forall (λ item, Notions.consistent item = true)
    (clothingItems (TryOnPanel.compose Scenario.composing Scenario.uploaded)).
Proof.
  destruct (composed_items_match_their_mode Scenario.composing Scenario.uploaded)
    as [_ Hall].
  - apply NoDup_nil_2.
  - constructor.
  - vm_compute. reflexivity.
  - exact Hall.
Defined.

Lemma filter_all {A} (P : A → Prop) `{∀ x, Decision (P x)} (l : list A) :
  Forall P l → filter P l = l.
Proof.
  induction 1 as [| x l Hx _ IH]; [reflexivity |].
  rewrite filter_cons_True by exact Hx. f_equal. exact IH.
Qed.

Lemma existsb_false {A} (f : A → bool) (l : list A) :
  existsb f l = false → Forall (λ x, f x = false) l.
Proof.
  induction l as [| x l IH]; [constructor |].
  cbn. intros [Hx Hl]%orb_false_iff. constructor; [exact Hx | apply IH, Hl].
Qed.

(** X21. When the apply button is enabled, the list of items is not
    empty and every item has a value and a placement point, so that the
    handler keeps them all and hands the whole list to the service. If
    moreover the value of each item is of the kind of its mode, each item
    is used by the service unless it is a description made of white space
    only. *)
Theorem enabled_button_applies_every_item rt (now : Z) s :
  isApplyDisabled s = false →
  clothingItems s ≠ []
  ∧ filter (λ item, placed item) (clothingItems s) = clothingItems s
  ∧ (∀ image, currentImage s = Some image → isOutfitApplied s = false →
       (TryOnPanel.applyClicked rt now s).2
       = (Service.generateLayeredOutfit rt image (clothingItems s)).1)
  ∧ (Forall (λ item, Notions.consistent item = true) (clothingItems s) →
     Forall (λ item, contributes item = true
                     ∨ ∃ t, value item = Some (TextValue t)
                            ∧ t ≠ EmptyString ∧ Js.trim t = EmptyString)
       (clothingItems s)).
Proof.
  intros Henabled. pose proof Henabled as Hitems. unfold isApplyDisabled in Hitems.
  apply orb_false_iff in Hitems as [[_ Hlen]%orb_false_iff Hitems].
  apply existsb_false in Hitems.
  assert (Hne : clothingItems s ≠ []).
  { intros Hnil. rewrite Hnil in Hlen. discriminate Hlen. }
  assert (Hplaced : Forall (λ item, placed item) (clothingItems s)).
  { eapply Forall_impl; [exact Hitems |]. intros item Hitem. cbn in Hitem.
    apply orb_false_iff in Hitem as [Hv Hh]. unfold placed.
    apply negb_false_iff in Hv, Hh. rewrite Hv, Hh. exact I. }
  assert (Hfilter : filter (λ item, placed item) (clothingItems s) = clothingItems s)
    by apply filter_all, Hplaced.
  split; [exact Hne |]. split; [exact Hfilter |]. split.
  - intros image Himage Hflag. unfold TryOnPanel.applyClicked.
    rewrite Henabled, Hflag. cbn [orb].
    unfold handleApplyOutfit. rewrite Himage, Hfilter.
    destruct (clothingItems s) as [| item items] eqn:Hlist; [contradiction |].
    cbn [length Nat.eqb].
    destruct (Service.generateLayeredOutfit rt image (item :: items))
      as [sent [url | err]]; cbn [mbind result_bind]; [| reflexivity].
    destruct (dataURLtoFile rt url _); reflexivity.
  - intros Hconsistent.
    rewrite Forall_forall in Hplaced, Hconsistent. apply Forall_forall.
    intros item Hitem. specialize (Hplaced item Hitem).
    specialize (Hconsistent item Hitem).
    unfold placed in Hplaced. apply Is_true_true, andb_true_iff in Hplaced as [Hv Hh].
    apply bool_decide_eq_true in Hh as [h Hh].
    unfold Notions.consistent in Hconsistent. unfold contributes, truthy_value in *.
    rewrite Hh.
    destruct (source item), (value item) as [[f | t] |]; try discriminate.
    + left. reflexivity.
    + destruct (Js.truthy_string (Js.trim t)) eqn:Htrim; [left; reflexivity |].
      right. exists t. split; [reflexivity |].
      split; [apply truthy_string_iff, Hv |].
      destruct (Js.trim t); [reflexivity | discriminate Htrim].
Qed.

Lemma enabled_button_applies_every_item_witness :
  let s := setClothingItems Scenario.three_garments Scenario.uploaded in
  length (TryOnPanel.applyClicked Sample.rt_ok 1700000000003 s).2 = 1%nat
  ∧ Forall (λ item, contributes item = true
                    ∨ ∃ t, value item = Some (TextValue t)
                           ∧ t ≠ EmptyString ∧ Js.trim t = EmptyString)
      (clothingItems s).
Proof.
  intros s.
  destruct (enabled_button_applies_every_item Sample.rt_ok 1700000000003 s eq_refl)
    as (_ & _ & Hsent & Hused).
  split.
  - rewrite (Hsent Sample.A eq_refl eq_refl). reflexivity.
  - apply Hused. repeat constructor.
Defined.

End Composing.

(** ** Operations on one image, and the opened dialog *)

Section Guards.

Implicit Types (rt : Runtime) (s : AppState) (image : File).

(** X22. When the image to work on cannot be encoded, each of the five
    image operations fails with the failure of the encoding and has sent
    no request to the model. *)
Theorem unreadable_image_sends_nothing rt image (t : Thrown) :
  Service.fileToPart rt image = Throw t →
  (∀ items, Service.generateLayeredOutfit rt image items = ([], Throw t))
  ∧ (∀ contexts, contexts ≠ [] →
       Service.generateVariations rt image contexts = ([], Throw t))
  ∧ (∀ background, Service.generateSceneFromImage rt image background = ([], Throw t))
  ∧ (∀ panel pose,
       Service.generateAnimeTransformation rt image panel pose = ([], Throw t))
  ∧ (∀ prompt, Service.refineImage rt image prompt = ([], Throw t)).
Proof.
  intros Hfail.
  split; [intros items; unfold Service.generateLayeredOutfit; rewrite Hfail; reflexivity |].
  split.
  { intros contexts Hne. unfold Service.generateVariations.
    destruct contexts as [| c contexts]; [contradiction |].
    cbn [length Nat.ltb Nat.leb]. rewrite Hfail. reflexivity. }
  split; [intros background; unfold Service.generateSceneFromImage; rewrite Hfail;
          reflexivity |].
  split; [intros panel pose; unfold Service.generateAnimeTransformation; rewrite Hfail;
          reflexivity |].
  intros prompt. unfold Service.refineImage. rewrite Hfail. reflexivity.
Qed.

Lemma unreadable_image_sends_nothing_witness :
  Service.generateVariations Scenario.rt_unreadable Sample.A ["a beach"; "a forest"]
  = ([], Throw NotAnError)
  ∧ Service.refineImage Scenario.rt_unreadable Sample.A "smile more" = ([], Throw NotAnError).
Proof.
  destruct (unreadable_image_sends_nothing Scenario.rt_unreadable Sample.A NotAnError eq_refl)
    as (_ & Hvariations & _ & _ & Hrefine).
  split; [apply Hvariations; discriminate | apply Hrefine].
Defined.

(** X24. The two single-garment entry points dress the person with one
    top. For an uploaded garment the request carries the person, the
    garment as garment image 1, and the instruction that names it; for a
    described garment it carries the person and the description between
    quotes; a description of white space only is refused as an outfit
    without valid items, and nothing is sent. *)
Theorem single_garment_entry_points rt image (base : Part) (h : Point) :
  Service.fileToPart rt image = Ok base →
  (∀ garment (part : Part),
     Service.fileToPart rt garment = Ok part →
     (Service.generateTryOnImage rt image garment h).1
     = [PartsRequest Service.IMAGE_MODEL
          [base; part;
           Service.textPart
             (Service.outfitPrompt
                ["- A Top from garment image #1" +:+ Service.placement rt h])]])
  ∧ (∀ prompt : string,
       Js.truthy_string (Js.trim prompt) = true →
       (Service.generateClothingFromPrompt rt image prompt h).1
       = [PartsRequest Service.IMAGE_MODEL
            [base;
             Service.textPart
               (Service.outfitPrompt
                  ["- A Top described as " +:+ Js.dquote +:+ prompt +:+ Js.dquote
                   +:+ Service.placement rt h])]])
  ∧ (∀ prompt : string,
       Js.truthy_string (Js.trim prompt) = false →
       Service.generateClothingFromPrompt rt image prompt h
       = ([], Throw Service.NO_VALID_ITEMS)).
Proof.
  intros Hbase.
  unfold Service.generateTryOnImage, Service.generateClothingFromPrompt,
    Service.generateLayeredOutfit.
  rewrite Hbase.
  cbn [Service.outfitLoop Service.outfitStep hotspot source value type
       Service.garmentImageCounter Service.garmentImageParts Service.promptInstructions].
  split; [| split].
  - intros garment part ->.
    cbn [mbind result_bind Service.Remote_bind Service.lift Service.send app length Nat.eqb
         Service.garmentImageCounter Service.garmentImageParts Service.promptInstructions
         category_name].
    destruct (await _) as [response | err]; [| reflexivity].
    destruct (Service.handleApiResponse response _); reflexivity.
  - intros prompt ->.
    cbn [mbind result_bind Service.Remote_bind Service.lift Service.send app length Nat.eqb
         Service.garmentImageCounter Service.garmentImageParts Service.promptInstructions
         category_name].
    destruct (await _) as [response | err]; [| reflexivity].
    destruct (Service.handleApiResponse response _); reflexivity.
  - intros prompt ->. reflexivity.
Qed.

Lemma single_garment_entry_points_witness :
  length (Service.generateTryOnImage Sample.rt_ok Sample.A Sample.B (mkPoint 600 800)).1
  = 1%nat
  ∧ Service.generateClothingFromPrompt Sample.rt_ok Sample.A "   " (mkPoint 600 800)
    = ([], Throw Service.NO_VALID_ITEMS).
Proof.
  destruct (single_garment_entry_points Sample.rt_ok Sample.A _ (mkPoint 600 800) eq_refl)
    as (Hupload & _ & Hblank).
  split.
  - rewrite (Hupload Sample.B _ eq_refl). reflexivity.
  - exact (Hblank "   " eq_refl).
Defined.

Lemma firstCaption_truthy (captions : list JsValue) :
  JsValues.truthy (firstCaption captions) = true.
Proof.
  unfold firstCaption. destruct (head captions) as [c |]; [| reflexivity].
  destruct (JsValues.truthy c) eqn:Hc; [exact Hc | reflexivity].
Qed.

(** X23. The dialog opened on a result always has a caption, the first
    caption of the set or the built-in one when that is missing or empty;
    whether a refinement asked from it is attempted thus depends only on
    the slot holding an image and on the instruction not being blank.
    Without a result set the dialog does not open. *)
Theorem opened_dialog_has_a_caption (i : nat) (text : string) s :
  let s' := handleOpenRefinementModal i s in
  (∀ results,
     variationResults s = Some results →
     isOpen (refinementState s') = true
     ∧ imageIndex (refinementState s') = Some i
     ∧ imageSrc (refinementState s') = read (images results) i
     ∧ truthy_caption (caption (refinementState s')) = true
     ∧ refinementReady text s'
       = Js.truthy_opt_string (read (images results) i)
         && Js.truthy_string (Js.trim text))
  ∧ (variationResults s = None → s' = s).
Proof.
  intros s'. unfold s', handleOpenRefinementModal. split.
  - intros results ->. unfold refinementReady. cbn.
    rewrite firstCaption_truthy, andb_true_r. repeat split.
  - intros ->. reflexivity.
Qed.

Lemma opened_dialog_has_a_caption_witness :
  let s := run Sample.outfit_then_scene initial in
  refinementReady "smile more" (handleOpenRefinementModal 0 s) = true
  ∧ refinementReady "smile more" (handleOpenRefinementModal 3 s) = false.
Proof.
  intros s.
  destruct (variationResults s) as [results |] eqn:Hresults;
    [| vm_compute in Hresults; discriminate Hresults].
  destruct (opened_dialog_has_a_caption 0 "smile more" s) as [Hfirst _].
  destruct (opened_dialog_has_a_caption 3 "smile more" s) as [Hpast _].
  destruct (Hfirst results Hresults) as (_ & _ & _ & _ & Hready0).
  destruct (Hpast results Hresults) as (_ & _ & _ & _ & Hready3).
  rewrite Hready0, Hready3.
  vm_compute in Hresults. injection Hresults as <-. split; reflexivity.
Defined.

(** X25. When the button of the anime panel is enabled, a panel image
    is chosen and the pose is not blank, and the click reaches the
    handler with that image and the pose as it was typed, white space at
    its ends included; with images that can be encoded the one request
    carries the current image, the panel image and the instructions that
    quote that pose. *)
Theorem anime_panel_passes_pose_as_typed rt (p : AnimePanel.PanelState) s :
  AnimePanel.isGenerateDisabled (isLoading s) p = false →
  ∃ panel,
    AnimePanel.panelImage p = Some panel
    ∧ Js.truthy_string (Js.trim (AnimePanel.posePrompt p)) = true
    ∧ AnimePanel.generateClicked rt p s
      = handleGenerateAnime rt panel (AnimePanel.posePrompt p) s
    ∧ ∀ image (part1 part2 : Part),
        currentImage s = Some image →
        Service.fileToPart rt image = Ok part1 →
        Service.fileToPart rt panel = Ok part2 →
        (AnimePanel.generateClicked rt p s).2
        = [PartsRequest Service.IMAGE_MODEL
             [part1; part2;
              Service.textPart (Service.animePrompt (AnimePanel.posePrompt p))]].
Proof.
  intros Henabled. pose proof Henabled as Hparts.
  unfold AnimePanel.isGenerateDisabled in Hparts.
  apply orb_false_iff in Hparts as [[_ Hpanel]%orb_false_iff Hpose].
  apply negb_false_iff in Hpanel, Hpose.
  apply bool_decide_eq_true in Hpanel as [panel Hpanel].
  assert (Htyped : Js.truthy_string (AnimePanel.posePrompt p) = true).
  { destruct (AnimePanel.posePrompt p); [discriminate Hpose | reflexivity]. }
  assert (Hclick : AnimePanel.generateClicked rt p s
                   = handleGenerateAnime rt panel (AnimePanel.posePrompt p) s).
  { unfold AnimePanel.generateClicked, AnimePanel.handleGenerateClick.
    rewrite Henabled, Hpanel, Htyped. reflexivity. }
  exists panel. split; [exact Hpanel |]. split; [exact Hpose |].
  split; [exact Hclick |].
  intros image part1 part2 Himage Hpart1 Hpart2.
  rewrite Hclick. unfold handleGenerateAnime, Service.generateAnimeTransformation.
  rewrite Himage, Hpart1, Hpart2.
  cbn [mbind Service.Remote_bind Service.lift Service.send app].
  destruct (await _) as [response | err]; [| reflexivity].
  destruct (Service.handleApiResponse response _); reflexivity.
Qed.

Lemma anime_panel_passes_pose_as_typed_witness :
  ∃ text,
    (AnimePanel.generateClicked Sample.rt_ok
       (AnimePanel.mkPanel (Some Sample.B) " waving  ") Scenario.uploaded).2
    = [PartsRequest Service.IMAGE_MODEL
         [mkPart (Some (mkBlob (Some "image/png") (Some "QQ=="))) None;
          mkPart (Some (mkBlob (Some "image/png") (Some "Qg=="))) None;
          Service.textPart text]]
    ∧ text = Service.animePrompt " waving  ".
Proof.
  destruct (anime_panel_passes_pose_as_typed Sample.rt_ok
              (AnimePanel.mkPanel (Some Sample.B) " waving  ") Scenario.uploaded eq_refl)
    as (panel & Hpanel & _ & _ & Hsent).
  injection Hpanel as <-.
  eexists. split; [| reflexivity].
  exact (Hsent Sample.A _ _ eq_refl eq_refl eq_refl).
Defined.

End Guards.
